(** * 3D Home Design App: placement, selection, appearance and persistence

    A shallow embedding of the interactive core of the application:
    [PlacementSystem.js], [SelectionSystem.js], [PropertiesPanel.js],
    [StorageManager.js], [AppState.js], [ControlsManager.js] and [Room.js].

    Conventions of the embedding
    - JavaScript numbers are rationals ([Q]); a value that is only copied is
      compared with Leibniz equality, a computed one with [==] or [<=].
    - [undefined]/[null] fields are [option]s; JS truthiness of strings and
      numbers is spelled out ([truthy_string], [truthy_num]).
    - Objects that the code shares and mutates (materials, scene objects) live
      in stores indexed by references, so aliasing is visible.
    - [Object3D.traverse] visits the object itself and then its descendants;
      an object is kept as its own node followed by the list of descendants
      in traversal order.
    - A [THREE.Color] is kept as the expression that set it (a hex code, an
      HSL triple, a scaled colour); [copy], [clone], [set] and the text
      ['#' + getHexString()] carry that expression unchanged. *)

From Stdlib Require Import QArith Qminmax Qabs Lqa Ascii String.
From stdpp Require Import gmap strings list fin_maps.

Open Scope Q_scope.

(** ** JavaScript values *)

Definition truthy_string (s : string) : bool :=
  match s with EmptyString => false | _ => true end.

Definition truthy_num (q : Q) : bool := negb (Qeq_bool q 0).

(** [a || b] on optional strings: the first operand when it is a non-empty
    string, the second one otherwise. *)
Definition or_string (a b : option string) : option string :=
  match a with
  | Some s => if truthy_string s then Some s else b
  | None => b
  end.

Definition or_int (a b : option Z) : option Z :=
  match a with
  | Some n => if Z.eqb n 0 then b else Some n
  | None => b
  end.

(** [a || d] where [d] is a string literal. *)
Definition or_default (a : option string) (d : string) : string :=
  match a with
  | Some s => if truthy_string s then s else d
  | None => d
  end.

(** [a || 0] on an optional number. *)
Definition or_zero (a : option Q) : Q :=
  match a with
  | Some q => if truthy_num q then q else 0
  | None => 0
  end.

Definition toLowerCase_ascii (c : ascii) : ascii :=
  let n := nat_of_ascii c in
  if (Nat.leb 65 n && Nat.leb n 90)%bool then ascii_of_nat (n + 32) else c.

Fixpoint toLowerCase (s : string) : string :=
  match s with
  | EmptyString => EmptyString
  | String c t => String (toLowerCase_ascii c) (toLowerCase t)
  end.

(** [hay.includes(needle)] *)
Fixpoint includes (hay needle : string) : bool :=
  (String.prefix needle hay ||
   match hay with
   | EmptyString => false
   | String _ t => includes t needle
   end)%bool.

(** ** The part of three.js the code relies on *)

Record Vector3 := mkVector3 { vx : Q; vy : Q; vz : Q }.

Definition Vector3_add (a b : Vector3) : Vector3 :=
  mkVector3 (vx a + vx b) (vy a + vy b) (vz a + vz b).

Definition Vector3_sub (a b : Vector3) : Vector3 :=
  mkVector3 (vx a - vx b) (vy a - vy b) (vz a - vz b).

Definition Vector3_zero : Vector3 := mkVector3 0 0 0.

(** [Box3]: a fresh box is empty (its corners are plus and minus infinity),
    which rationals cannot hold, hence the separate constructor. *)
Inductive Box3 :=
| EmptyBox
| Box (bmin bmax : Vector3).

Definition Qltb (a b : Q) : bool := negb (Qle_bool b a).

Definition Box3_isEmpty (b : Box3) : bool :=
  match b with
  | EmptyBox => true
  | Box mn mx =>
      (Qltb (vx mx) (vx mn) || Qltb (vy mx) (vy mn) || Qltb (vz mx) (vz mn))%bool
  end.

(** [box.getSize(target)] *)
Definition Box3_getSize (b : Box3) : Vector3 :=
  match b with
  | EmptyBox => Vector3_zero
  | Box mn mx => if Box3_isEmpty b then Vector3_zero else Vector3_sub mx mn
  end.

Definition Box3_translate (d : Vector3) (b : Box3) : Box3 :=
  match b with
  | EmptyBox => EmptyBox
  | Box mn mx => Box (Vector3_add mn d) (Vector3_add mx d)
  end.

Definition Box3_union (a b : Box3) : Box3 :=
  match a, b with
  | EmptyBox, _ => b
  | _, EmptyBox => a
  | Box mn1 mx1, Box mn2 mx2 =>
      Box (mkVector3 (Qmin (vx mn1) (vx mn2)) (Qmin (vy mn1) (vy mn2)) (Qmin (vz mn1) (vz mn2)))
          (mkVector3 (Qmax (vx mx1) (vx mx2)) (Qmax (vy mx1) (vy mx2)) (Qmax (vz mx1) (vz mx2)))
  end.

Inductive Color :=
| Hex (code : Z)
| HSL (h s l : Q)
| MultiplyScalar (c : Color) (k : Q).

Module Material.
(** The channels of a material that the application reads or writes.
    [color] and [emissive] are absent on materials without that channel,
    [metalness]/[roughness] are [undefined] outside the standard material. *)
Record t := mk {
  color : option Color;
  metalness : option Q;
  roughness : option Q;
  opacity : Q;
  transparent : bool;
  emissive : option Color;
  emissiveIntensity : option Q;
  _isCloned : bool
}.

Definition set_color (c : option Color) (m : t) : t :=
  mk c (metalness m) (roughness m) (opacity m) (transparent m)
     (emissive m) (emissiveIntensity m) (_isCloned m).
Definition set_metalness (v : option Q) (m : t) : t :=
  mk (color m) v (roughness m) (opacity m) (transparent m)
     (emissive m) (emissiveIntensity m) (_isCloned m).
Definition set_roughness (v : option Q) (m : t) : t :=
  mk (color m) (metalness m) v (opacity m) (transparent m)
     (emissive m) (emissiveIntensity m) (_isCloned m).
Definition set_opacity (v : Q) (m : t) : t :=
  mk (color m) (metalness m) (roughness m) v (transparent m)
     (emissive m) (emissiveIntensity m) (_isCloned m).
Definition set_transparent (b : bool) (m : t) : t :=
  mk (color m) (metalness m) (roughness m) (opacity m) b
     (emissive m) (emissiveIntensity m) (_isCloned m).
Definition set_emissive (c : option Color) (m : t) : t :=
  mk (color m) (metalness m) (roughness m) (opacity m) (transparent m)
     c (emissiveIntensity m) (_isCloned m).
Definition set_emissiveIntensity (v : option Q) (m : t) : t :=
  mk (color m) (metalness m) (roughness m) (opacity m) (transparent m)
     (emissive m) v (_isCloned m).
Definition set_isCloned (b : bool) (m : t) : t :=
  mk (color m) (metalness m) (roughness m) (opacity m) (transparent m)
     (emissive m) (emissiveIntensity m) b.

(** [new THREE.MeshStandardMaterial({ color, roughness, metalness })];
    the library defaults are roughness 1, metalness 0, opacity 1, a black
    emissive colour of intensity 1. *)
Definition MeshStandardMaterial (c : Color) (rough metal : Q) : t :=
  mk (Some c) (Some metal) (Some rough) 1 false (Some (Hex 0)) (Some 1) false.
End Material.

(** The material store: every [THREE.Material] object has a reference, and a
    mesh holds the reference, so two meshes may share one material. *)
Definition alloc_material (m : Material.t) (ms : gmap nat Material.t)
  : nat * gmap nat Material.t :=
  let r := fresh (dom ms) in (r, <[r := m]> ms).

Module Node.
(** One node of a scene subtree, as [traverse] hands it to its callback. *)
Record t := mk {
  name : string;
  uuid : string;
  isMesh : bool;
  material : option nat
}.

Definition set_material (r : option nat) (n : t) : t :=
  mk (name n) (uuid n) (isMesh n) r.
Definition set_name (s : string) (n : t) : t :=
  mk s (uuid n) (isMesh n) (material n).
End Node.

(** ** Catalog entries and item metadata *)

Module FurnitureData.
(** A catalog entry ([params.json]); every field may be missing in a
    document written by an older version. *)
Record t := mk {
  name : option string;
  path : option string;
  id : option Z
}.
Definition empty : t := mk None None None.
End FurnitureData.

Module UserData.
Record t := mk {
  id : option Q;
  name : option string;
  furnitureType : option string;
  furniturePath : option string;
  furnitureId : option Z;
  furnitureData : option FurnitureData.t;
  isSelected : option bool
}.

Definition set_isSelected (b : bool) (u : t) : t :=
  mk (id u) (name u) (furnitureType u) (furniturePath u) (furnitureId u)
     (furnitureData u) (Some b).
Definition set_name (s : string) (u : t) : t :=
  mk (id u) (Some s) (furnitureType u) (furniturePath u) (furnitureId u)
     (furnitureData u) (isSelected u).
End UserData.

Module Object3D.
(** A top-level scene object. [extent r s] is the axis-aligned box of the
    object's geometry relative to its position when its rotation is [r] and
    its scale is [s]: that is what [new THREE.Box3().setFromObject(o)]
    returns, moved back by [o.position] (the furniture container sits at
    the identity transform). *)
Record t := mk {
  self : Node.t;
  descendants : list Node.t;
  userData : UserData.t;
  position : Vector3;
  rotation : Vector3;
  scale : Vector3;
  extent : Vector3 -> Vector3 -> Box3
}.

Definition name (o : t) : string := Node.name (self o).
Definition uuid (o : t) : string := Node.uuid (self o).

(** The nodes in the order [o.traverse(cb)] calls [cb]. *)
Definition nodes (o : t) : list Node.t := self o :: descendants o.

Definition set_nodes (ns : list Node.t) (o : t) : t :=
  match ns with
  | [] => o
  | n :: rest =>
      mk n rest (userData o) (position o) (rotation o) (scale o) (extent o)
  end.
Definition set_name (s : string) (o : t) : t :=
  mk (Node.set_name s (self o)) (descendants o) (userData o)
     (position o) (rotation o) (scale o) (extent o).
Definition set_userData (u : UserData.t) (o : t) : t :=
  mk (self o) (descendants o) u (position o) (rotation o) (scale o) (extent o).
Definition set_position (p : Vector3) (o : t) : t :=
  mk (self o) (descendants o) (userData o) p (rotation o) (scale o) (extent o).
Definition set_rotation (r : Vector3) (o : t) : t :=
  mk (self o) (descendants o) (userData o) (position o) r (scale o) (extent o).
Definition set_scale (s : Vector3) (o : t) : t :=
  mk (self o) (descendants o) (userData o) (position o) (rotation o) s (extent o).
End Object3D.

(** [new THREE.Box3().setFromObject(o)] *)
Definition Box3_setFromObject (o : Object3D.t) : Box3 :=
  Box3_translate (Object3D.position o)
    (Object3D.extent o (Object3D.rotation o) (Object3D.scale o)).

(** ** Room.js *)

Module ROOM_CONFIG.
Definition width : Q := 10.
Definition depth : Q := 10.
Definition height : Q := 3.
Definition wallThickness : Q := 1 # 10.
End ROOM_CONFIG.

(** ** Application state and the state of each component *)

Module AppState.
(** [AppStateManager.state], without the palette-only keys. *)
Record t := mk {
  selectedObject : option nat;
  activeFurnitureType : option FurnitureData.t;
  placedObjects : list nat;
  isLoading : bool
}.
Definition initial : t := mk None None [] false.
End AppState.

Module SavedEmissive.
(** An entry of [SelectionSystem.originalMaterials]. *)
Record t := mk {
  emissive : option Color;
  emissiveIntensity : option Q
}.
End SavedEmissive.

Module SelectionSystem.
Record t := mk {
  selectedObject : option nat;
  (** the object the [BoxHelper] wraps, when there is a helper *)
  highlightHelper : option nat;
  isDragging : bool;
  dragOffset : Vector3;
  dragStartPosition : Vector3;
  originalMaterials : gmap string SavedEmissive.t;
  cursor : string
}.
Definition initial : t :=
  mk None None false Vector3_zero Vector3_zero ∅ "auto".
End SelectionSystem.

Module Snapshot.
(** An entry of a list stored in [PropertiesPanel.originalColors]. *)
Record t := mk {
  uuid : string;
  color : option Color;
  metalness : option Q;
  roughness : option Q;
  opacity : option Q
}.
End Snapshot.

Module PropertiesPanel.
Record t := mk {
  selectedObject : option nat;
  originalColors : gmap string (list Snapshot.t)
}.
Definition initial : t := mk None ∅.
End PropertiesPanel.

Module PlacementSystem.
Record t := mk {
  placedObjects : list nat;
  isLoading : bool
}.
Definition initial : t := mk [] false.
End PlacementSystem.

Module MaterialMod.
(** An entry of [materialMods] in a stored item. *)
Record t := mk {
  childName : string;
  color : option Color;
  metalness : option Q;
  roughness : option Q;
  opacity : option Q
}.
End MaterialMod.

Module ObjData.
(** A stored item. The fields that [_deserializeObject] tests before use
    are optional, since a stored document may come from an older version. *)
Record t := mk {
  name : string;
  furnitureType : option string;
  furniturePath : option string;
  furnitureId : option Z;
  furnitureData : option FurnitureData.t;
  position : Vector3;
  rotation : Vector3;
  scale : Vector3;
  materialMods : option (list MaterialMod.t)
}.
End ObjData.

Module LayoutData.
Record t := mk {
  version : string;
  timestamp : Q;
  objects : option (list ObjData.t)
}.
End LayoutData.

(** What a key of [localStorage] holds: the text of a layout document
    ([JSON.stringify] and [JSON.parse] are inverse on documents), or a
    text that [JSON.parse] rejects. A document is what [saveLayout] writes,
    up to the fields an older version may lack: [objects] is absent or an
    array of item records. A text that parses to anything else (an
    [objects] that is no array, an item that is [null]) has no
    counterpart here; the statements about stored texts name the texts
    they are about. *)
Inductive Stored :=
| Doc (d : LayoutData.t)
| Garbage (s : string).

Module Storage.
(** [localStorage]. When [writable] is false every [setItem] throws
    (quota exceeded, storage disabled). *)
Record t := mk {
  items : gmap string Stored;
  writable : bool
}.
End Storage.

Module App.
Record t := mk {
  objects : gmap nat Object3D.t;
  materials : gmap nat Material.t;
  (** children of the scene's [FurnitureContainer], if the scene has one *)
  container : option (list nat);
  appState : AppState.t;
  selection : SelectionSystem.t;
  panel : PropertiesPanel.t;
  placement : PlacementSystem.t;
  (** [controls.controls.enabled] of the [ControlsManager] *)
  orbitEnabled : bool;
  localStorage : Storage.t
}.

Definition set_objects v (a : t) : t :=
  mk v (materials a) (container a) (appState a) (selection a) (panel a)
     (placement a) (orbitEnabled a) (localStorage a).
Definition set_materials v (a : t) : t :=
  mk (objects a) v (container a) (appState a) (selection a) (panel a)
     (placement a) (orbitEnabled a) (localStorage a).
Definition set_container v (a : t) : t :=
  mk (objects a) (materials a) v (appState a) (selection a) (panel a)
     (placement a) (orbitEnabled a) (localStorage a).
Definition set_appState v (a : t) : t :=
  mk (objects a) (materials a) (container a) v (selection a) (panel a)
     (placement a) (orbitEnabled a) (localStorage a).
Definition set_selection v (a : t) : t :=
  mk (objects a) (materials a) (container a) (appState a) v (panel a)
     (placement a) (orbitEnabled a) (localStorage a).
Definition set_panel v (a : t) : t :=
  mk (objects a) (materials a) (container a) (appState a) (selection a) v
     (placement a) (orbitEnabled a) (localStorage a).
Definition set_placement v (a : t) : t :=
  mk (objects a) (materials a) (container a) (appState a) (selection a)
     (panel a) v (orbitEnabled a) (localStorage a).
Definition set_orbitEnabled v (a : t) : t :=
  mk (objects a) (materials a) (container a) (appState a) (selection a)
     (panel a) (placement a) v (localStorage a).
Definition set_localStorage v (a : t) : t :=
  mk (objects a) (materials a) (container a) (appState a) (selection a)
     (panel a) (placement a) (orbitEnabled a) v.

(** The application after [init()]: an empty container, nothing placed,
    orbit controls enabled (the [OrbitControls] default). *)
Definition initial (ls : Storage.t) : t :=
  mk ∅ ∅ (Some []) AppState.initial SelectionSystem.initial
     PropertiesPanel.initial PlacementSystem.initial true ls.

(** Registering a new scene object. *)
Definition new_object (o : Object3D.t) (a : t) : nat * t :=
  let r := fresh (dom (objects a)) in (r, set_objects (<[r := o]> (objects a)) a).
End App.

(** [ControlsManager.setEnabled] *)
Definition ControlsManager_setEnabled (enabled : bool) (a : App.t) : App.t :=
  App.set_orbitEnabled enabled a.

(** ** Procedural geometry *)

Inductive Geometry :=
| BoxGeometry (width height depth : Q)
| CylinderGeometry (radiusTop radiusBottom height : Q).

(** [geometry.boundingBox]: both geometries are centred on their origin. *)
Definition Geometry_boundingBox (g : Geometry) : Box3 :=
  match g with
  | BoxGeometry w h d =>
      Box (mkVector3 (- (w / 2)) (- (h / 2)) (- (d / 2)))
          (mkVector3 (w / 2) (h / 2) (d / 2))
  | CylinderGeometry rt rb h =>
      let r := Qmax rt rb in
      Box (mkVector3 (- r) (- (h / 2)) (- r)) (mkVector3 r (h / 2) r)
  end.

Module Part.
(** A mesh of a procedural shape; [material] is an index in the table of
    the shape, so that two meshes can share one material. *)
Record t := mk {
  geometry : Geometry;
  material : nat;
  position : Vector3
}.
End Part.

(** What the fallback constructors build: a [THREE.Group] of meshes over a
    table of materials, or one bare [THREE.Mesh]. *)
Inductive Primitive :=
| Group (materials : list Material.t) (children : list Part.t)
| SingleMesh (geometry : Geometry) (material : Material.t).

Definition Box3_scale (s : Vector3) (b : Box3) : Box3 :=
  match b with
  | EmptyBox => EmptyBox
  | Box mn mx =>
      Box (mkVector3 (Qmin (vx s * vx mn) (vx s * vx mx))
                     (Qmin (vy s * vy mn) (vy s * vy mx))
                     (Qmin (vz s * vz mn) (vz s * vz mx)))
          (mkVector3 (Qmax (vx s * vx mn) (vx s * vx mx))
                     (Qmax (vy s * vy mn) (vy s * vy mx))
                     (Qmax (vz s * vz mn) (vz s * vz mx)))
  end.

Definition Part_box (p : Part.t) : Box3 :=
  Box3_translate (Part.position p) (Geometry_boundingBox (Part.geometry p)).

Definition Primitive_box (p : Primitive) : Box3 :=
  match p with
  | Group _ ps => foldr (fun q acc => Box3_union (Part_box q) acc) EmptyBox ps
  | SingleMesh g _ => Geometry_boundingBox g
  end.

(** The box of a procedural shape under a scale. The shapes are built and
    placed unrotated; the rotation argument is not used, so the box is the
    exact one for the zero rotation only. *)
Definition Primitive_extent (p : Primitive) : Vector3 -> Vector3 -> Box3 :=
  fun _ s => Box3_scale s (Primitive_box p).

Module Asset.
(** An object as a constructor or the loader delivers it, before its
    materials are in the store: the [material] of a node is an index in
    [materials]. *)
Record t := mk {
  materials : list Material.t;
  object : Object3D.t
}.
End Asset.

Definition UserData_empty : UserData.t :=
  UserData.mk None None None None None None None.

Definition Vector3_one : Vector3 := mkVector3 1 1 1.

(** The scene object of a procedural shape; [uuid i] is the identifier that
    [generateUUID()] gives to its [i]-th node. *)
Definition Primitive_asset (uuid : nat -> string) (p : Primitive) : Asset.t :=
  match p with
  | Group mats ps =>
      Asset.mk mats
        (Object3D.mk (Node.mk "" (uuid 0%nat) false None)
           (imap (fun i q => Node.mk "" (uuid (S i)) true (Some (Part.material q))) ps)
           UserData_empty Vector3_zero Vector3_zero Vector3_one
           (Primitive_extent p))
  | SingleMesh g m =>
      Asset.mk [m]
        (Object3D.mk (Node.mk "" (uuid 0%nat) true (Some 0%nat)) []
           UserData_empty Vector3_zero Vector3_zero Vector3_one
           (Primitive_extent p))
  end.

Fixpoint alloc_materials (l : list Material.t) (ms : gmap nat Material.t)
  : list nat * gmap nat Material.t :=
  match l with
  | [] => ([], ms)
  | m :: l' =>
      let '(r, ms1) := alloc_material m ms in
      let '(rs, ms2) := alloc_materials l' ms1 in
      (r :: rs, ms2)
  end.

Definition relocate (refs : list nat) (n : Node.t) : Node.t :=
  Node.set_material (Node.material n ≫= fun i => refs !! i) n.

(** Bringing an asset into the scene: its materials become store objects. *)
Definition instantiate (a : Asset.t) (ms : gmap nat Material.t)
  : Object3D.t * gmap nat Material.t :=
  let '(refs, ms') := alloc_materials (Asset.materials a) ms in
  (Object3D.set_nodes (relocate refs <$> Object3D.nodes (Asset.object a))
     (Asset.object a), ms').

(** ** PlacementSystem.js *)

Definition _isWithinBounds (position : Vector3) (margin : Q) : bool :=
  let halfWidth := (ROOM_CONFIG.width / 2) - margin in
  let halfDepth := (ROOM_CONFIG.depth / 2) - margin in
  (Qle_bool (- halfWidth) (vx position) && Qle_bool (vx position) halfWidth &&
   Qle_bool (- halfDepth) (vz position) && Qle_bool (vz position) halfDepth)%bool.

Definition part_at (g : Geometry) (m : nat) (px py pz : Q) : Part.t :=
  Part.mk g m (mkVector3 px py pz).

(** [_createPrimitiveByType]. An entry without [id] makes the hue [NaN] in
    the source; the catalog always has ids, and [0] stands for it here. *)
Definition _createPrimitiveByType (type : string) (furnitureData : FurnitureData.t)
  : Primitive :=
  let hue := Z.rem (default 0%Z (FurnitureData.id furnitureData) * 37) 360 in
  let color := HSL (inject_Z hue / 360) 0.6 0.5 in
  let material := Material.MeshStandardMaterial color 0.7 0.1 in
  let plain c := Material.MeshStandardMaterial c 1 0 in
  if String.eqb type "chair" then
    Group [material; plain (Hex 0x4a4a4a)]
      ([ part_at (BoxGeometry 0.5 0.05 0.5) 0 0 0.45 0;
         part_at (BoxGeometry 0.5 0.5 0.05) 0 0 0.7 (-0.22) ] ++
       map (fun '(px, pz) => part_at (CylinderGeometry 0.02 0.02 0.45) 1 px 0.225 pz)
         [(-0.2, -0.2); (0.2, -0.2); (-0.2, 0.2); (0.2, 0.2)])
  else if String.eqb type "table" then
    Group [material; plain (Hex 0x5D4037)]
      ([ part_at (BoxGeometry 1.2 0.05 0.8) 0 0 0.75 0 ] ++
       map (fun '(px, pz) => part_at (CylinderGeometry 0.03 0.03 0.73) 1 px 0.365 pz)
         [(-0.5, -0.3); (0.5, -0.3); (-0.5, 0.3); (0.5, 0.3)])
  else if String.eqb type "couch" then
    Group [material]
      ([ part_at (BoxGeometry 2 0.4 0.9) 0 0 0.3 0;
         part_at (BoxGeometry 2 0.5 0.15) 0 0 0.55 (-0.38) ] ++
       map (fun px => part_at (BoxGeometry 0.15 0.3 0.9) 0 px 0.45 0)
         [-0.92; 0.92])
  else if String.eqb type "bed" then
    Group [material; plain (Hex 0xf5f5dc); plain (Hex 0x8B4513); plain (Hex 0x8B4513)]
      [ part_at (BoxGeometry 1.8 0.3 2.2) 1 0 0.35 0;
        part_at (BoxGeometry 1.9 0.2 2.3) 2 0 0.1 0;
        part_at (BoxGeometry 1.9 0.8 0.1) 3 0 0.6 (-1.1) ]
  else if String.eqb type "cabinet" then
    Group [material; plain (MultiplyScalar color 0.8)]
      ([ part_at (BoxGeometry 0.8 1.2 0.5) 0 0 0.6 0 ] ++
       map (fun px => part_at (BoxGeometry 0.35 1.1 0.02) 1 px 0.6 0.26)
         [-0.18; 0.18])
  else
    Group [material] [ part_at (BoxGeometry 0.6 0.6 0.6) 0 0 0.3 0 ].

(** The type that [_createPrimitiveFallback] reads off a lower-case name. *)
Definition placement_type (name : string) : string :=
  if (includes name "chair" || includes name "arm")%bool then "chair"
  else if includes name "table" then "table"
  else if (includes name "couch" || includes name "sofa")%bool then "couch"
  else if includes name "bed" then "bed"
  else if (includes name "cabinet" || includes name "cupboard")%bool then "cabinet"
  else "default".

(** [_createPrimitiveFallback]; [None] when [furnitureData.name] is missing
    and [toLowerCase] throws. *)
Definition _createPrimitiveFallback (furnitureData : FurnitureData.t)
  : option Primitive :=
  name ← FurnitureData.name furnitureData;
  Some (_createPrimitiveByType (placement_type (toLowerCase name)) furnitureData).

Definition targetHeight_of (name : string) : Q :=
  if includes name "chair" then 0.9
  else if includes name "table" then 0.75
  else if (includes name "couch" || includes name "sofa")%bool then 0.8
  else if includes name "bed" then 0.6
  else if (includes name "cabinet" || includes name "cupboard")%bool then 1.2
  else if includes name "tv" then 0.6
  else if includes name "fridge" then 1.8
  else if includes name "wardrobe" then 2.0
  else 1.0.

Definition Vector3_setScalar (s : Q) : Vector3 := mkVector3 s s s.

Definition Vector3_set_y (v : Q) (p : Vector3) : Vector3 :=
  mkVector3 (vx p) v (vz p).

(** The first half of [_applyScale]: the uniform rescale. *)
Definition rescale (targetHeight : Q) (model : Object3D.t) : Object3D.t :=
  let size := Box3_getSize (Box3_setFromObject model) in
  if Qltb 0.01 (vy size) then
    let currentHeight := vy size in
    if Qltb 0.3 (Qabs (currentHeight - targetHeight)) then
      let scale := targetHeight / currentHeight in
      let clampedScale := Qmax 0.1 (Qmin 3 scale) in
      Object3D.set_scale (Vector3_setScalar clampedScale) model
    else model
  else model.

(** The second half of [_applyScale]: "Adjust position so model sits on
    floor". The lowest point of an empty box is plus infinity. *)
Definition sit_on_floor (model : Object3D.t) : Object3D.t :=
  match Box3_setFromObject model with
  | EmptyBox => model
  | Box newMin _ =>
      let minY := vy newMin in
      if Qltb minY 0 then
        Object3D.set_position (Vector3_set_y (- minY) (Object3D.position model)) model
      else model
  end.

(** [_applyScale]; [None] when [furnitureData.name] is missing. *)
Definition _applyScale (model : Object3D.t) (furnitureData : FurnitureData.t)
  : option Object3D.t :=
  name ← FurnitureData.name furnitureData;
  Some (sit_on_floor (rescale (targetHeight_of (toLowerCase name)) model)).

Module Stamp.
(** [Date.now() + Math.random()] and its text in a template string. *)
Record t := mk { value : Q; text : string }.
End Stamp.

Definition AppState_addPlacedObject (r : nat) (a : App.t) : App.t :=
  let s := App.appState a in
  App.set_appState
    (AppState.mk (AppState.selectedObject s) (AppState.activeFurnitureType s)
       (AppState.placedObjects s ++ [r]) (AppState.isLoading s)) a.

Definition AppState_set_isLoading (b : bool) (a : App.t) : App.t :=
  let s := App.appState a in
  App.set_appState
    (AppState.mk (AppState.selectedObject s) (AppState.activeFurnitureType s)
       (AppState.placedObjects s) b) a.

Definition set_loading (b : bool) (a : App.t) : App.t :=
  AppState_set_isLoading b
    (App.set_placement
       (PlacementSystem.mk (PlacementSystem.placedObjects (App.placement a)) b) a).

Definition container_add (r : nat) (a : App.t) : App.t :=
  App.set_container ((fun l => l ++ [r]) <$> App.container a) a.

Section Placement.
(** [furnitureLoader.load] delivers an asset for a path, or rejects
    ([None]). What the [GLTFLoader] behind it reads from the model files is
    not in the sources, so the delivered assets are a parameter. The
    loader hands out clones of a cached scene, whose meshes point at the
    materials of the cache; [instantiate] gives every delivered asset
    materials of its own, so two items of one loaded asset do not share
    their materials here. *)
Variable load : string -> option Asset.t.
Variable uuid : nat -> string.

(** The model that [_placeFurniture] obtains: the loaded asset, or the
    procedural shape when the loader rejects. *)
Definition placement_model (furnitureData : FurnitureData.t) : option Asset.t :=
  match FurnitureData.path furnitureData ≫= load with
  | Some asset => Some asset
  | None => Primitive_asset uuid <$> _createPrimitiveFallback furnitureData
  end.

(** [_placeFurniture]: returns the reference of the placed object, if any. *)
Definition _placeFurniture (stamp : Stamp.t) (furnitureData : FurnitureData.t)
    (position : Vector3) (a : App.t) : option nat * App.t :=
  let a := set_loading true a in
  let placed :=
    asset ← placement_model furnitureData;
    name ← FurnitureData.name furnitureData;
    let '(model, ms) := instantiate asset (App.materials a) in
    let model := Object3D.set_position (Vector3_set_y 0 position) model in
    model ← _applyScale model furnitureData;
    let model :=
      Object3D.set_userData
        (UserData.mk (Some (Stamp.value stamp)) None None None None
           (Some furnitureData) (Some false)) model in
    let model :=
      Object3D.set_name ("Furniture_" +:+ name +:+ "_" +:+ Stamp.text stamp) model in
    let '(r, a) := App.new_object model (App.set_materials ms a) in
    let a := container_add r a in
    let a :=
      App.set_placement
        (PlacementSystem.mk (PlacementSystem.placedObjects (App.placement a) ++ [r])
           (PlacementSystem.isLoading (App.placement a))) a in
    Some (r, AppState_addPlacedObject r a) in
  match placed with
  | Some (r, a) => (Some r, set_loading false a)
  | None => (None, set_loading false a)
  end.

(** [_onDoubleClick]; [floor] is where the pointer ray meets the floor
    plane, if it does. *)
Definition _onDoubleClick (stamp : Stamp.t) (floor : option Vector3) (a : App.t)
  : option nat * App.t :=
  match AppState.activeFurnitureType (App.appState a) with
  | None => (None, a)
  | Some activeFurniture =>
      if PlacementSystem.isLoading (App.placement a) then (None, a)
      else match floor with
           | None => (None, a)
           | Some intersectPoint =>
               if _isWithinBounds intersectPoint 0.5
               then _placeFurniture stamp activeFurniture intersectPoint a
               else (None, a)
           end
  end.
End Placement.

(** ** SelectionSystem.js *)

(** The guard [child.isMesh && child.material] of the traversal callbacks,
    with the material object it admits. *)
Definition mesh_material (ms : gmap nat Material.t) (child : Node.t)
  : option (nat * Material.t) :=
  if Node.isMesh child then
    r ← Node.material child; m ← ms !! r; Some (r, m)
  else None.

Definition selectedEmissive : Color := Hex 0x003300.

Definition update_object (r : nat) (f : Object3D.t -> Object3D.t) (a : App.t) : App.t :=
  App.set_objects (alter f r (App.objects a)) a.

Definition set_flag (b : bool) (o : Object3D.t) : Object3D.t :=
  Object3D.set_userData (UserData.set_isSelected b (Object3D.userData o)) o.

Module Sel.
Import SelectionSystem.

Definition set_selectedObject v (s : t) : t :=
  mk v (highlightHelper s) (isDragging s) (dragOffset s) (dragStartPosition s)
     (originalMaterials s) (cursor s).
Definition set_highlightHelper v (s : t) : t :=
  mk (selectedObject s) v (isDragging s) (dragOffset s) (dragStartPosition s)
     (originalMaterials s) (cursor s).
Definition set_originalMaterials v (s : t) : t :=
  mk (selectedObject s) (highlightHelper s) (isDragging s) (dragOffset s)
     (dragStartPosition s) v (cursor s).
Definition set_drag (dragging : bool) (offset start : Vector3) (c : string) (s : t) : t :=
  mk (selectedObject s) (highlightHelper s) dragging offset start
     (originalMaterials s) c.
End Sel.

Definition with_selection (f : SelectionSystem.t -> SelectionSystem.t) (a : App.t) : App.t :=
  App.set_selection (f (App.selection a)) a.

Definition _removeHighlight (a : App.t) : App.t :=
  with_selection (Sel.set_highlightHelper None) a.

Definition _createHighlight (object : nat) (a : App.t) : App.t :=
  with_selection (Sel.set_highlightHelper (Some object)) (_removeHighlight a).

(** The callback of [_applyHighlightMaterial] on one node. *)
Definition highlight_child
    (st : gmap string SavedEmissive.t * gmap nat Material.t) (child : Node.t)
  : gmap string SavedEmissive.t * gmap nat Material.t :=
  let '(originalMaterials, ms) := st in
  match mesh_material ms child with
  | None => st
  | Some (r, m) =>
      let originalMaterials :=
        match originalMaterials !! Node.uuid child with
        | Some _ => originalMaterials
        | None =>
            <[Node.uuid child :=
                SavedEmissive.mk (Material.emissive m) (Material.emissiveIntensity m)]>
              originalMaterials
        end in
      match Material.emissive m with
      | Some _ =>
          (originalMaterials,
           <[r := Material.set_emissiveIntensity (Some 0.5)
                    (Material.set_emissive (Some selectedEmissive) m)]> ms)
      | None => (originalMaterials, ms)
      end
  end.

Definition _applyHighlightMaterial (object : nat) (a : App.t) : App.t :=
  match App.objects a !! object with
  | None => a
  | Some o =>
      let '(originalMaterials, ms) :=
        foldl highlight_child
          (SelectionSystem.originalMaterials (App.selection a), App.materials a)
          (Object3D.nodes o) in
      with_selection (Sel.set_originalMaterials originalMaterials)
        (App.set_materials ms a)
  end.

(** The callback of [_restoreOriginalMaterials] on one node. *)
Definition restore_child (originalMaterials : gmap string SavedEmissive.t)
    (ms : gmap nat Material.t) (child : Node.t) : gmap nat Material.t :=
  match mesh_material ms child with
  | None => ms
  | Some (r, m) =>
      match originalMaterials !! Node.uuid child with
      | None => ms
      | Some original =>
          match Material.emissive m, SavedEmissive.emissive original with
          | Some _, Some e =>
              <[r := Material.set_emissiveIntensity
                       (Some (or_zero (SavedEmissive.emissiveIntensity original)))
                       (Material.set_emissive (Some e) m)]> ms
          | _, _ => ms
          end
      end
  end.

Definition _restoreOriginalMaterials (object : nat) (a : App.t) : App.t :=
  let a :=
    match App.objects a !! object with
    | None => a
    | Some o =>
        App.set_materials
          (foldl (restore_child (SelectionSystem.originalMaterials (App.selection a)))
             (App.materials a) (Object3D.nodes o)) a
    end in
  with_selection (Sel.set_originalMaterials ∅) a.

(** The common part of deselecting: highlight off, emissive restored, flag
    cleared. *)
Definition unhighlight (selected : nat) (a : App.t) : App.t :=
  update_object selected (set_flag false)
    (_restoreOriginalMaterials selected (_removeHighlight a)).

(** [_updateSelection], the subscriber of ['selectedObject']. *)
Definition _updateSelection (obj : option nat) (a : App.t) : App.t :=
  if decide (obj = SelectionSystem.selectedObject (App.selection a)) then a
  else
    match obj with
    | Some o =>
        let a :=
          match SelectionSystem.selectedObject (App.selection a) with
          | Some selected => unhighlight selected a
          | None => a
          end in
        let a := with_selection (Sel.set_selectedObject (Some o)) a in
        let a := update_object o (set_flag true) a in
        _applyHighlightMaterial o (_createHighlight o a)
    | None =>
        match SelectionSystem.selectedObject (App.selection a) with
        | Some selected =>
            with_selection (Sel.set_selectedObject None) (unhighlight selected a)
        | None => a
        end
    end.

(** [AppState.set('selectedObject', value)]: the store is written, then the
    subscribers run in subscription order: the properties panel, then the
    selection system. *)
Definition AppState_set_selectedObject (value : option nat) (a : App.t) : App.t :=
  let s := App.appState a in
  let a :=
    App.set_appState
      (AppState.mk value (AppState.activeFurnitureType s)
         (AppState.placedObjects s) (AppState.isLoading s)) a in
  let a :=
    App.set_panel
      (PropertiesPanel.mk value (PropertiesPanel.originalColors (App.panel a))) a in
  _updateSelection value a.

Definition deselect (a : App.t) : App.t :=
  match SelectionSystem.selectedObject (App.selection a) with
  | None => a
  | Some selected =>
      AppState_set_selectedObject None
        (with_selection (Sel.set_selectedObject None) (unhighlight selected a))
  end.

Definition select (object : nat) (a : App.t) : App.t :=
  let a :=
    match SelectionSystem.selectedObject (App.selection a) with
    | Some selected => if decide (selected = object) then a else deselect a
    | None => a
    end in
  let a := with_selection (Sel.set_selectedObject (Some object)) a in
  let a := update_object object (set_flag true) a in
  let a := _applyHighlightMaterial object (_createHighlight object a) in
  AppState_set_selectedObject (Some object) a.

Definition selected_object (a : App.t) : option Object3D.t :=
  SelectionSystem.selectedObject (App.selection a) ≫= fun r => App.objects a !! r.

(** [_startDrag]: only called on the selected object. *)
Definition _startDrag (intersectPoint : Vector3) (a : App.t) : App.t :=
  match selected_object a with
  | None => a
  | Some o =>
      let offset := Vector3_sub intersectPoint (Object3D.position o) in
      with_selection
        (Sel.set_drag true (Vector3_set_y 0 offset) (Object3D.position o) "grabbing") a
  end.

Definition _endDrag (a : App.t) : App.t :=
  let s := App.selection a in
  with_selection
    (Sel.set_drag false (SelectionSystem.dragOffset s)
       (SelectionSystem.dragStartPosition s) "auto") a.

Definition _constrainToRoom (position : Vector3) (a : App.t) : Vector3 :=
  let margin := 0.3 in
  let halfWidth := (ROOM_CONFIG.width / 2) - margin in
  let halfDepth := (ROOM_CONFIG.depth / 2) - margin in
  let '(objectHalfWidth, objectHalfDepth) :=
    match selected_object a with
    | Some o =>
        let size := Box3_getSize (Box3_setFromObject o) in
        (vx size / 2, vz size / 2)
    | None => (0, 0)
    end in
  mkVector3
    (Qmax (- halfWidth + objectHalfWidth) (Qmin (halfWidth - objectHalfWidth) (vx position)))
    (vy position)
    (Qmax (- halfDepth + objectHalfDepth) (Qmin (halfDepth - objectHalfDepth) (vz position))).

Module MouseEvent.
(** A pointer event with what the ray casts of its handler find:
    [hit] is the nearest furniture mesh under the pointer, as the root that
    [_getFurnitureRoot] resolves it to and the point hit; [floor] is where
    the pointer ray meets the drag plane. *)
Record t := mk {
  button : Z;
  onUI : bool;
  hit : option (option nat * Vector3);
  floor : option Vector3
}.
End MouseEvent.

Definition _onMouseDown (event : MouseEvent.t) (a : App.t) : App.t :=
  if negb (Z.eqb (MouseEvent.button event) 0) then a
  else if MouseEvent.onUI event then a
  else
    match MouseEvent.hit event with
    | Some (Some furniture, point) =>
        if decide (Some furniture = SelectionSystem.selectedObject (App.selection a))
        then _startDrag point a
        else select furniture a
    | Some (None, _) => a
    | None =>
        if SelectionSystem.isDragging (App.selection a) then a else deselect a
    end.

Definition _onMouseMove (event : MouseEvent.t) (a : App.t) : App.t :=
  if negb (SelectionSystem.isDragging (App.selection a)) then a
  else
    match SelectionSystem.selectedObject (App.selection a) with
    | None => a
    | Some selected =>
        match MouseEvent.floor event with
        | None => a
        | Some intersectPoint =>
            let newPosition :=
              Vector3_sub intersectPoint (SelectionSystem.dragOffset (App.selection a)) in
            let constrainedPos := _constrainToRoom newPosition a in
            update_object selected
              (fun o =>
                 Object3D.set_position
                   (mkVector3 (vx constrainedPos) (vy (Object3D.position o))
                      (vz constrainedPos)) o) a
        end
    end.

Definition _onMouseUp (a : App.t) : App.t :=
  if SelectionSystem.isDragging (App.selection a) then _endDrag a else a.

Definition remove_ref (r : nat) (l : list nat) : list nat :=
  match list_find (fun k => k = r) l with
  | Some (i, _) => take i l ++ drop (S i) l
  | None => l
  end.

(** [AppState.removePlacedObject] *)
Definition AppState_removePlacedObject (r : nat) (a : App.t) : App.t :=
  let s := App.appState a in
  App.set_appState
    (AppState.mk (AppState.selectedObject s) (AppState.activeFurnitureType s)
       (remove_ref r (AppState.placedObjects s)) (AppState.isLoading s)) a.

Definition _deleteSelected (a : App.t) : App.t :=
  match SelectionSystem.selectedObject (App.selection a) with
  | None => a
  | Some objectToDelete =>
      let a := deselect a in
      match App.container a with
      | None => a
      | Some children =>
          AppState_removePlacedObject objectToDelete
            (App.set_container (Some (remove_ref objectToDelete children)) a)
      end
  end.

Inductive Key := KeyDelete | KeyBackspace | KeyEscape | KeyR | KeyOther.

(** [_onKeyDown]; [quarter] stands for [Math.PI / 4]. *)
Definition _onKeyDown (quarter : Q) (key : Key) (a : App.t) : App.t :=
  match SelectionSystem.selectedObject (App.selection a) with
  | None => a
  | Some selected =>
      match key with
      | KeyDelete | KeyBackspace => _deleteSelected a
      | KeyEscape => deselect a
      | KeyR =>
          update_object selected
            (fun o =>
               let r := Object3D.rotation o in
               Object3D.set_rotation (mkVector3 (vx r) (vy r + quarter) (vz r)) o) a
      | KeyOther => a
      end
  end.

(** The pointer and selection operations a user can issue. *)
Inductive Gesture :=
| MouseDown (event : MouseEvent.t)
| MouseMove (event : MouseEvent.t)
| MouseUp
| KeyDown (key : Key)
| CallSelect (object : nat)
| CallDeselect.

Definition gesture (quarter : Q) (g : Gesture) (a : App.t) : App.t :=
  match g with
  | MouseDown e => _onMouseDown e a
  | MouseMove e => _onMouseMove e a
  | MouseUp => _onMouseUp a
  | KeyDown k => _onKeyDown quarter k a
  | CallSelect r => select r a
  | CallDeselect => deselect a
  end.

Definition gestures (quarter : Q) (gs : list Gesture) (a : App.t) : App.t :=
  foldl (fun a g => gesture quarter g a) a gs.

(** ** PropertiesPanel.js *)

Definition panel_object (a : App.t) : option (nat * Object3D.t) :=
  r ← PropertiesPanel.selectedObject (App.panel a);
  o ← App.objects a !! r;
  Some (r, o).

(** A traversal whose callback may give the node another material object. *)
Fixpoint traverse_update
    (f : gmap nat Material.t -> Node.t -> gmap nat Material.t * Node.t)
    (ms : gmap nat Material.t) (children : list Node.t)
  : gmap nat Material.t * list Node.t :=
  match children with
  | [] => (ms, [])
  | child :: rest =>
      let '(ms1, child') := f ms child in
      let '(ms2, rest') := traverse_update f ms1 rest in
      (ms2, child' :: rest')
  end.

(** Running such a traversal on a scene object of the application. *)
Definition traverse_object
    (f : gmap nat Material.t -> Node.t -> gmap nat Material.t * Node.t)
    (r : nat) (o : Object3D.t) (a : App.t) : App.t :=
  let '(ms, ns) := traverse_update f (App.materials a) (Object3D.nodes o) in
  App.set_objects (<[r := Object3D.set_nodes ns o]> (App.objects a))
    (App.set_materials ms a).

Definition snapshot_child (ms : gmap nat Material.t) (child : Node.t)
  : option Snapshot.t :=
  '(_, m) ← mesh_material ms child;
  Some (Snapshot.mk (Node.uuid child) (Material.color m) (Material.metalness m)
          (Material.roughness m) (Some (Material.opacity m))).

Definition _storeOriginalColors (a : App.t) : App.t :=
  match panel_object a with
  | None => a
  | Some (_, o) =>
      let objId := Object3D.uuid o in
      let originalColors := PropertiesPanel.originalColors (App.panel a) in
      match originalColors !! objId with
      | Some _ => a
      | None =>
          let colors := omap (snapshot_child (App.materials a)) (Object3D.nodes o) in
          App.set_panel
            (PropertiesPanel.mk (PropertiesPanel.selectedObject (App.panel a))
               (<[objId := colors]> originalColors)) a
      end
  end.

(** "Clone material if shared": the node and the material object that the
    callback goes on to write. *)
Definition clone_if_shared (ms : gmap nat Material.t) (child : Node.t)
    (r : nat) (m : Material.t)
  : gmap nat Material.t * Node.t * nat * Material.t :=
  if Material._isCloned m then (ms, child, r, m)
  else
    let m' := Material.set_isCloned true m in
    let '(r', ms') := alloc_material m' ms in
    (ms', Node.set_material (Some r') child, r', m').

Definition applyColor_child (color : Color) (ms : gmap nat Material.t) (child : Node.t)
  : gmap nat Material.t * Node.t :=
  match mesh_material ms child with
  | None => (ms, child)
  | Some (r, m) =>
      let '(ms, child, r, m) := clone_if_shared ms child r m in
      match Material.color m with
      | Some _ => (<[r := Material.set_color (Some color) m]> ms, child)
      | None => (ms, child)
      end
  end.

Definition _applyColor (hexColor : Color) (a : App.t) : App.t :=
  match panel_object a with
  | None => a
  | Some (r, o) =>
      traverse_object (applyColor_child hexColor) r o (_storeOriginalColors a)
  end.

(** The table [settings] of [_applyMaterial], with its fallback to
    [settings.standard]. *)
Definition preset_settings (preset : string) : Q * Q :=
  if String.eqb preset "glossy" then (0.3, 0.2)
  else if String.eqb preset "matte" then (0, 1)
  else if String.eqb preset "metallic" then (0.9, 0.3)
  else (0.1, 0.8).

Definition applyMaterial_child (metalness roughness : Q)
    (ms : gmap nat Material.t) (child : Node.t) : gmap nat Material.t * Node.t :=
  match mesh_material ms child with
  | None => (ms, child)
  | Some (r, m) =>
      let '(ms, child, r, m) := clone_if_shared ms child r m in
      let m :=
        match Material.metalness m with
        | Some _ => Material.set_metalness (Some metalness) m
        | None => m
        end in
      let m :=
        match Material.roughness m with
        | Some _ => Material.set_roughness (Some roughness) m
        | None => m
        end in
      (<[r := m]> ms, child)
  end.

Definition _applyMaterial (preset : string) (a : App.t) : App.t :=
  match panel_object a with
  | None => a
  | Some (r, o) =>
      let '(metalness, roughness) := preset_settings preset in
      traverse_object (applyMaterial_child metalness roughness) r o
        (_storeOriginalColors a)
  end.

Definition applyOpacity_child (opacity : Q)
    (ms : gmap nat Material.t) (child : Node.t) : gmap nat Material.t * Node.t :=
  match mesh_material ms child with
  | None => (ms, child)
  | Some (r, m) =>
      let '(ms, child, r, m) := clone_if_shared ms child r m in
      (<[r := Material.set_opacity opacity
                (Material.set_transparent (Qltb opacity 1) m)]> ms, child)
  end.

Definition _applyOpacity (opacity : Q) (a : App.t) : App.t :=
  match panel_object a with
  | None => a
  | Some (r, o) => traverse_object (applyOpacity_child opacity) r o a
  end.

(** What [_resetColor] writes on a material from its snapshot entry. *)
Definition restore_snapshot (orig : Snapshot.t) (m : Material.t) : Material.t :=
  let m :=
    match Snapshot.color orig, Material.color m with
    | Some c, Some _ => Material.set_color (Some c) m
    | _, _ => m
    end in
  let m :=
    match Snapshot.metalness orig with
    | Some v => Material.set_metalness (Some v) m
    | None => m
    end in
  let m :=
    match Snapshot.roughness orig with
    | Some v => Material.set_roughness (Some v) m
    | None => m
    end in
  match Snapshot.opacity orig with
  | Some v => Material.set_transparent (Qltb v 1) (Material.set_opacity v m)
  | None => m
  end.

Definition find_snapshot (originalData : list Snapshot.t) (uuid : string)
  : option Snapshot.t :=
  snd <$> list_find (fun o => Snapshot.uuid o = uuid) originalData.

Definition resetColor_child (originalData : list Snapshot.t)
    (ms : gmap nat Material.t) (child : Node.t) : gmap nat Material.t :=
  match mesh_material ms child with
  | None => ms
  | Some (r, m) =>
      match find_snapshot originalData (Node.uuid child) with
      | Some orig => <[r := restore_snapshot orig m]> ms
      | None => ms
      end
  end.

Definition _resetColor (a : App.t) : App.t :=
  match panel_object a with
  | None => a
  | Some (_, o) =>
      match PropertiesPanel.originalColors (App.panel a) !! Object3D.uuid o with
      | None => a
      | Some originalData =>
          App.set_materials
            (foldl (resetColor_child originalData) (App.materials a)
               (Object3D.nodes o)) a
      end
  end.

(** [_duplicateObject]; [uuid i] is the fresh identifier of the [i]-th node
    of the clone, which shares the materials of the original. *)
Definition _duplicateObject (uuid : nat -> string) (a : App.t) : App.t :=
  match panel_object a with
  | None => a
  | Some (r, o) =>
      let nodes :=
        imap (fun i n => Node.mk (Node.name n) (uuid i) (Node.isMesh n) (Node.material n))
          (Object3D.nodes o) in
      let clone := Object3D.set_nodes nodes o in
      let p := Object3D.position clone in
      let clone :=
        Object3D.set_position (mkVector3 (vx p + 0.5) (vy p) (vz p + 0.5)) clone in
      let clone := Object3D.set_name (Object3D.name o +:+ "_copy") clone in
      let clone :=
        Object3D.set_userData
          (UserData.set_name (Object3D.name clone) (Object3D.userData o)) clone in
      match App.container a with
      | Some children =>
          if bool_decide (r ∈ children) then
            let '(c, a) := App.new_object clone a in
            AppState_set_selectedObject (Some c)
              (AppState_addPlacedObject c (container_add c a))
          else a
      | None => a
      end
  end.

(** ** StorageManager.js *)

Definition STORAGE_KEY : string := "3d-home-design-layout".

(** The callback of [_serializeMaterialMods] on one node. *)
Definition serialize_child (ms : gmap nat Material.t) (child : Node.t)
  : option MaterialMod.t :=
  '(_, m) ← mesh_material ms child;
  if Material._isCloned m then
    Some (MaterialMod.mk
            (if truthy_string (Node.name child) then Node.name child else Node.uuid child)
            (Material.color m) (Material.metalness m) (Material.roughness m)
            (Some (Material.opacity m)))
  else None.

Definition _serializeMaterialMods (ms : gmap nat Material.t) (obj : Object3D.t)
  : option (list MaterialMod.t) :=
  match omap (serialize_child ms) (Object3D.nodes obj) with
  | [] => None
  | mods => Some mods
  end.

Definition _serializeObject (ms : gmap nat Material.t) (obj : Object3D.t) : ObjData.t :=
  let ud := Object3D.userData obj in
  let furnitureData := default FurnitureData.empty (UserData.furnitureData ud) in
  ObjData.mk
    (Object3D.name obj)
    (Some (or_default
             (or_string (UserData.furnitureType ud) (FurnitureData.name furnitureData))
             "unknown"))
    (Some (or_default
             (or_string (UserData.furniturePath ud) (FurnitureData.path furnitureData))
             ""))
    (Some (default 0%Z
             (or_int (UserData.furnitureId ud) (FurnitureData.id furnitureData))))
    (Some furnitureData)
    (Object3D.position obj)
    (Object3D.rotation obj)
    (Object3D.scale obj)
    (_serializeMaterialMods ms obj).

(** [_createFallbackPrimitive(type)]: a grey box, whatever the type. *)
Definition _createFallbackPrimitive (type : option string) : Primitive :=
  SingleMesh (BoxGeometry 1 0.5 1) (Material.MeshStandardMaterial (Hex 0x888888) 1 0).

(** The model path that [_deserializeObject] resolves. *)
Definition modelPath_of (objData : ObjData.t) : option string :=
  or_string (ObjData.furniturePath objData)
    (ObjData.furnitureData objData ≫= FurnitureData.path).

Definition find_mod (mods : list MaterialMod.t) (child : Node.t) : option MaterialMod.t :=
  snd <$> list_find
    (fun m => MaterialMod.childName m = Node.name child ∨
              MaterialMod.childName m = Node.uuid child) mods.

(** What [_applyMaterialMods] writes on the clone of a material. *)
Definition apply_mod (md : MaterialMod.t) (m : Material.t) : Material.t :=
  let m := Material.set_isCloned true m in
  let m :=
    match MaterialMod.color md, Material.color m with
    | Some c, Some _ => Material.set_color (Some c) m
    | _, _ => m
    end in
  let m :=
    match MaterialMod.metalness md with
    | Some v => Material.set_metalness (Some v) m
    | None => m
    end in
  let m :=
    match MaterialMod.roughness md with
    | Some v => Material.set_roughness (Some v) m
    | None => m
    end in
  match MaterialMod.opacity md with
  | Some v => Material.set_transparent (Qltb v 1) (Material.set_opacity v m)
  | None => m
  end.

Definition applyMaterialMods_child (mods : list MaterialMod.t)
    (ms : gmap nat Material.t) (child : Node.t) : gmap nat Material.t * Node.t :=
  match mesh_material ms child with
  | None => (ms, child)
  | Some (_, m) =>
      match find_mod mods child with
      | None => (ms, child)
      | Some md =>
          let '(r', ms') := alloc_material (apply_mod md m) ms in
          (ms', Node.set_material (Some r') child)
      end
  end.

Definition _applyMaterialMods (mods : list MaterialMod.t)
    (ms : gmap nat Material.t) (obj : Object3D.t)
  : gmap nat Material.t * Object3D.t :=
  let '(ms', ns) := traverse_update (applyMaterialMods_child mods) ms (Object3D.nodes obj) in
  (ms', Object3D.set_nodes ns obj).

Section Persistence.
Variable load : string -> option Asset.t.

(** The object that [_deserializeObject] starts from: the loaded asset,
    or the grey box when there is no path or the loader rejects. *)
Definition deserialize_model (uuid : nat -> string) (objData : ObjData.t) : Asset.t :=
  let modelPath := modelPath_of objData in
  let loaded :=
    match modelPath with
    | Some p => if truthy_string p then load p else None
    | None => None
    end in
  match loaded with
  | Some asset => asset
  | None => Primitive_asset uuid (_createFallbackPrimitive (ObjData.furnitureType objData))
  end.

(** [_deserializeObject]: the reference of the restored object, or [None]
    when the scene has no furniture container. *)
Definition _deserializeObject (uuid : nat -> string) (stamp : Stamp.t)
    (objData : ObjData.t) (a : App.t) : option nat * App.t :=
  match App.container a with
  | None => (None, a)
  | Some _ =>
      let modelPath := modelPath_of objData in
      let '(furniture, ms) :=
        instantiate (deserialize_model uuid objData) (App.materials a) in
      let furniture := Object3D.set_name (ObjData.name objData) furniture in
      let furniture :=
        Object3D.set_userData
          (UserData.mk (Some (Stamp.value stamp)) (Some (ObjData.name objData))
             (ObjData.furnitureType objData) modelPath (ObjData.furnitureId objData)
             (Some (default
                      (FurnitureData.mk (ObjData.furnitureType objData) modelPath
                         (ObjData.furnitureId objData))
                      (ObjData.furnitureData objData)))
             None) furniture in
      let furniture := Object3D.set_position (ObjData.position objData) furniture in
      let furniture := Object3D.set_rotation (ObjData.rotation objData) furniture in
      let furniture := Object3D.set_scale (ObjData.scale objData) furniture in
      let '(ms, furniture) :=
        match ObjData.materialMods objData with
        | Some mods => _applyMaterialMods mods ms furniture
        | None => (ms, furniture)
        end in
      let '(r, a) := App.new_object furniture (App.set_materials ms a) in
      (Some r, AppState_addPlacedObject r (container_add r a))
  end.

(** [AppState.clearPlacedObjects] *)
Definition AppState_clearPlacedObjects (a : App.t) : App.t :=
  let s := App.appState a in
  let a :=
    App.set_appState
      (AppState.mk None (AppState.activeFurnitureType s) [] (AppState.isLoading s)) a in
  let a :=
    App.set_panel
      (PropertiesPanel.mk None (PropertiesPanel.originalColors (App.panel a))) a in
  _updateSelection None a.

Definition _clearCurrentObjects (a : App.t) : App.t :=
  match App.container a with
  | None => a
  | Some _ =>
      let a := AppState_set_selectedObject None a in
      AppState_clearPlacedObjects (App.set_container (Some []) a)
  end.

(** The loop of [loadLayout] over the stored items; item [i] draws its
    identifiers from [uuid i] and [stamp i]. *)
Fixpoint deserialize_all (uuid : nat -> nat -> string) (stamp : nat -> Stamp.t)
    (i : nat) (objects : list ObjData.t) (a : App.t) : list (option nat) * App.t :=
  match objects with
  | [] => ([], a)
  | objData :: rest =>
      let '(r, a) := _deserializeObject (uuid i) (stamp i) objData a in
      let '(rs, a) := deserialize_all uuid stamp (S i) rest a in
      (r :: rs, a)
  end.

Definition loadLayout (uuid : nat -> nat -> string) (stamp : nat -> Stamp.t)
    (a : App.t) : bool * App.t :=
  match Storage.items (App.localStorage a) !! STORAGE_KEY with
  | None => (false, a)
  | Some (Garbage _) => (false, a)
  | Some (Doc layoutData) =>
      match LayoutData.objects layoutData with
      | None | Some [] => (false, a)
      | Some objects =>
          (true, snd (deserialize_all uuid stamp 0 objects (_clearCurrentObjects a)))
      end
  end.
End Persistence.

(** [localStorage.setItem]; [None] when it throws. *)
Definition Storage_setItem (key : string) (value : Stored) (ls : Storage.t)
  : option Storage.t :=
  if Storage.writable ls
  then Some (Storage.mk (<[key := value]> (Storage.items ls)) true)
  else None.

(** The objects that [placedObjects.map(obj => this._serializeObject(obj))]
    walks. *)
Definition placed_objects (a : App.t) : list Object3D.t :=
  omap (fun r => App.objects a !! r) (AppState.placedObjects (App.appState a)).

(** [serializeAll]: the items of the document that [saveLayout] writes. *)
Definition serialize_all (ms : gmap nat Material.t) (objs : list Object3D.t)
  : list ObjData.t :=
  _serializeObject ms <$> objs.

(** [saveLayout]; [now] is [Date.now()]. *)
Definition saveLayout (now : Q) (a : App.t) : bool * App.t :=
  match AppState.placedObjects (App.appState a) with
  | [] => (false, a)
  | _ =>
      let layoutData :=
        LayoutData.mk "1.0" now
          (Some (serialize_all (App.materials a) (placed_objects a))) in
      match Storage_setItem STORAGE_KEY (Doc layoutData) (App.localStorage a) with
      | Some ls => (true, App.set_localStorage ls a)
      | None => (false, a)
      end
  end.

Definition clearSavedLayout (a : App.t) : App.t :=
  let ls := App.localStorage a in
  App.set_localStorage
    (Storage.mk (delete STORAGE_KEY (Storage.items ls)) (Storage.writable ls)) a.

(** ** Vocabulary of the statements *)

(** The path resolution as the specification words it: the nested catalog
    linkage first, the legacy top-level field only when the nested one is
    absent. *)
Definition modelPath_nested_first (objData : ObjData.t) : option string :=
  match ObjData.furnitureData objData ≫= FurnitureData.path with
  | Some p => Some p
  | None => ObjData.furniturePath objData
  end.

(** Half the current world-space footprint of an object. *)
Definition objHalfWidth (o : Object3D.t) : Q :=
  vx (Box3_getSize (Box3_setFromObject o)) / 2.
Definition objHalfDepth (o : Object3D.t) : Q :=
  vz (Box3_getSize (Box3_setFromObject o)) / 2.

(** The bounds invariant of the specification, with the margin 0.3 of the
    drag clamp. *)
Definition within_room (o : Object3D.t) : Prop :=
  Qabs (vx (Object3D.position o)) <= ROOM_CONFIG.width / 2 - 0.3 - objHalfWidth o /\
  Qabs (vz (Object3D.position o)) <= ROOM_CONFIG.depth / 2 - 0.3 - objHalfDepth o.

(** The footprint of the object fits between the margins of the room. *)
Definition fits_in_room (o : Object3D.t) : Prop :=
  objHalfWidth o <= ROOM_CONFIG.width / 2 - 0.3 /\
  objHalfDepth o <= ROOM_CONFIG.depth / 2 - 0.3.

(** [written] is the candidate [c] brought into [lo, hi]. *)
Definition clamped (lo hi c written : Q) : Prop :=
  (hi <= c -> written == hi) /\
  (c <= lo -> written == lo) /\
  (lo <= c <= hi -> written == c).

(** ** Concrete scenes *)

(** A flat slab [w] wide and 2 deep, whatever its rotation and scale. *)
Definition slab (w : Q) : Object3D.t :=
  Object3D.mk (Node.mk "Slab" "uuid-slab" true None) [] UserData_empty
    Vector3_zero Vector3_zero Vector3_one
    (fun _ _ => Box (mkVector3 (- (w / 2)) 0 (-1)) (mkVector3 (w / 2) (1 # 10) 1)).

Definition no_storage : Storage.t := Storage.mk ∅ true.

(** A scene holding the single object [o], under reference 0. *)
Definition scene_of (o : Object3D.t) : App.t :=
  let '(r, a) := App.new_object o (App.initial no_storage) in
  AppState_addPlacedObject r (container_add r a).

Definition click_on (r : nat) (point : Vector3) : MouseEvent.t :=
  MouseEvent.mk 0 false (Some (Some r, point)) (Some point).

Definition pointer_at (point : Vector3) : MouseEvent.t :=
  MouseEvent.mk 0 false None (Some point).

(** The object of [scene_of] picked, then grabbed at its origin. *)
Definition grabbed (o : Object3D.t) : App.t :=
  gestures 0 [MouseDown (click_on 0 Vector3_zero); MouseDown (click_on 0 Vector3_zero)]
    (scene_of o).

(** A stored document of one item, with both path fields set, to different
    assets. *)
Definition both_paths : ObjData.t :=
  ObjData.mk "Furniture_Chair_1" (Some "Chair") (Some "legacy/chair01")
    (Some 12%Z) (Some (FurnitureData.mk (Some "Chair") (Some "catalog/chair01") (Some 12%Z)))
    (mkVector3 1 0 2) Vector3_zero Vector3_one None.

Definition saved_storage : Storage.t :=
  Storage.mk {[ STORAGE_KEY := Doc (LayoutData.mk "1.0" 1700000000 (Some [both_paths])) ]} true.

(** Catalog entries of the default catalog of [AppState.loadFurnitureData]. *)
Definition couch_entry : FurnitureData.t :=
  FurnitureData.mk (Some "Couch") (Some "couch01") (Some 16%Z).
Definition table_entry : FurnitureData.t :=
  FurnitureData.mk (Some "Table") (Some "table01") (Some 31%Z).
Definition chair_entry : FurnitureData.t :=
  FurnitureData.mk (Some "Chair") (Some "chair01") (Some 12%Z).

(** A loader that rejects every path: no asset is available. *)
Definition no_assets : string -> option Asset.t := fun _ => None.

(** Identifiers ["uuid-k-i"] for the [i]-th node of the [k]-th object. *)
Definition digit (n : nat) : string :=
  String (ascii_of_nat (48 + n mod 10)) EmptyString.
Definition uuids (k i : nat) : string := "uuid-" +:+ digit k +:+ "-" +:+ digit i.

Definition stamp_of (k : nat) : Stamp.t :=
  Stamp.mk (1700000000 + inject_Z (Z.of_nat k)) ("170000000" +:+ digit k).

(** The lowest point of a box, when the box is not empty. *)
Definition lowest_point (b : Box3) : option Q :=
  match b with
  | EmptyBox => None
  | Box mn _ => Some (vy mn)
  end.

(** The selection flag of the item under reference [r] is set. *)
Definition flagged (objects : gmap nat Object3D.t) (r : nat) : Prop :=
  exists o, objects !! r = Some o /\
            UserData.isSelected (Object3D.userData o) = Some true.

(** Every flagged item is the selected one: at most one item is flagged. *)
Definition single_selection (a : App.t) : Prop :=
  forall r, flagged (App.objects a) r ->
            SelectionSystem.selectedObject (App.selection a) = Some r.

(** The emissive colour and intensity on the material of the [i]-th node of
    the object under reference [r]. *)
Definition node_emissive (a : App.t) (r i : nat) : option (option Color * option Q) :=
  o ← App.objects a !! r;
  n ← Object3D.nodes o !! i;
  '(_, m) ← mesh_material (App.materials a) n;
  Some (Material.emissive m, Material.emissiveIntensity m).

Definition item_flag (a : App.t) (r : nat) : option bool :=
  o ← App.objects a !! r; UserData.isSelected (Object3D.userData o).

(** The chair and the table of the catalog placed with no asset at hand:
    both are procedural shapes. The chair has reference 0, the table 1. *)
Definition two_items : App.t :=
  snd (_placeFurniture no_assets (uuids 1) (stamp_of 1) table_entry (mkVector3 (-2) 0 0)
         (snd (_placeFurniture no_assets (uuids 0) (stamp_of 0) chair_entry
                 (mkVector3 2 0 0) (App.initial no_storage)))).

(** The material reference a traversal callback looks at. *)
Definition node_ref (child : Node.t) : option nat :=
  if Node.isMesh child then Node.material child else None.

(** Two restores in a row are one restore from the merged entry. *)
Definition merge_snapshot (later earlier : Snapshot.t) : Snapshot.t :=
  Snapshot.mk (Snapshot.uuid later)
    (match Snapshot.color later with Some c => Some c | None => Snapshot.color earlier end)
    (match Snapshot.metalness later with Some v => Some v | None => Snapshot.metalness earlier end)
    (match Snapshot.roughness later with Some v => Some v | None => Snapshot.roughness earlier end)
    (match Snapshot.opacity later with Some v => Some v | None => Snapshot.opacity earlier end).

Definition no_snapshot : Snapshot.t := Snapshot.mk "" None None None None.

(** The entry that the steps of a reset over [children] amount to at the
    material [r], on top of [acc]. *)
Fixpoint merged_at (originalData : list Snapshot.t) (r : nat)
    (children : list Node.t) (acc : Snapshot.t) : Snapshot.t :=
  match children with
  | [] => acc
  | child :: rest =>
      merged_at originalData r rest
        match node_ref child, find_snapshot originalData (Node.uuid child) with
        | Some r', Some orig => if decide (r' = r) then merge_snapshot orig acc else acc
        | _, _ => acc
        end
  end.

(** The four channels of a material that the properties panel edits. *)
Definition appearance (m : Material.t) : option Color * option Q * option Q * Q :=
  (Material.color m, Material.metalness m, Material.roughness m, Material.opacity m).

Definition node_appearance (ms : gmap nat Material.t) (n : Node.t)
  : option (option Color * option Q * option Q * Q) :=
  (fun rm => appearance (snd rm)) <$> mesh_material ms n.

(** The appearance of every node of the item under reference [r]. *)
Definition item_appearance (a : App.t) (r : nat)
  : option (list (option (option Color * option Q * option Q * Q))) :=
  o ← App.objects a !! r;
  Some (node_appearance (App.materials a) <$> Object3D.nodes o).

(** The edits of the properties panel. *)
Inductive Mutation :=
| SetColor (hexColor : Color)
| SetMaterial (preset : string)
| SetOpacity (opacity : Q).

Definition mutate (a : App.t) (m : Mutation) : App.t :=
  match m with
  | SetColor c => _applyColor c a
  | SetMaterial preset => _applyMaterial preset a
  | SetOpacity q => _applyOpacity q a
  end.

(** The edits that call [_storeOriginalColors] first. *)
Definition takes_snapshot (m : Mutation) : bool :=
  match m with
  | SetOpacity _ => false
  | _ => true
  end.

(** An item as three.js and the application keep it: its nodes have
    distinct identifiers, the materials of its meshes exist, and a material
    that two of its meshes share does not carry the clone flag yet. *)
Definition item_well_formed (ms : gmap nat Material.t) (ns : list Node.t) : Prop :=
  NoDup (Node.uuid <$> ns) /\
  (forall n r, n ∈ ns -> node_ref n = Some r -> is_Some (ms !! r)) /\
  (forall i j n1 n2 r m,
     i <> j -> ns !! i = Some n1 -> ns !! j = Some n2 ->
     node_ref n1 = Some r -> node_ref n2 = Some r ->
     ms !! r = Some m -> Material._isCloned m = false).

(** The shape shared by the three edit callbacks: clone if shared, then
    write [w] on the material. *)
Definition mutate_child (w : Material.t -> Material.t)
    (ms : gmap nat Material.t) (child : Node.t) : gmap nat Material.t * Node.t :=
  match mesh_material ms child with
  | None => (ms, child)
  | Some (r, m) =>
      let '(ms, child, r, m) := clone_if_shared ms child r m in
      (<[r := w m]> ms, child)
  end.

Definition write_color (c : Color) (m : Material.t) : Material.t :=
  match Material.color m with
  | Some _ => Material.set_color (Some c) m
  | None => m
  end.

Definition write_material (metalness roughness : Q) (m : Material.t) : Material.t :=
  let m :=
    match Material.metalness m with
    | Some _ => Material.set_metalness (Some metalness) m
    | None => m
    end in
  match Material.roughness m with
  | Some _ => Material.set_roughness (Some roughness) m
  | None => m
  end.

Definition write_opacity (opacity : Q) (m : Material.t) : Material.t :=
  Material.set_opacity opacity (Material.set_transparent (Qltb opacity 1) m).

(** [m] offers the channels that [m0] offers. *)
Definition same_channels (m0 m : Material.t) : Prop :=
  (is_Some (Material.color m0) <-> is_Some (Material.color m)) /\
  (Material.metalness m0 = None -> Material.metalness m = None) /\
  (Material.roughness m0 = None -> Material.roughness m = None).

(** The effect of one edit callback on a node. *)
Definition mutated (w : Material.t -> Material.t)
    (ms ms' : gmap nat Material.t) (n n' : Node.t) : Prop :=
  Node.name n' = Node.name n /\ Node.uuid n' = Node.uuid n /\
  Node.isMesh n' = Node.isMesh n /\
  match node_ref n with
  | None => n' = n
  | Some r =>
      exists r' m,
        ms !! r = Some m /\ node_ref n' = Some r' /\
        ms' !! r' = Some (w (Material.set_isCloned true m)) /\
        (r' = r \/ ms !! r' = None)
  end.

(** Node [n] is what node [n0] of the untouched item has become: a mesh
    with a flagged material that offers the channels of the original. *)
Definition tracks (ms0 ms : gmap nat Material.t) (n0 n : Node.t) : Prop :=
  Node.name n = Node.name n0 /\ Node.uuid n = Node.uuid n0 /\
  Node.isMesh n = Node.isMesh n0 /\
  match node_ref n0 with
  | None => n = n0
  | Some r0 =>
      exists r m0 m,
        ms0 !! r0 = Some m0 /\ node_ref n = Some r /\ ms !! r = Some m /\
        same_channels m0 m /\ Material._isCloned m = true
  end.

(** A writer keeps the clone flag and the channels a material offers. *)
Definition writer_ok (w : Material.t -> Material.t) : Prop :=
  forall m, same_channels m (w m) /\ Material._isCloned (w m) = Material._isCloned m.

(** The writer of an edit. *)
Definition writer_of (m : Mutation) : Material.t -> Material.t :=
  match m with
  | SetColor c => write_color c
  | SetMaterial preset =>
      write_material (fst (preset_settings preset)) (snd (preset_settings preset))
  | SetOpacity q => write_opacity q
  end.

(** The state of the panel and of the selected item [r] once the item has
    been edited: [ns0] and [ms0] are its nodes and the store before the
    first edit, [snap] the snapshot taken then. *)
Definition edited (ms0 : gmap nat Material.t) (ns0 : list Node.t) (r : nat)
    (u : string) (snap : list Snapshot.t) (a : App.t) : Prop :=
  PropertiesPanel.selectedObject (App.panel a) = Some r /\
  exists o,
    App.objects a !! r = Some o /\ Object3D.uuid o = u /\
    PropertiesPanel.originalColors (App.panel a) !! u = Some snap /\
    Forall2 (tracks ms0 (App.materials a)) ns0 (Object3D.nodes o) /\
    NoDup (omap node_ref (Object3D.nodes o)).

(** The material of a node when it carries the clone flag. *)
Definition private_ref (ms : gmap nat Material.t) (n : Node.t) : option nat :=
  r ← node_ref n; m ← ms !! r; if Material._isCloned m then Some r else None.

(** A test that an item is well formed. *)
Definition item_check (ms : gmap nat Material.t) (ns : list Node.t) : bool :=
  bool_decide (NoDup (Node.uuid <$> ns)) &&
  forallb (fun n => match node_ref n with
                    | Some r => match ms !! r with Some _ => true | None => false end
                    | None => true
                    end) ns &&
  bool_decide (NoDup (omap (private_ref ms) ns)).

(** An item that no edit has touched yet: none of the materials of its
    meshes carries the clone flag that every edit sets. *)
Definition pristine (ms : gmap nat Material.t) (ns : list Node.t) : Prop :=
  forall n r m, n ∈ ns -> mesh_material ms n = Some (r, m) ->
                Material._isCloned m = false.

(** The chair of [two_items], picked: the properties panel shows it. *)
Definition chair_picked : App.t :=
  _onMouseDown (click_on 0 (mkVector3 2 (1 # 2) 0)) two_items.

Definition red : Color := Hex 0xff0000.

Module Cell.
(** What a traversal callback sees of a node: its name, its identifier, and
    its material when the node is a mesh that has one. *)
Record t := mk {
  name : string;
  uuid : string;
  material : option Material.t
}.
End Cell.

Definition cell_of (ms : gmap nat Material.t) (n : Node.t) : Cell.t :=
  Cell.mk (Node.name n) (Node.uuid n) (snd <$> mesh_material ms n).

Definition object_cells (ms : gmap nat Material.t) (obj : Object3D.t) : list Cell.t :=
  cell_of ms <$> Object3D.nodes obj.

(** The material delta that serialization records for a cell. *)
Definition serialize_cell (c : Cell.t) : option MaterialMod.t :=
  m ← Cell.material c;
  if Material._isCloned m then
    Some (MaterialMod.mk
            (if truthy_string (Cell.name c) then Cell.name c else Cell.uuid c)
            (Material.color m) (Material.metalness m) (Material.roughness m)
            (Some (Material.opacity m)))
  else None.

(** The cells of an asset, read off its own table of materials. *)
Definition asset_cell (table : list Material.t) (n : Node.t) : Cell.t :=
  Cell.mk (Node.name n) (Node.uuid n)
    (if Node.isMesh n then Node.material n ≫= fun i => table !! i else None).

Definition asset_cells (asset : Asset.t) : list Cell.t :=
  asset_cell (Asset.materials asset) <$> Object3D.nodes (Asset.object asset).

Definition rename_root (s : string) (cs : list Cell.t) : list Cell.t :=
  match cs with
  | [] => []
  | c :: rest => Cell.mk s (Cell.uuid c) (Cell.material c) :: rest
  end.

Definition find_cell_mod (mods : list MaterialMod.t) (c : Cell.t) : option MaterialMod.t :=
  snd <$> list_find
    (fun m => MaterialMod.childName m = Cell.name c \/
              MaterialMod.childName m = Cell.uuid c) mods.

(** A cell after [_applyMaterialMods]. *)
Definition mod_cell (mods : list MaterialMod.t) (c : Cell.t) : Cell.t :=
  match Cell.material c, find_cell_mod mods c with
  | Some t, Some md => Cell.mk (Cell.name c) (Cell.uuid c) (Some (apply_mod md t))
  | _, _ => c
  end.

(** The cells of the object that deserialization builds from the stored
    item [objData] and the model [asset]. *)
Definition restored_cells (objData : ObjData.t) (asset : Asset.t) : list Cell.t :=
  let cs := rename_root (ObjData.name objData) (asset_cells asset) in
  match ObjData.materialMods objData with
  | Some mods => mod_cell mods <$> cs
  | None => cs
  end.

(** A stored item with other material deltas. *)
Definition with_materialMods (mods : option (list MaterialMod.t)) (d : ObjData.t)
  : ObjData.t :=
  ObjData.mk (ObjData.name d) (ObjData.furnitureType d) (ObjData.furniturePath d)
    (ObjData.furnitureId d) (ObjData.furnitureData d) (ObjData.position d)
    (ObjData.rotation d) (ObjData.scale d) mods.

Definition mods_of_cells (cs : list Cell.t) : option (list MaterialMod.t) :=
  match omap serialize_cell cs with
  | [] => None
  | mods => Some mods
  end.

(** The cell [a] of the loaded model stands for the cell [c] of the saved
    item: same name, a material fresh from the asset, and, when [c] carries
    a delta, a name to find it by and a material with the same channels. *)
Definition cell_matches (c a : Cell.t) : Prop :=
  Cell.name a = Cell.name c /\
  (forall t, Cell.material a = Some t -> Material._isCloned t = false) /\
  (forall m, Cell.material c = Some m -> Material._isCloned m = true ->
     Cell.name c <> "" /\
     exists t, Cell.material a = Some t /\ same_channels m t).

Definition has_material (c : Cell.t) : Prop := is_Some (Cell.material c).

(** The asset loads as the model the item was saved from: node by node the
    cells match, the meshes of the model are told apart by their names, and
    no identifier of the model is the name under which a delta was saved. *)
Definition same_model (ms : gmap nat Material.t) (obj : Object3D.t) (asset : Asset.t)
  : Prop :=
  let cs := object_cells ms obj in
  let models := rename_root (Object3D.name obj) (asset_cells asset) in
  Forall2 cell_matches cs models /\
  NoDup (Cell.name <$> filter has_material models) /\
  (forall c a md, c ∈ cs -> a ∈ models -> serialize_cell c = Some md ->
     has_material a -> Cell.name c <> Cell.uuid a).

(** The stored item [d'] has the name, the catalog linkage and the
    position, rotation and scale of [d]. *)
Definition same_linkage_and_transform (d d' : ObjData.t) : Prop :=
  d' = with_materialMods (ObjData.materialMods d') d.

(** A chair model with named meshes, as a loader delivers it. *)
Definition chair_model : Asset.t :=
  Asset.mk
    [Material.MeshStandardMaterial (Hex 0x8B5A2B) 0.8 0;
     Material.MeshStandardMaterial (Hex 0x335577) 0.9 0]
    (Object3D.mk (Node.mk "chair01" "model-0" false None)
       [Node.mk "Seat" "model-1" true (Some 0%nat);
        Node.mk "Back" "model-2" true (Some 1%nat)]
       UserData_empty Vector3_zero Vector3_zero Vector3_one
       (fun _ s => Box3_scale s (Box (mkVector3 (-(1 # 4)) 0 (-(1 # 4)))
                                     (mkVector3 (1 # 4) (9 # 10) (1 # 4))))).

(** A loader that has the chair model and nothing else. *)
Definition chair_assets : string -> option Asset.t :=
  fun path => if String.eqb path "chair01" then Some chair_model else None.

(** The chair placed from its model, picked, and painted red. *)
Definition painted_chair : App.t :=
  _applyColor red
    (_onMouseDown (click_on 0 (mkVector3 2 (1 # 2) 0))
       (snd (_placeFurniture chair_assets (uuids 0) (stamp_of 0) chair_entry
               (mkVector3 2 0 0) (App.initial no_storage)))).

(** The document of a scene, and the scene reloaded from it with the
    loader [load]. *)
Definition saved_items (a : App.t) : list ObjData.t :=
  serialize_all (App.materials a) (placed_objects a).

Definition reloaded (load : string -> option Asset.t) (a : App.t) : App.t :=
  snd (deserialize_all load uuids stamp_of 0 (saved_items a) (_clearCurrentObjects a)).

(** ** StorageManager.js: what is stored *)

(** [hasSavedLayout], as the condition its callers test: [undefined] (no
    [objects] field) and [false] are both falsy. *)
Definition hasSavedLayout (a : App.t) : bool :=
  match Storage.items (App.localStorage a) !! STORAGE_KEY with
  | None => false
  | Some (Garbage _) => false
  | Some (Doc layoutData) =>
      match LayoutData.objects layoutData with
      | None => false
      | Some objects => bool_decide (0 < length objects)%nat
      end
  end.

(** Nothing to load under the key: no text, a text that [JSON.parse]
    rejects, or a layout document whose [objects] is missing or empty. *)
Definition nothing_to_load (a : App.t) : Prop :=
  match Storage.items (App.localStorage a) !! STORAGE_KEY with
  | None => True
  | Some (Garbage _) => True
  | Some (Doc layoutData) =>
      LayoutData.objects layoutData = None \/ LayoutData.objects layoutData = Some []
  end.

(** A store whose text under the key is cut short. *)
Definition unparsable_storage : Storage.t :=
  Storage.mk {[ STORAGE_KEY := Garbage "{version:" ]} true.

Module LayoutInfo.
Record t := mk {
  objectCount : nat;
  timestamp : Q;
  date : string
}.
End LayoutInfo.

Section Info.
(** [new Date(t).toLocaleString()] *)
Variable toLocaleString : Q -> string.

(** [getSavedLayoutInfo]; [layoutData.objects?.length || 0] is the length,
    or [0] without the field. *)
Definition getSavedLayoutInfo (a : App.t) : option LayoutInfo.t :=
  match Storage.items (App.localStorage a) !! STORAGE_KEY with
  | None => None
  | Some (Garbage _) => None
  | Some (Doc layoutData) =>
      Some (LayoutInfo.mk
              (match LayoutData.objects layoutData with
               | Some objects => length objects
               | None => 0%nat
               end)
              (LayoutData.timestamp layoutData)
              (toLocaleString (LayoutData.timestamp layoutData)))
  end.
End Info.

(** ** PlacementSystem.js: removal *)

(** [removeObject]: the placement system's own list decides. *)
Definition removeObject (object : nat) (a : App.t) : App.t :=
  let p := App.placement a in
  match list_find (fun k => k = object) (PlacementSystem.placedObjects p) with
  | Some (index, _) =>
      let a :=
        App.set_placement
          (PlacementSystem.mk
             (take index (PlacementSystem.placedObjects p) ++
              drop (S index) (PlacementSystem.placedObjects p))
             (PlacementSystem.isLoading p)) a in
      let a := App.set_container (remove_ref object <$> App.container a) a in
      AppState_removePlacedObject object a
  | None => a
  end.

(** [clearAll]: [removeObject] on every entry of a copy of the list. *)
Definition clearAll (a : App.t) : App.t :=
  foldl (fun a obj => removeObject obj a) a
    (PlacementSystem.placedObjects (App.placement a)).

Definition getPlacedObjects (a : App.t) : list nat :=
  PlacementSystem.placedObjects (App.placement a).

(** ** Room.js *)

Module Bounds.
Record t := mk {
  minX : Q;
  maxX : Q;
  minZ : Q;
  maxZ : Q;
  floorY : Q
}.
End Bounds.

(** [Room.getBounds] *)
Definition getBounds : Bounds.t :=
  let width := ROOM_CONFIG.width in
  let depth := ROOM_CONFIG.depth in
  let margin := 0.5 in
  Bounds.mk (- width / 2 + margin) (width / 2 - margin)
            (- depth / 2 + margin) (depth / 2 - margin) 0.

(** ** MenuPanel.js *)

(** [AppState.set('activeFurnitureType', value)]; its subscribers only
    redraw. *)
Definition AppState_set_activeFurnitureType (value : option FurnitureData.t)
    (a : App.t) : App.t :=
  let s := App.appState a in
  App.set_appState
    (AppState.mk (AppState.selectedObject s) value
       (AppState.placedObjects s) (AppState.isLoading s)) a.

(** [MenuPanel._selectItem]: a click on a catalog item. *)
Definition _selectItem (item : FurnitureData.t) (a : App.t) : App.t :=
  match AppState.activeFurnitureType (App.appState a) with
  | Some currentActive =>
      if decide (FurnitureData.id currentActive = FurnitureData.id item)
      then AppState_set_activeFurnitureType None a
      else AppState_set_activeFurnitureType (Some item) a
  | None => AppState_set_activeFurnitureType (Some item) a
  end.

(** ** ActionButtons.js, with the storage manager connected *)

(** The texts of [_showNotification]. *)
Inductive Notification :=
| LayoutSaved        (* Layout saved! *)
| NothingToSave      (* Nothing to save *)
| NoSavedLayoutFound (* No saved layout found *)
| LoadingLayout      (* Loading layout... *)
| LayoutLoaded       (* Layout loaded! *)
| FailedToLoad       (* Failed to load layout *)
| NoSavedData        (* No saved data to clear *)
| StorageCleared     (* Saved storage cleared! *)
| NoObjectSelected.  (* No object selected *)

Module ActionButtons.

(** [_saveLayout]: the notifications shown, in order, and the state. *)
Definition _saveLayout (now : Q) (a : App.t) : list Notification * App.t :=
  let '(success, a) := saveLayout now a in
  if success then ([LayoutSaved], a) else ([NothingToSave], a).

Section Load.
Variable load : string -> option Asset.t.

Definition _loadLayout (uuid : nat -> nat -> string) (stamp : nat -> Stamp.t)
    (a : App.t) : list Notification * App.t :=
  if negb (hasSavedLayout a) then ([NoSavedLayoutFound], a)
  else
    let '(success, a) := loadLayout load uuid stamp a in
    if success then ([LoadingLayout; LayoutLoaded], a)
    else ([LoadingLayout; FailedToLoad], a).
End Load.

Definition _clearStorage (a : App.t) : list Notification * App.t :=
  if negb (hasSavedLayout a) then ([NoSavedData], a)
  else ([StorageCleared], clearSavedLayout a).

(** [_deleteSelected] of the Delete button. *)
Definition _deleteSelected (a : App.t) : list Notification * App.t :=
  match AppState.selectedObject (App.appState a) with
  | None => ([NoObjectSelected], a)
  | Some selected =>
      match App.container a with
      | None => ([], a)
      | Some _ =>
          let a := AppState_set_selectedObject None a in
          let a := App.set_container (remove_ref selected <$> App.container a) a in
          ([], AppState_removePlacedObject selected a)
      end
  end.

(** [_resetLayout] *)
Definition _resetLayout (a : App.t) : App.t :=
  match App.container a with
  | None => a
  | Some [] => a
  | Some _ =>
      let a := AppState_set_selectedObject None a in
      AppState_clearPlacedObjects (App.set_container (Some []) a)
  end.

End ActionButtons.

(** ** Vocabulary of the further properties *)

(** The item under [r] in two states is the same but for where it stands
    on the floor plane. *)
Definition moved_on_floor (o o' : Object3D.t) : Prop :=
  Object3D.nodes o' = Object3D.nodes o /\
  Object3D.userData o' = Object3D.userData o /\
  vy (Object3D.position o') = vy (Object3D.position o) /\
  Object3D.rotation o' = Object3D.rotation o /\
  Object3D.scale o' = Object3D.scale o.

(** The material [m] shows the edit [mu]: it carries the clone flag, and
    the channels that the edit writes hold the written values. *)
Definition shows (mu : Mutation) (m : Material.t) : Prop :=
  Material._isCloned m = true /\
  match mu with
  | SetColor c => is_Some (Material.color m) -> Material.color m = Some c
  | SetMaterial preset =>
      (is_Some (Material.metalness m) ->
       Material.metalness m = Some (fst (preset_settings preset))) /\
      (is_Some (Material.roughness m) ->
       Material.roughness m = Some (snd (preset_settings preset)))
  | SetOpacity q => Material.opacity m = q /\ Material.transparent m = Qltb q 1
  end.

(** Two nodes that differ at most in the material they point to. *)
Definition same_node (n n' : Node.t) : Prop :=
  Node.name n' = Node.name n /\ Node.uuid n' = Node.uuid n /\
  Node.isMesh n' = Node.isMesh n /\
  (is_Some (node_ref n') <-> is_Some (node_ref n)).

(** A material once a selection highlight has come and gone: the emissive
    intensity has passed through [original.emissiveIntensity || 0]. *)
Definition settled (m : Material.t) : Material.t :=
  match Material.emissive m with
  | Some _ =>
      Material.set_emissiveIntensity (Some (or_zero (Material.emissiveIntensity m))) m
  | None => m
  end.

(** The chair of the catalog placed from its model. *)
Definition chair_from_model : App.t :=
  snd (_placeFurniture chair_assets (uuids 0) (stamp_of 0) chair_entry
         (mkVector3 2 0 0) (App.initial no_storage)).

(** The chair entry made the active furniture type of the empty room. *)
Definition chair_active : App.t :=
  AppState_set_activeFurnitureType (Some chair_entry) (App.initial no_storage).

(** A material under the selection highlight. *)
Definition highlighted (m : Material.t) : Material.t :=
  match Material.emissive m with
  | Some _ =>
      Material.set_emissiveIntensity (Some 0.5)
        (Material.set_emissive (Some selectedEmissive) m)
  | None => m
  end.

(** [PropertiesPanel._getCurrentColor]: the colour text that the panel
    shows in its picker. The [return] of the callback ends one call of the
    callback, not the traversal. *)
Definition _getCurrentColor (a : App.t) : Color :=
  match panel_object a with
  | None => Hex 0x888888
  | Some (_, o) =>
      foldl (fun color child =>
               match mesh_material (App.materials a) child with
               | Some (_, m) =>
                   match Material.color m with
                   | Some c => c
                   | None => color
                   end
               | None => color
               end)
        (Hex 0x888888) (Object3D.nodes o)
  end.

(** The colour of a node, when it is a mesh whose material has one. *)
Definition node_color (ms : gmap nat Material.t) (n : Node.t) : option Color :=
  '(_, m) ← mesh_material ms n; Material.color m.

(** * Properties of the embedding *)

(** ** Saving *)

(** C10: saving a layout while the placed-item list is empty returns false
    and leaves the whole application as it was, the persistent store
    included: a document saved earlier is neither overwritten nor cleared. *)
Theorem saveLayout_empty_is_noop (now : Q) (a : App.t) :
  AppState.placedObjects (App.appState a) = [] ->
  saveLayout now a = (false, a) /\
  App.localStorage (snd (saveLayout now a)) = App.localStorage a.
Proof.
  intros Hempty. unfold saveLayout. rewrite Hempty. split; reflexivity.
Qed.

Lemma saveLayout_empty_witness :
  saveLayout 1700000001 (App.initial saved_storage) = (false, App.initial saved_storage) /\
  App.localStorage (snd (saveLayout 1700000001 (App.initial saved_storage))) = saved_storage.
Proof. apply saveLayout_empty_is_noop. reflexivity. Defined.

(** ** Path resolution on load *)

Lemma truthy_string_nonempty (s : string) : s <> "" -> truthy_string s = true.
Proof. destruct s; [congruence | reflexivity]. Qed.

(** C7, as the code has it: a stored item's asset path is its top-level
    [furniturePath] whenever that field is a non-empty string, and that is the
    path handed to the loader; the nested [furnitureData.path] is used only
    when the top-level field is missing or empty. *)
Theorem deserialize_prefers_top_level_path
    (load : string -> option Asset.t) (uuid : nat -> string) (d : ObjData.t) :
  (forall top, ObjData.furniturePath d = Some top -> top <> "" ->
     modelPath_of d = Some top /\
     deserialize_model load uuid d =
       match load top with
       | Some asset => asset
       | None => Primitive_asset uuid (_createFallbackPrimitive (ObjData.furnitureType d))
       end) /\
  (ObjData.furniturePath d = None \/ ObjData.furniturePath d = Some "" ->
     modelPath_of d = ObjData.furnitureData d ≫= FurnitureData.path).
Proof.
  split.
  - intros top Htop Hne.
    assert (Hpath : modelPath_of d = Some top).
    { unfold modelPath_of, or_string. rewrite Htop.
      now rewrite truthy_string_nonempty. }
    split; [exact Hpath |].
    unfold deserialize_model. rewrite Hpath.
    now rewrite truthy_string_nonempty.
  - intros [Hnone | Hempty]; unfold modelPath_of, or_string.
    + now rewrite Hnone.
    + now rewrite Hempty.
Qed.

(** C7 as stated fails: with both fields present the code resolves the
    legacy top-level path, not the nested one. *)
Lemma nested_path_not_preferred :
  modelPath_of both_paths = Some "legacy/chair01" /\
  modelPath_of both_paths <> modelPath_nested_first both_paths.
Proof. split; [reflexivity | discriminate]. Qed.

(** ** Dragging within the room *)

(** Linear arithmetic over [Q], with the halvings of the source made
    multiplications. *)
Ltac qarith :=
  unfold ROOM_CONFIG.width, ROOM_CONFIG.depth, Qdiv in *;
  change (/ 2) with (1 # 2) in *;
  lra.

Lemma Qle_bool_plus_r (a b d : Q) : Qle_bool (a + d) (b + d) = Qle_bool a b.
Proof.
  apply eq_true_iff_eq. rewrite !Qle_bool_iff. split; intros H; lra.
Qed.

Lemma Qltb_plus_r (a b d : Q) : Qltb (a + d) (b + d) = Qltb a b.
Proof. unfold Qltb. now rewrite Qle_bool_plus_r. Qed.

Lemma Qltb_false (a b : Q) : Qltb a b = false <-> b <= a.
Proof.
  unfold Qltb. rewrite negb_false_iff. apply Qle_bool_iff.
Qed.

Lemma Qltb_true (a b : Q) : Qltb a b = true <-> a < b.
Proof.
  unfold Qltb. rewrite negb_true_iff. split.
  - intros H. apply Qnot_le_lt. intros Hle.
    apply Qle_bool_iff in Hle. congruence.
  - intros H. destruct (Qle_bool b a) eqn:E; [| reflexivity].
    apply Qle_bool_iff in E. lra.
Qed.

Lemma Box3_isEmpty_translate (d : Vector3) (b : Box3) :
  Box3_isEmpty (Box3_translate d b) = Box3_isEmpty b.
Proof.
  destruct b as [| mn mx]; [reflexivity |].
  cbn. now rewrite !Qltb_plus_r.
Qed.

(** The size of a box does not depend on where the box stands. *)
Lemma Box3_getSize_translate (d : Vector3) (b : Box3) :
  let s := Box3_getSize (Box3_translate d b) in
  let s0 := Box3_getSize b in
  vx s == vx s0 /\ vy s == vy s0 /\ vz s == vz s0.
Proof.
  intros s s0. subst s s0.
  destruct b as [| mn mx]; [now cbn |].
  pose proof (Box3_isEmpty_translate d (Box mn mx)) as He.
  cbn [Box3_translate] in *. unfold Box3_getSize. rewrite He.
  destruct (Box3_isEmpty (Box mn mx)); cbn; repeat split; lra.
Qed.

Lemma size_nonneg (b : Box3) :
  0 <= vx (Box3_getSize b) /\ 0 <= vy (Box3_getSize b) /\ 0 <= vz (Box3_getSize b).
Proof.
  destruct b as [| mn mx]; [cbn; repeat split; lra |].
  unfold Box3_getSize. destruct (Box3_isEmpty (Box mn mx)) eqn:E;
    [cbn; repeat split; lra |].
  cbn in E. apply orb_false_elim in E as [E Ez].
  apply orb_false_elim in E as [Ex Ey].
  apply Qltb_false in Ex, Ey, Ez. cbn. repeat split; lra.
Qed.

(** Moving an object keeps its footprint. *)
Lemma footprint_set_position (p : Vector3) (o : Object3D.t) :
  objHalfWidth (Object3D.set_position p o) == objHalfWidth o /\
  objHalfDepth (Object3D.set_position p o) == objHalfDepth o.
Proof.
  unfold objHalfWidth, objHalfDepth, Box3_setFromObject. cbn.
  set (b := Object3D.extent o (Object3D.rotation o) (Object3D.scale o)).
  destruct (Box3_getSize_translate p b) as (Hx & _ & Hz).
  destruct (Box3_getSize_translate (Object3D.position o) b) as (Hx0 & _ & Hz0).
  cbn zeta in *. split; qarith.
Qed.

(** [Math.max(lo, Math.min(hi, c))] on a range that is not empty. *)
Lemma clamp_in_range (lo hi c : Q) :
  lo <= hi ->
  lo <= Qmax lo (Qmin hi c) <= hi /\ clamped lo hi c (Qmax lo (Qmin hi c)).
Proof.
  intros Hrange.
  destruct (Q.max_spec lo (Qmin hi c)) as [[H1 H4] | [H1 H4]];
  destruct (Q.min_spec hi c) as [[H2 H3] | [H2 H3]];
  unfold clamped; (split; [split; lra | repeat split; intros; lra]).
Qed.

(** C4, as the code has it: for an item whose footprint fits between the
    margins of the room, every drag update writes a position inside the
    bounds [|x| <= width/2 - 0.3 - objHalfWidth], [|z| <= depth/2 - 0.3 -
    objHalfDepth] (the half extents being those of the item's world box, which
    the move does not change), a candidate beyond a wall is written on the
    boundary, and the height is left as it was. *)
Theorem drag_update_within_room
    (event : MouseEvent.t) (p : Vector3) (a : App.t) (r : nat) (o : Object3D.t) :
  SelectionSystem.isDragging (App.selection a) = true ->
  SelectionSystem.selectedObject (App.selection a) = Some r ->
  App.objects a !! r = Some o ->
  MouseEvent.floor event = Some p ->
  fits_in_room o ->
  exists o',
    App.objects (_onMouseMove event a) !! r = Some o' /\
    within_room o' /\
    objHalfWidth o' == objHalfWidth o /\ objHalfDepth o' == objHalfDepth o /\
    vy (Object3D.position o') = vy (Object3D.position o) /\
    let c := Vector3_sub p (SelectionSystem.dragOffset (App.selection a)) in
    clamped (- (ROOM_CONFIG.width / 2 - 0.3 - objHalfWidth o))
            (ROOM_CONFIG.width / 2 - 0.3 - objHalfWidth o)
            (vx c) (vx (Object3D.position o')) /\
    clamped (- (ROOM_CONFIG.depth / 2 - 0.3 - objHalfDepth o))
            (ROOM_CONFIG.depth / 2 - 0.3 - objHalfDepth o)
            (vz c) (vz (Object3D.position o')).
Proof.
  intros Hdrag Hsel Hobj Hfloor [Hfx Hfz].
  unfold _onMouseMove. rewrite Hdrag, Hsel, Hfloor. cbn [negb].
  unfold _constrainToRoom, selected_object. rewrite Hsel. cbn [mbind option_bind].
  rewrite Hobj.
  fold (objHalfWidth o). fold (objHalfDepth o).
  set (c := Vector3_sub p (SelectionSystem.dragOffset (App.selection a))).
  set (hw := objHalfWidth o) in *. set (hd := objHalfDepth o) in *.
  set (nx := Qmax _ _). set (nz := Qmax _ _).
  cbn [vx vy vz].
  exists (Object3D.set_position (mkVector3 nx (vy (Object3D.position o)) nz) o).
  split.
  { unfold update_object. cbn. rewrite lookup_alter_eq. rewrite Hobj. reflexivity. }
  destruct (footprint_set_position
              (mkVector3 nx (vy (Object3D.position o)) nz) o) as [Hw Hd].
  fold hw in Hw. fold hd in Hd.
  destruct (clamp_in_range (- (ROOM_CONFIG.width / 2 - 0.3) + hw)
              (ROOM_CONFIG.width / 2 - 0.3 - hw) (vx c)) as [Hxr Hxc]; [qarith |].
  destruct (clamp_in_range (- (ROOM_CONFIG.depth / 2 - 0.3) + hd)
              (ROOM_CONFIG.depth / 2 - 0.3 - hd) (vz c)) as [Hzr Hzc]; [qarith |].
  fold nx in Hxr, Hxc. fold nz in Hzr, Hzc.
  split; [| split; [exact Hw | split; [exact Hd | split; [reflexivity |]]]].
  - unfold within_room. change (Object3D.position (Object3D.set_position ?v o)) with v.
    cbn [vx vz]. split; apply Qabs_Qle_condition; split; qarith.
  - change (Object3D.position (Object3D.set_position ?v o)) with v. cbn [vx vz].
    unfold clamped in *. repeat split; intros; qarith.
Qed.
Lemma drag_update_witness :
  exists o',
    App.objects (_onMouseMove (pointer_at (mkVector3 100 0 100)) (grabbed (slab 2)))
      !! 0%nat = Some o' /\
    within_room o' /\
    vx (Object3D.position o') == 3.7 /\ vz (Object3D.position o') == 3.7.
Proof.
  destruct (drag_update_within_room (pointer_at (mkVector3 100 0 100))
              (mkVector3 100 0 100) (grabbed (slab 2)) 0%nat
              (set_flag true (slab 2)))
    as (o' & Hlook & Hin & _ & _ & _ & Hcx & Hcz);
    [vm_compute; reflexivity | vm_compute; reflexivity | vm_compute; reflexivity
    | vm_compute; reflexivity
    | split; apply Qle_bool_iff; vm_compute; reflexivity |].
  exists o'. split; [exact Hlook | split; [exact Hin |]].
  destruct Hcx as [Hx _], Hcz as [Hz _]. split.
  - rewrite Hx; [vm_compute; reflexivity | apply Qle_bool_iff; vm_compute; reflexivity].
  - rewrite Hz; [vm_compute; reflexivity | apply Qle_bool_iff; vm_compute; reflexivity].
Defined.

(** C4 as stated fails: for a slab 12 wide in the room 10 wide, the drag
    update writes [x = 1.3], and no position can meet the claimed bound
    [|x| <= 5 - 0.3 - 6]. *)
Lemma oversize_item_escapes_bound :
  exists o',
    App.objects (_onMouseMove (pointer_at Vector3_zero) (grabbed (slab 12)))
      !! 0%nat = Some o' /\
    vx (Object3D.position o') == 1.3 /\
    ~ within_room o'.
Proof.
  eexists. split; [vm_compute; reflexivity |]. split; [vm_compute; reflexivity |].
  intros [Hx _]. vm_compute in Hx. apply Hx. reflexivity.
Qed.

(** C9 at a failing input: a slab 30 wide is grabbed and the pointer moves
    to the centre of the room. The clamp writes [x = 15 - 4.7 = 10.3]: not
    the centre of the room, and beyond the wall at [x = 5]. *)
Theorem oversize_clamp_leaves_room :
  exists o',
    App.objects (_onMouseMove (pointer_at Vector3_zero) (grabbed (slab 30)))
      !! 0%nat = Some o' /\
    vx (Object3D.position o') == 10.3 /\
    ~ vx (Object3D.position o') == 0 /\
    ROOM_CONFIG.width / 2 < vx (Object3D.position o') /\
    vx (_constrainToRoom Vector3_zero (grabbed (slab 30))) == 10.3.
Proof.
  eexists. split; [vm_compute; reflexivity |].
  repeat split; try (vm_compute; reflexivity). vm_compute. discriminate.
Qed.
(** ** Dragging and the orbit controls *)

Lemma orbit_with_selection f a :
  App.orbitEnabled (with_selection f a) = App.orbitEnabled a.
Proof. reflexivity. Qed.

Lemma orbit_update_object r f a :
  App.orbitEnabled (update_object r f a) = App.orbitEnabled a.
Proof. reflexivity. Qed.

Lemma orbit_applyHighlightMaterial r a :
  App.orbitEnabled (_applyHighlightMaterial r a) = App.orbitEnabled a.
Proof.
  unfold _applyHighlightMaterial. destruct (App.objects a !! r); [| reflexivity].
  now destruct (foldl _ _ _).
Qed.

Lemma orbit_restoreOriginalMaterials r a :
  App.orbitEnabled (_restoreOriginalMaterials r a) = App.orbitEnabled a.
Proof.
  unfold _restoreOriginalMaterials. now destruct (App.objects a !! r).
Qed.

Lemma orbit_unhighlight r a :
  App.orbitEnabled (unhighlight r a) = App.orbitEnabled a.
Proof.
  unfold unhighlight. now rewrite orbit_update_object, orbit_restoreOriginalMaterials.
Qed.

Lemma orbit_updateSelection v a :
  App.orbitEnabled (_updateSelection v a) = App.orbitEnabled a.
Proof.
  unfold _updateSelection. case_decide; [reflexivity |].
  destruct v as [o |].
  - rewrite orbit_applyHighlightMaterial. cbn.
    destruct (SelectionSystem.selectedObject (App.selection a));
      [apply orbit_unhighlight | reflexivity].
  - destruct (SelectionSystem.selectedObject (App.selection a)); [| reflexivity].
    cbn. apply orbit_unhighlight.
Qed.

Lemma orbit_set_selectedObject v a :
  App.orbitEnabled (AppState_set_selectedObject v a) = App.orbitEnabled a.
Proof. unfold AppState_set_selectedObject. now rewrite orbit_updateSelection. Qed.

Lemma orbit_deselect a : App.orbitEnabled (deselect a) = App.orbitEnabled a.
Proof.
  unfold deselect. destruct (SelectionSystem.selectedObject (App.selection a));
    [| reflexivity].
  rewrite orbit_set_selectedObject. cbn. apply orbit_unhighlight.
Qed.

Lemma orbit_select r a : App.orbitEnabled (select r a) = App.orbitEnabled a.
Proof.
  unfold select. rewrite orbit_set_selectedObject, orbit_applyHighlightMaterial. cbn.
  destruct (SelectionSystem.selectedObject (App.selection a)); [| reflexivity].
  case_decide; [reflexivity | apply orbit_deselect].
Qed.

Lemma orbit_deleteSelected a :
  App.orbitEnabled (_deleteSelected a) = App.orbitEnabled a.
Proof.
  unfold _deleteSelected.
  destruct (SelectionSystem.selectedObject (App.selection a)); [| reflexivity].
  destruct (App.container (deselect a)); cbn; apply orbit_deselect.
Qed.

(** No handler of the selection system writes the flag of the orbit
    controls: not on drag start, not on release. *)
Lemma gesture_keeps_orbit quarter g a :
  App.orbitEnabled (gesture quarter g a) = App.orbitEnabled a.
Proof.
  destruct g as [e | e | | k | r |]; cbn.
  - unfold _onMouseDown.
    destruct (negb _); [reflexivity |]. destruct (MouseEvent.onUI e); [reflexivity |].
    destruct (MouseEvent.hit e) as [[[f |] pt] |]; try reflexivity.
    + case_decide; [| apply orbit_select].
      unfold _startDrag. now destruct (selected_object a).
    + destruct (SelectionSystem.isDragging _); [reflexivity | apply orbit_deselect].
  - unfold _onMouseMove. destruct (negb _); [reflexivity |].
    destruct (SelectionSystem.selectedObject _); [| reflexivity].
    now destruct (MouseEvent.floor e).
  - unfold _onMouseUp. now destruct (SelectionSystem.isDragging _).
  - unfold _onKeyDown.
    destruct (SelectionSystem.selectedObject _); [| reflexivity].
    destruct k; try reflexivity; try apply orbit_deleteSelected. apply orbit_deselect.
  - apply orbit_select.
  - apply orbit_deselect.
Qed.

Lemma gestures_keep_orbit quarter gs a :
  App.orbitEnabled (gestures quarter gs a) = App.orbitEnabled a.
Proof.
  unfold gestures. revert a. induction gs as [| g gs IH]; intros a; [reflexivity |].
  cbn. rewrite IH. apply gesture_keeps_orbit.
Qed.

(** C2 at a failing input: an item is picked and then pressed again, which
    starts the drag. The drag flag is set while the orbit controls are still
    enabled; the release ends the drag and the controls were enabled all
    along. *)
Theorem drag_leaves_orbit_enabled :
  let pressed := grabbed (slab 2) in
  SelectionSystem.isDragging (App.selection pressed) = true /\
  App.orbitEnabled pressed = true /\
  SelectionSystem.isDragging (App.selection (_onMouseUp pressed)) = false /\
  App.orbitEnabled (_onMouseUp pressed) = true.
Proof. repeat split; vm_compute; reflexivity. Qed.

(** ** The two fallback constructors *)

(** The placement engine always builds a group, the layout serializer always
    a bare mesh. *)
Lemma fallbacks_never_agree (fd : FurnitureData.t) (type : option string) (p : Primitive) :
  _createPrimitiveFallback fd = Some p -> p <> _createFallbackPrimitive type.
Proof.
  unfold _createPrimitiveFallback, _createFallbackPrimitive.
  destruct (FurnitureData.name fd) as [n |]; [| discriminate].
  cbn. intros [= <-]. unfold _createPrimitiveByType.
  repeat (destruct (String.eqb _ _); [discriminate |]). discriminate.
Qed.

(** C6 at a failing input: for the chair of the catalog, the placement
    engine builds its chair (a group of seat, back and four legs over two
    materials), the layout serializer a grey box 1 x 0.5 x 1, which it builds
    whatever the type is. *)
Theorem storage_fallback_is_untyped_box :
  placement_type (toLowerCase "Chair") = "chair" /\
  (exists mats seat back legs,
      _createPrimitiveFallback chair_entry = Some (Group mats (seat :: back :: legs)) /\
      length mats = 2%nat /\ length legs = 4%nat) /\
  _createFallbackPrimitive (Some "Chair") =
    SingleMesh (BoxGeometry 1 0.5 1) (Material.MeshStandardMaterial (Hex 0x888888) 1 0) /\
  _createFallbackPrimitive (Some "Chair") = _createFallbackPrimitive (Some "Couch") /\
  _createPrimitiveFallback chair_entry <> Some (_createFallbackPrimitive (Some "Chair")).
Proof.
  split; [vm_compute; reflexivity |]. split.
  { do 4 eexists. split; [vm_compute; reflexivity |]. split; reflexivity. }
  split; [reflexivity |]. split; [reflexivity |]. vm_compute. discriminate.
Qed.
(** ** Placement and the floor *)

Lemma rescale_position t m : Object3D.position (rescale t m) = Object3D.position m.
Proof.
  unfold rescale. destruct (Qltb _ _); [| reflexivity].
  now destruct (Qltb _ _).
Qed.

(** What "sit on floor" achieves for a model whose origin is on the floor:
    the lowest point ends at [max 0 e], where [e] is the lowest point of the
    model relative to its origin. *)
Lemma sit_on_floor_lowest (m : Object3D.t) (ymin : Q) :
  vy (Object3D.position m) = 0 ->
  let o := sit_on_floor m in
  lowest_point (Box3_setFromObject o) = Some ymin ->
  0 <= ymin /\
  forall e,
    lowest_point (Object3D.extent o (Object3D.rotation o) (Object3D.scale o)) = Some e ->
    (e <= 0 -> ymin == 0) /\ (0 <= e -> ymin == e).
Proof.
  intros Hy o. subst o. unfold sit_on_floor, Box3_setFromObject.
  destruct (Object3D.extent m (Object3D.rotation m) (Object3D.scale m))
    as [| emn emx] eqn:He; cbn [Box3_translate].
  - rewrite He. discriminate.
  - cbn [vy Vector3_add]. rewrite Hy.
    destruct (Qltb (vy emn + 0) 0) eqn:Hlt.
    + apply Qltb_true in Hlt. cbn. rewrite He. cbn.
      intros [= <-]. split; [lra |]. intros e [= <-]. split; intros; lra.
    + apply Qltb_false in Hlt. rewrite He. cbn. rewrite Hy.
      intros [= <-]. split; [lra |]. intros e [= <-]. split; intros; lra.
Qed.

Lemma objects_set_loading b a : App.objects (set_loading b a) = App.objects a.
Proof. reflexivity. Qed.

(** X29: where a placed object ends above the floor. After a placement,
    from the loader or from the procedural fallback, and after the rescale,
    the lowest point of the placed object is never below the floor: it is
    on the floor when the lowest point [e] of the rescaled model lies at or
    below the model's origin, and at its own height [e] above the floor
    otherwise, since [_applyScale] moves the model only under its guard
    [minY < 0]. *)
Theorem placement_rests_on_or_above_floor
    (load : string -> option Asset.t) (uuid : nat -> string) (stamp : Stamp.t)
    (fd : FurnitureData.t) (pos : Vector3) (a : App.t) (r : nat) (a' : App.t) :
  _placeFurniture load uuid stamp fd pos a = (Some r, a') ->
  exists o,
    App.objects a' !! r = Some o /\
    forall ymin, lowest_point (Box3_setFromObject o) = Some ymin ->
      0 <= ymin /\
      forall e,
        lowest_point (Object3D.extent o (Object3D.rotation o) (Object3D.scale o)) = Some e ->
        (e <= 0 -> ymin == 0) /\ (0 <= e -> ymin == e).
Proof.
  unfold _placeFurniture.
  destruct (placement_model load uuid fd) as [asset |]; cbn [mbind option_bind];
    [| intros [=]].
  destruct (FurnitureData.name fd) as [name |] eqn:Hname; cbn [mbind option_bind];
    [| intros [=]].
  destruct (instantiate asset _) as [model ms].
  unfold _applyScale. rewrite Hname. cbn [mbind option_bind].
  set (m1 := rescale _ _).
  unfold App.new_object.
  intros [= <- <-].
  eexists. split.
  { cbn. apply lookup_insert_eq. }
  intros ymin Hlow.
  apply (sit_on_floor_lowest m1 ymin); [| exact Hlow].
  subst m1. now rewrite rescale_position.
Qed.
Lemma placement_floor_witness :
  exists o,
    App.objects
      (snd (_placeFurniture no_assets (uuids 0) (stamp_of 0) chair_entry
              (mkVector3 4 0 4) (App.initial no_storage))) !! 0%nat = Some o /\
    forall ymin, lowest_point (Box3_setFromObject o) = Some ymin -> 0 <= ymin.
Proof.
  destruct (placement_rests_on_or_above_floor no_assets (uuids 0) (stamp_of 0)
              chair_entry (mkVector3 4 0 4) (App.initial no_storage) 0%nat
              (snd (_placeFurniture no_assets (uuids 0) (stamp_of 0) chair_entry
                      (mkVector3 4 0 4) (App.initial no_storage))))
    as (o & Hlook & Hlow); [vm_compute; reflexivity |].
  exists o. split; [exact Hlook |]. intros ymin Hy. exact (proj1 (Hlow ymin Hy)).
Defined.

(** C5 fails in the code. [_placeFurniture] sets [position.y = 0] to
    "ensure on floor" and [_applyScale] adjusts the position "so model sits
    on floor", but only under the guard [minY < 0]. With no asset at hand
    the couch of the catalog is placed as the procedural couch, whose base
    starts 0.1 above its origin; no rescale applies (height 0.7 against the
    target 0.8) and the object is left floating 0.1 above the floor. *)
Theorem couch_fallback_floats :
  exists o mn mx,
    App.objects
      (snd (_placeFurniture no_assets (uuids 0) (stamp_of 0) couch_entry
              (mkVector3 4 0 4) (App.initial no_storage))) !! 0%nat = Some o /\
    Box3_setFromObject o = Box mn mx /\
    vy mn == 0.1 /\ ~ vy mn == 0.
Proof.
  do 3 eexists. split; [vm_compute; reflexivity |].
  split; [vm_compute; reflexivity |].
  split; [vm_compute; reflexivity | vm_compute; discriminate].
Qed.
(** ** Selection *)

Lemma objects_applyHighlightMaterial r a :
  App.objects (_applyHighlightMaterial r a) = App.objects a /\
  SelectionSystem.selectedObject (App.selection (_applyHighlightMaterial r a)) =
    SelectionSystem.selectedObject (App.selection a).
Proof.
  unfold _applyHighlightMaterial. destruct (App.objects a !! r); [| now split].
  now destruct (foldl _ _ _).
Qed.

Lemma objects_restoreOriginalMaterials r a :
  App.objects (_restoreOriginalMaterials r a) = App.objects a /\
  SelectionSystem.selectedObject (App.selection (_restoreOriginalMaterials r a)) =
    SelectionSystem.selectedObject (App.selection a).
Proof.
  unfold _restoreOriginalMaterials. now destruct (App.objects a !! r).
Qed.

Lemma objects_unhighlight s a :
  App.objects (unhighlight s a) = alter (set_flag false) s (App.objects a) /\
  SelectionSystem.selectedObject (App.selection (unhighlight s a)) =
    SelectionSystem.selectedObject (App.selection a).
Proof.
  unfold unhighlight, update_object, App.set_objects.
  cbn [App.objects App.selection].
  destruct (objects_restoreOriginalMaterials s (_removeHighlight a)) as [Ho Hs].
  rewrite Ho, Hs. now split.
Qed.

Lemma flagged_alter_false (objects : gmap nat Object3D.t) (s r : nat) :
  flagged (alter (set_flag false) s objects) r -> r <> s /\ flagged objects r.
Proof.
  intros (o & Ho & Hf). destruct (decide (r = s)) as [-> | Hne].
  - rewrite lookup_alter_eq in Ho.
    destruct (objects !! s); [| discriminate]. cbn in Ho.
    injection Ho as <-. discriminate Hf.
  - rewrite lookup_alter_ne in Ho by congruence. split; [exact Hne |]. now exists o.
Qed.

Lemma flagged_alter_true (objects : gmap nat Object3D.t) (s r : nat) :
  flagged (alter (set_flag true) s objects) r -> r = s \/ flagged objects r.
Proof.
  intros (o & Ho & Hf). destruct (decide (r = s)) as [-> | Hne]; [now left |].
  rewrite lookup_alter_ne in Ho by congruence. right. now exists o.
Qed.

Lemma flagged_alter_keep (f : Object3D.t -> Object3D.t)
    (objects : gmap nat Object3D.t) (s r : nat) :
  (forall o, Object3D.userData (f o) = Object3D.userData o) ->
  flagged (alter f s objects) r -> flagged objects r.
Proof.
  intros Hkeep (o & Ho & Hf). destruct (decide (r = s)) as [-> | Hne].
  - rewrite lookup_alter_eq in Ho.
    destruct (objects !! s) as [o0 |] eqn:E; [| discriminate]. cbn in Ho.
    injection Ho as <-. exists o0. split; [exact E |]. now rewrite <- Hkeep.
  - rewrite lookup_alter_ne in Ho by congruence. now exists o.
Qed.

(** Once the selected item is unhighlighted, no flag is left. *)
Lemma unhighlight_clears s a :
  single_selection a ->
  SelectionSystem.selectedObject (App.selection a) = Some s ->
  forall r, ~ flagged (App.objects (unhighlight s a)) r.
Proof.
  intros Hinv Hsel r Hf.
  destruct (objects_unhighlight s a) as [Ho _]. rewrite Ho in Hf.
  apply flagged_alter_false in Hf as [Hne Hf].
  apply Hinv in Hf. congruence.
Qed.

Lemma single_selection_updateSelection v a :
  single_selection a -> single_selection (_updateSelection v a).
Proof.
  intros Hinv. unfold _updateSelection. case_decide as Hsame; [exact Hinv |].
  destruct v as [o |].
  - set (a1 := match SelectionSystem.selectedObject (App.selection a) with
               | Some selected => unhighlight selected a
               | None => a
               end).
    assert (Hnone : forall r, ~ flagged (App.objects a1) r).
    { subst a1. destruct (SelectionSystem.selectedObject (App.selection a)) as [s |] eqn:Hs.
      - now apply unhighlight_clears.
      - intros r Hf. apply Hinv in Hf. congruence. }
    intros r Hf.
    destruct (objects_applyHighlightMaterial o
                (_createHighlight o
                   (update_object o (set_flag true)
                      (with_selection (Sel.set_selectedObject (Some o)) a1)))) as [Ho Hs].
    rewrite Hs. rewrite Ho in Hf. cbn in Hf |- *.
    apply flagged_alter_true in Hf as [-> | Hf]; [reflexivity |].
    now apply Hnone in Hf.
  - destruct (SelectionSystem.selectedObject (App.selection a)) as [s |] eqn:Hs;
      [| exact Hinv].
    intros r Hf. cbn in Hf. now apply (unhighlight_clears s a) in Hf.
Qed.

Lemma single_selection_set_selectedObject v a :
  single_selection a -> single_selection (AppState_set_selectedObject v a).
Proof.
  intros Hinv. unfold AppState_set_selectedObject.
  apply single_selection_updateSelection. exact Hinv.
Qed.

Lemma single_selection_deselect a :
  single_selection a -> single_selection (deselect a).
Proof.
  intros Hinv. unfold deselect.
  destruct (SelectionSystem.selectedObject (App.selection a)) as [s |] eqn:Hs;
    [| exact Hinv].
  apply single_selection_set_selectedObject.
  intros r Hf. cbn in Hf. now apply (unhighlight_clears s a) in Hf.
Qed.

Lemma single_selection_select o a :
  single_selection a -> single_selection (select o a).
Proof.
  intros Hinv. unfold select.
  set (a1 := match SelectionSystem.selectedObject (App.selection a) with
             | Some selected => if decide (selected = o) then a else deselect a
             | None => a
             end).
  assert (Hinv1 : single_selection a1).
  { subst a1. destruct (SelectionSystem.selectedObject (App.selection a));
      [case_decide |]; auto using single_selection_deselect. }
  assert (Hsel1 : SelectionSystem.selectedObject (App.selection a1) = Some o \/
                  forall r, ~ flagged (App.objects a1) r).
  { subst a1. destruct (SelectionSystem.selectedObject (App.selection a)) as [s |] eqn:Hs.
    - case_decide as Hd; [left; congruence |]. right.
      intros r Hf. pose proof (single_selection_deselect a Hinv r Hf) as Hr.
      revert Hf Hr. unfold deselect. rewrite Hs.
      unfold AppState_set_selectedObject, _updateSelection. cbn.
      case_decide as Hn; [| congruence]. cbn. discriminate.
    - right. intros r Hf. apply Hinv in Hf. congruence. }
  apply single_selection_set_selectedObject.
  intros r Hf.
  destruct (objects_applyHighlightMaterial o
              (_createHighlight o
                 (update_object o (set_flag true)
                    (with_selection (Sel.set_selectedObject (Some o)) a1)))) as [Ho Hs].
  rewrite Hs. rewrite Ho in Hf. cbn in Hf |- *.
  apply flagged_alter_true in Hf as [-> | Hf]; [reflexivity |].
  destruct Hsel1 as [Hsame | Hnone].
  - apply Hinv1 in Hf. congruence.
  - now apply Hnone in Hf.
Qed.
Lemma single_selection_deleteSelected a :
  single_selection a -> single_selection (_deleteSelected a).
Proof.
  intros Hinv. unfold _deleteSelected.
  destruct (SelectionSystem.selectedObject (App.selection a)); [| exact Hinv].
  pose proof (single_selection_deselect a Hinv) as Hd.
  now destruct (App.container (deselect a)).
Qed.

(** The single-selection invariant holds across every pointer, keyboard and
    programmatic selection operation. *)
Lemma single_selection_gesture quarter g a :
  single_selection a -> single_selection (gesture quarter g a).
Proof.
  intros Hinv. destruct g as [e | e | | k | r |]; cbn.
  - unfold _onMouseDown.
    destruct (negb _); [exact Hinv |]. destruct (MouseEvent.onUI e); [exact Hinv |].
    destruct (MouseEvent.hit e) as [[[f |] pt] |]; try exact Hinv.
    + case_decide; [| now apply single_selection_select].
      unfold _startDrag. now destruct (selected_object a).
    + destruct (SelectionSystem.isDragging _);
        [exact Hinv | now apply single_selection_deselect].
  - unfold _onMouseMove. destruct (negb _); [exact Hinv |].
    destruct (SelectionSystem.selectedObject _) as [s |] eqn:Hs; [| exact Hinv].
    destruct (MouseEvent.floor e); [| exact Hinv].
    intros r Hf. cbn in Hf |- *. rewrite Hs.
    apply flagged_alter_keep in Hf; [| reflexivity].
    apply Hinv in Hf. congruence.
  - unfold _onMouseUp. now destruct (SelectionSystem.isDragging _).
  - unfold _onKeyDown.
    destruct (SelectionSystem.selectedObject _) as [s |] eqn:Hs; [| exact Hinv].
    destruct k; try exact Hinv.
    + now apply single_selection_deleteSelected.
    + now apply single_selection_deleteSelected.
    + now apply single_selection_deselect.
    + intros r Hf. cbn in Hf |- *. rewrite Hs.
      apply flagged_alter_keep in Hf; [| reflexivity].
      apply Hinv in Hf. congruence.
  - now apply single_selection_select.
  - now apply single_selection_deselect.
Qed.

Lemma single_selection_gestures quarter gs a :
  single_selection a -> single_selection (gestures quarter gs a).
Proof.
  unfold gestures. revert a. induction gs as [| g gs IH]; intros a Hinv; [exact Hinv |].
  cbn. apply IH. now apply single_selection_gesture.
Qed.

(** At most one item is flagged in a state that meets the invariant. *)
Lemma single_selection_at_most_one a r1 r2 :
  single_selection a ->
  flagged (App.objects a) r1 -> flagged (App.objects a) r2 -> r1 = r2.
Proof.
  intros Hinv H1 H2. apply Hinv in H1, H2. congruence.
Qed.

(** C3 at a failing input: a procedural chair (reference 0), whose seat and
    back share one material, and a table (reference 1) are in the room. The
    chair is picked, then the table. The flags are right (chair cleared,
    table set), but the seat of the chair keeps the highlight tint: its
    emissive colour was black at intensity 1 and is left at 0x003300 at
    intensity 0.5 after the chair is deselected. *)
Theorem deselected_chair_stays_tinted :
  let picked_chair := _onMouseDown (click_on 0 (mkVector3 2 (1 # 2) 0)) two_items in
  let picked_table := _onMouseDown (click_on 1 (mkVector3 (-2) (1 # 2) 0)) picked_chair in
  node_emissive two_items 0 1 = Some (Some (Hex 0), Some 1) /\
  node_emissive picked_chair 0 1 = Some (Some selectedEmissive, Some 0.5) /\
  item_flag picked_chair 0 = Some true /\
  item_flag picked_table 0 = Some false /\
  item_flag picked_table 1 = Some true /\
  SelectionSystem.selectedObject (App.selection picked_table) = Some 1%nat /\
  node_emissive picked_table 0 1 = Some (Some selectedEmissive, Some 0.5) /\
  node_emissive picked_table 0 1 <> node_emissive two_items 0 1.
Proof.
  repeat split; try (vm_compute; reflexivity). vm_compute. discriminate.
Qed.
(** ** Reset to the original appearance *)


Lemma mesh_material_Some ms child r m :
  mesh_material ms child = Some (r, m) <-> node_ref child = Some r /\ ms !! r = Some m.
Proof.
  unfold mesh_material, node_ref.
  destruct (Node.isMesh child); [| split; [discriminate | intros [[=] _]]].
  destruct (Node.material child) as [r' |]; cbn;
    [| split; [discriminate | intros [[=] _]]].
  destruct (ms !! r') as [m' |] eqn:E; cbn.
  - split; [intros [= <- <-]; now split | intros [[= <-] Hm]; congruence].
  - split; [discriminate | intros [[= <-] Hm]; congruence].
Qed.

Lemma mesh_material_None ms child :
  mesh_material ms child = None <->
  node_ref child = None \/ exists r, node_ref child = Some r /\ ms !! r = None.
Proof.
  unfold mesh_material, node_ref.
  destruct (Node.isMesh child); [| split; [now left | reflexivity]].
  destruct (Node.material child) as [r' |]; cbn; [| split; [now left | reflexivity]].
  destruct (ms !! r') as [m' |] eqn:E; cbn.
  - split; [discriminate | intros [[=] | (r & [= <-] & Hm)]; congruence].
  - split; [right; now exists r' | reflexivity].
Qed.

Lemma insert_as_alter (f : Material.t -> Material.t) (r : nat) (m : Material.t)
    (ms : gmap nat Material.t) :
  ms !! r = Some m -> <[r := f m]> ms = alter f r ms.
Proof.
  intros H. apply map_eq. intros k. destruct (decide (k = r)) as [-> | Hne].
  - now rewrite lookup_insert_eq, lookup_alter_eq, H.
  - now rewrite lookup_insert_ne, lookup_alter_ne by congruence.
Qed.

Lemma alter_absent (f : Material.t -> Material.t) (r : nat) (ms : gmap nat Material.t) :
  ms !! r = None -> alter f r ms = ms.
Proof.
  intros H. apply map_eq. intros k. destruct (decide (k = r)) as [-> | Hne].
  - now rewrite lookup_alter_eq, H.
  - now rewrite lookup_alter_ne by congruence.
Qed.

(** A reset step is a write at the node's material, whatever the store. *)
Lemma resetColor_child_alter originalData ms child :
  resetColor_child originalData ms child =
    match node_ref child, find_snapshot originalData (Node.uuid child) with
    | Some r, Some orig => alter (restore_snapshot orig) r ms
    | _, _ => ms
    end.
Proof.
  unfold resetColor_child.
  destruct (mesh_material ms child) as [[r m] |] eqn:E.
  - apply mesh_material_Some in E as [-> Hm].
    destruct (find_snapshot _ _); [| reflexivity]. now apply insert_as_alter.
  - apply mesh_material_None in E as [-> | (r & -> & Hm)]; [reflexivity |].
    destruct (find_snapshot _ _); [| reflexivity]. now rewrite alter_absent.
Qed.

Lemma restore_merge later earlier m :
  restore_snapshot later (restore_snapshot earlier m) =
  restore_snapshot (merge_snapshot later earlier) m.
Proof.
  destruct later as [u2 [c2 |] [me2 |] [ro2 |] [op2 |]],
           earlier as [u1 [c1 |] [me1 |] [ro1 |] [op1 |]],
           m as [[c |] me ro op tr em ei cl]; reflexivity.
Qed.

Lemma merge_self s : merge_snapshot s s = s.
Proof. destruct s as [u [c |] [me |] [ro |] [op |]]; reflexivity. Qed.

Lemma restore_no_snapshot m : restore_snapshot no_snapshot m = m.
Proof. reflexivity. Qed.

Lemma lookup_reset originalData children :
  forall (ms ms0 : gmap nat Material.t) (r : nat) (acc : Snapshot.t),
  ms !! r = restore_snapshot acc <$> ms0 !! r ->
  foldl (resetColor_child originalData) ms children !! r =
    restore_snapshot (merged_at originalData r children acc) <$> ms0 !! r.
Proof.
  induction children as [| child rest IH]; intros ms ms0 r acc Hms; [exact Hms |].
  cbn [foldl merged_at]. apply IH. rewrite resetColor_child_alter.
  destruct (node_ref child) as [r' |]; [| exact Hms].
  destruct (find_snapshot originalData (Node.uuid child)) as [orig |]; [| exact Hms].
  case_decide as Hr.
  - subst r'. rewrite lookup_alter_eq, Hms.
    destruct (ms0 !! r); cbn; [| reflexivity]. now rewrite restore_merge.
  - now rewrite lookup_alter_ne.
Qed.

Lemma reset_twice originalData children (ms : gmap nat Material.t) :
  foldl (resetColor_child originalData)
    (foldl (resetColor_child originalData) ms children) children =
  foldl (resetColor_child originalData) ms children.
Proof.
  apply map_eq. intros r.
  rewrite (lookup_reset originalData children _
             (foldl (resetColor_child originalData) ms children) r no_snapshot)
    by now destruct (_ !! r).
  rewrite (lookup_reset originalData children ms ms r no_snapshot)
    by now destruct (ms !! r).
  destruct (ms !! r); cbn; [| reflexivity].
  now rewrite restore_merge, merge_self.
Qed.

Lemma resetColor_panel a : App.panel (_resetColor a) = App.panel a.
Proof.
  unfold _resetColor. destruct (panel_object a) as [[r o] |]; [| reflexivity].
  now destruct (_ !! Object3D.uuid o).
Qed.

Lemma resetColor_objects a : App.objects (_resetColor a) = App.objects a.
Proof.
  unfold _resetColor. destruct (panel_object a) as [[r o] |]; [| reflexivity].
  now destruct (_ !! Object3D.uuid o).
Qed.

(** A second reset in a row changes nothing. *)
Lemma resetColor_idempotent a : _resetColor (_resetColor a) = _resetColor a.
Proof.
  unfold _resetColor at 1.
  assert (Hpo : panel_object (_resetColor a) = panel_object a).
  { unfold panel_object. now rewrite resetColor_panel, resetColor_objects. }
  rewrite Hpo, resetColor_panel.
  destruct (panel_object a) as [[r o] |] eqn:Ho; [| reflexivity].
  destruct (PropertiesPanel.originalColors (App.panel a) !! Object3D.uuid o)
    as [originalData |] eqn:Hs; [| reflexivity].
  unfold _resetColor. rewrite Ho, Hs.
  unfold App.set_materials. cbn [App.materials App.objects App.container App.appState
    App.selection App.panel App.placement App.orbitEnabled App.localStorage].
  now rewrite reset_twice.
Qed.

(** Without a snapshot for the selected item, a reset changes nothing. *)
Lemma resetColor_without_snapshot a :
  (forall r o, panel_object a = Some (r, o) ->
     PropertiesPanel.originalColors (App.panel a) !! Object3D.uuid o = None) ->
  _resetColor a = a.
Proof.
  intros H. unfold _resetColor.
  destruct (panel_object a) as [[r o] |] eqn:Ho; [| reflexivity].
  now rewrite (H r o).
Qed.
(** *** The edit callbacks *)

Lemma applyColor_child_mutate c ms child :
  applyColor_child c ms child = mutate_child (write_color c) ms child.
Proof.
  unfold applyColor_child, mutate_child.
  destruct (mesh_material ms child) as [[r m] |] eqn:E; [| reflexivity].
  apply mesh_material_Some in E as [_ Hm].
  unfold clone_if_shared, alloc_material, write_color.
  destruct (Material._isCloned m).
  - destruct (Material.color m); [reflexivity |]. now rewrite insert_id.
  - cbn. destruct (Material.color m); [reflexivity |]. now rewrite insert_insert_eq.
Qed.

Lemma applyMaterial_child_mutate me ro ms child :
  applyMaterial_child me ro ms child = mutate_child (write_material me ro) ms child.
Proof.
  unfold applyMaterial_child, mutate_child.
  destruct (mesh_material ms child) as [[r m] |]; [| reflexivity].
  now destruct (clone_if_shared ms child r m) as [[[ms1 c1] r1] m1].
Qed.

Lemma applyOpacity_child_mutate q ms child :
  applyOpacity_child q ms child = mutate_child (write_opacity q) ms child.
Proof.
  unfold applyOpacity_child, mutate_child.
  destruct (mesh_material ms child) as [[r m] |]; [| reflexivity].
  now destruct (clone_if_shared ms child r m) as [[[ms1 c1] r1] m1].
Qed.

Lemma traverse_update_ext f g :
  (forall ms child, f ms child = g ms child) ->
  forall children ms, traverse_update f ms children = traverse_update g ms children.
Proof.
  intros Hfg. induction children as [| child rest IH]; intros ms; [reflexivity |].
  cbn. rewrite Hfg. destruct (g ms child) as [ms1 child']. now rewrite IH.
Qed.

Lemma set_isCloned_flagged m :
  Material._isCloned m = true -> Material.set_isCloned true m = m.
Proof. destruct m as [c me ro op tr em ei cl]. cbn. now intros ->. Qed.

Lemma fresh_material_absent (ms : gmap nat Material.t) : ms !! fresh (dom ms) = None.
Proof. apply not_elem_of_dom, is_fresh. Qed.

(** One edit step on a node whose material exists. *)
Lemma mutate_child_step w ms n r m :
  node_ref n = Some r -> ms !! r = Some m ->
  exists r' n',
    mutate_child w ms n = (<[r' := w (Material.set_isCloned true m)]> ms, n') /\
    Node.name n' = Node.name n /\ Node.uuid n' = Node.uuid n /\
    Node.isMesh n' = Node.isMesh n /\ node_ref n' = Some r' /\
    ((r' = r /\ Material._isCloned m = true) \/ ms !! r' = None).
Proof.
  intros Hr Hm. unfold mutate_child.
  assert (E : mesh_material ms n = Some (r, m)) by now apply mesh_material_Some.
  rewrite E. unfold clone_if_shared, alloc_material.
  destruct (Material._isCloned m) eqn:Hc.
  - exists r, n. rewrite set_isCloned_flagged by exact Hc.
    repeat split; try reflexivity; [exact Hr | now left].
  - exists (fresh (dom ms)), (Node.set_material (Some (fresh (dom ms))) n).
    cbn. rewrite insert_insert_eq. repeat split.
    + unfold node_ref in *. cbn. now destruct (Node.isMesh n).
    + right. apply fresh_material_absent.
Qed.

Lemma mutate_child_skip w ms n :
  node_ref n = None -> mutate_child w ms n = (ms, n).
Proof.
  intros Hr. unfold mutate_child.
  assert (E : mesh_material ms n = None) by (apply mesh_material_None; now left).
  now rewrite E.
Qed.
Lemma Forall2_impl_elem {A B} (P Q : A -> B -> Prop) (l : list A) (k : list B) :
  Forall2 P l k -> (forall x y, x ∈ l -> P x y -> Q x y) -> Forall2 Q l k.
Proof.
  induction 1 as [| x y l k Hxy _ IH]; intros Himp; constructor.
  - apply Himp; [left | exact Hxy].
  - apply IH. intros x' y' Hin. apply Himp. now right.
Qed.

Lemma omap_cons {A B} (f : A -> option B) (x : A) (l : list A) :
  omap f (x :: l) = match f x with Some y => y :: omap f l | None => omap f l end.
Proof. reflexivity. Qed.

(** The effect of an edit traversal over the nodes of a well-formed item:
    every mesh ends with a material of its own, written by [w]. *)
Lemma traverse_mutate w : forall (ns : list Node.t) (ms : gmap nat Material.t),
  (forall n r, n ∈ ns -> node_ref n = Some r -> is_Some (ms !! r)) ->
  (forall i j n1 n2 r m,
     i <> j -> ns !! i = Some n1 -> ns !! j = Some n2 ->
     node_ref n1 = Some r -> node_ref n2 = Some r ->
     ms !! r = Some m -> Material._isCloned m = false) ->
  exists ms' ns',
    traverse_update (mutate_child w) ms ns = (ms', ns') /\
    Forall2 (mutated w ms ms') ns ns' /\
    NoDup (omap node_ref ns') /\
    (forall k, is_Some (ms !! k) -> (forall n, n ∈ ns -> node_ref n <> Some k) ->
               ms' !! k = ms !! k) /\
    (forall k, is_Some (ms !! k) -> is_Some (ms' !! k)).
Proof.
  induction ns as [| n rest IH]; intros ms Halloc Hsep.
  { exists ms, []. repeat split; auto; constructor. }
  cbn [traverse_update].
  destruct (node_ref n) as [r |] eqn:Hr.
  - destruct (Halloc n r) as [m Hm]; [left | exact Hr |].
    destruct (mutate_child_step w ms n r m Hr Hm)
      as (r' & n' & Hstep & Hname & Huuid & Hmesh & Hr' & Hfresh).
    rewrite Hstep. set (ms1 := <[r' := w (Material.set_isCloned true m)]> ms).
    assert (F1 : forall nj rj, nj ∈ rest -> node_ref nj = Some rj -> rj <> r').
    { intros nj rj Hin Hrj ->.
      destruct Hfresh as [[-> Hflag] | Habsent].
      - apply list_elem_of_lookup in Hin as [j Hj].
        pose proof (Hsep 0%nat (S j) n nj r m) as Hs.
        rewrite Hs in Hflag; auto; discriminate.
      - destruct (Halloc nj r') as [x Hx]; [now right | exact Hrj | congruence]. }
    destruct (IH ms1) as (ms' & ns' & Htr & Hall & Hnd & Hframe & Hdom).
    { intros nj rj Hin Hrj. subst ms1.
      rewrite lookup_insert_ne by (intros ->; now apply (F1 nj rj)).
      apply (Halloc nj rj); [now right | exact Hrj]. }
    { intros i j n1 n2 rx mx Hij H1 H2 Hr1 Hr2 Hmx.
      assert (rx <> r').
      { apply (F1 n1 rx); [| exact Hr1]. apply list_elem_of_lookup. now exists i. }
      subst ms1. rewrite lookup_insert_ne in Hmx by congruence.
      apply (Hsep (S i) (S j) n1 n2 rx mx); auto. }
    rewrite Htr. exists ms', (n' :: ns').
    assert (Hhead : ms' !! r' = Some (w (Material.set_isCloned true m))).
    { rewrite Hframe.
      - subst ms1. apply lookup_insert_eq.
      - subst ms1. rewrite lookup_insert_eq. eauto.
      - intros nj Hin Hj. now apply (F1 nj r' Hin Hj). }
    split; [reflexivity |]. split; [| split; [| split]].
    + constructor.
      * unfold mutated. rewrite Hr. repeat split; auto.
        exists r', m. repeat split; auto.
        destruct Hfresh as [[-> _] | Habsent]; auto.
      * eapply Forall2_impl_elem; [exact Hall |].
        intros nj nj' Hin (Hn & Hu & Hi & Hcase). repeat split; auto.
        destruct (node_ref nj) as [rj |] eqn:Hrj; [| exact Hcase].
        destruct Hcase as (rj' & mj & Hmj & Hrj' & Hmj' & Hor).
        exists rj', mj. subst ms1.
        rewrite lookup_insert_ne in Hmj by (intros ->; now apply (F1 nj rj)).
        repeat split; auto.
        destruct Hor as [-> | Hab]; [now left | right].
        now apply lookup_insert_None in Hab as [Hab _].
    + rewrite omap_cons, Hr'. constructor; [| exact Hnd].
      intros Hin. apply list_elem_of_omap in Hin as (nj' & Hin' & Hj').
      apply list_elem_of_lookup in Hin' as [j Hj].
      destruct (Forall2_lookup_r _ _ _ _ _ Hall Hj) as (nj & Hnj & (_ & _ & _ & Hcase)).
      destruct (node_ref nj) as [rj |] eqn:Hrj.
      * destruct Hcase as (rj' & mj & Hmj & Hrj' & Hmj' & Hor).
        assert (rj' = r') by congruence. subst rj'.
        destruct Hor as [-> | Hab].
        -- apply (F1 nj rj); [| exact Hrj | reflexivity].
           apply list_elem_of_lookup. now exists j.
        -- subst ms1. now rewrite lookup_insert_eq in Hab.
      * subst nj'. congruence.
    + intros k Hk Hnot.
      assert (k <> r').
      { intros ->. destruct Hfresh as [[-> _] | Habsent].
        - apply (Hnot n); [left | exact Hr].
        - destruct Hk as [x Hx]. congruence. }
      rewrite Hframe.
      * subst ms1. now rewrite lookup_insert_ne.
      * subst ms1. now rewrite lookup_insert_ne.
      * intros nj Hin. apply Hnot. now right.
    + intros k Hk. apply Hdom. subst ms1.
      destruct (decide (k = r')) as [-> | Hne].
      * rewrite lookup_insert_eq. eauto.
      * now rewrite lookup_insert_ne.
  - rewrite (mutate_child_skip w ms n Hr).
    destruct (IH ms) as (ms' & ns' & Htr & Hall & Hnd & Hframe & Hdom).
    { intros nj rj Hin. apply Halloc. now right. }
    { intros i j n1 n2 rx mx Hij H1 H2. apply (Hsep (S i) (S j)); auto. }
    rewrite Htr. exists ms', (n :: ns').
    split; [reflexivity |]. split; [| split; [| split]].
    + constructor; [| exact Hall]. unfold mutated. now rewrite Hr.
    + now rewrite omap_cons, Hr.
    + intros k Hk Hnot. apply Hframe; [exact Hk |].
      intros nj Hin. apply Hnot. now right.
    + exact Hdom.
Qed.
Lemma same_channels_refl m : same_channels m m.
Proof. repeat split; auto. Qed.

Lemma same_channels_trans m1 m2 m3 :
  same_channels m1 m2 -> same_channels m2 m3 -> same_channels m1 m3.
Proof.
  intros (Hc & Hm & Hr) (Hc' & Hm' & Hr'). repeat split; auto.
  - intros H. now apply Hc', Hc.
  - intros H. now apply Hc, Hc'.
Qed.

Lemma same_channels_flag m : same_channels m (Material.set_isCloned true m).
Proof. destruct m. repeat split; auto. Qed.

Lemma writer_of_ok m : writer_ok (writer_of m).
Proof.
  intros [[c |] [me |] [ro |] op tr em ei cl]; destruct m as [c' | preset | q]; cbn;
    (split; [repeat split; cbn; try discriminate; eauto; intros [x [=]] | reflexivity]).
Qed.

Lemma tracks_first w ms ms' n n' :
  writer_ok w -> mutated w ms ms' n n' -> tracks ms ms' n n'.
Proof.
  intros Hw (Hn & Hu & Hi & Hcase). repeat split; auto.
  destruct (node_ref n) as [r |]; [| exact Hcase].
  destruct Hcase as (r' & m & Hm & Hr' & Hm' & _).
  exists r', m, (w (Material.set_isCloned true m)).
  destruct (Hw (Material.set_isCloned true m)) as [Hch Hfl].
  refine (conj Hm (conj Hr' (conj Hm' (conj _ _)))).
  - eapply same_channels_trans; [apply same_channels_flag | exact Hch].
  - rewrite Hfl. now destruct m.
Qed.

Lemma tracks_step w ms0 ms ms' n0 n n' :
  writer_ok w -> tracks ms0 ms n0 n -> mutated w ms ms' n n' -> tracks ms0 ms' n0 n'.
Proof.
  intros Hw (Hn & Hu & Hi & Hcase) (Hn' & Hu' & Hi' & Hcase').
  repeat split; try congruence.
  destruct (node_ref n0) as [r0 |] eqn:Hr0.
  - destruct Hcase as (r & m0 & m & Hm0 & Hr & Hm & Hch & Hfl).
    rewrite Hr in Hcase'. destruct Hcase' as (r' & m_ & Hm_ & Hr' & Hm' & _).
    assert (m_ = m) by congruence. subst m_.
    exists r', m0, (w (Material.set_isCloned true m)).
    destruct (Hw (Material.set_isCloned true m)) as [Hch' Hfl'].
    refine (conj Hm0 (conj Hr' (conj Hm' (conj _ _)))).
    + eapply same_channels_trans; [exact Hch |].
      eapply same_channels_trans; [apply same_channels_flag | exact Hch'].
    + rewrite Hfl'. now destruct m.
  - subst n. rewrite Hr0 in Hcase'. now subst n'.
Qed.

Lemma NoDup_omap_lookup {A B} (f : A -> option B) (l : list A) :
  NoDup (omap f l) ->
  forall i j x y z, l !! i = Some x -> l !! j = Some y ->
                    f x = Some z -> f y = Some z -> i = j.
Proof.
  induction l as [| a l IH]; intros Hnd i j x y z Hi Hj Hx Hy; [discriminate |].
  rewrite omap_cons in Hnd.
  assert (Hin : forall k v, l !! k = Some v -> f v = Some z -> z ∈ omap f l).
  { intros k v Hk Hv. apply list_elem_of_omap. exists v. split; [| exact Hv].
    apply list_elem_of_lookup. now exists k. }
  destruct i as [| i], j as [| j]; cbn in Hi, Hj.
  - reflexivity.
  - injection Hi as ->. rewrite Hx in Hnd. apply NoDup_cons in Hnd as [Hnot _].
    exfalso. apply Hnot. now apply (Hin j y).
  - injection Hj as ->. rewrite Hy in Hnd. apply NoDup_cons in Hnd as [Hnot _].
    exfalso. apply Hnot. now apply (Hin i x).
  - f_equal. apply (IH (ltac:(destruct (f a); [now apply NoDup_cons in Hnd |
                                                exact Hnd])) i j x y z); auto.
Qed.

(** An edited item is well formed for the next edit. *)
Lemma tracks_alloc ms0 ms ns0 ns :
  Forall2 (tracks ms0 ms) ns0 ns ->
  forall n r, n ∈ ns -> node_ref n = Some r -> is_Some (ms !! r).
Proof.
  intros Hall n r Hin Hr. apply list_elem_of_lookup in Hin as [i Hi].
  destruct (Forall2_lookup_r _ _ _ _ _ Hall Hi) as (n0 & _ & (_ & _ & _ & Hcase)).
  destruct (node_ref n0) as [r0 |] eqn:Hr0.
  - destruct Hcase as (r' & m0 & m & _ & Hr' & Hm & _).
    assert (r' = r) by congruence. subst. eauto.
  - subst n. congruence.
Qed.
(** *** Edits on the application state *)

Lemma Forall2_mutated_nodes w ms ms' o ns' :
  Forall2 (mutated w ms ms') (Object3D.nodes o) ns' ->
  Object3D.nodes (Object3D.set_nodes ns' o) = ns' /\
  Object3D.uuid (Object3D.set_nodes ns' o) = Object3D.uuid o.
Proof.
  unfold Object3D.nodes. intros Hall.
  inversion Hall as [| n n' l l' (Hn & Hu & _) Hrest]; subst. now split.
Qed.

Lemma traverse_object_ext f g r o a :
  (forall ms child, f ms child = g ms child) ->
  traverse_object f r o a = traverse_object g r o a.
Proof.
  intros Hfg. unfold traverse_object. now rewrite (traverse_update_ext f g Hfg).
Qed.

Lemma panel_object_Some a r o :
  PropertiesPanel.selectedObject (App.panel a) = Some r ->
  App.objects a !! r = Some o ->
  panel_object a = Some (r, o).
Proof. intros Hs Ho. unfold panel_object. rewrite Hs. cbn. now rewrite Ho. Qed.

(** Every edit is its traversal, after the snapshot when the edit takes one. *)
Lemma mutate_unfold a m r o :
  panel_object a = Some (r, o) ->
  mutate a m =
    traverse_object (mutate_child (writer_of m)) r o
      (if takes_snapshot m then _storeOriginalColors a else a).
Proof.
  intros Hpo. destruct m as [c | preset | q]; cbn.
  - unfold _applyColor. rewrite Hpo.
    apply traverse_object_ext, applyColor_child_mutate.
  - unfold _applyMaterial. rewrite Hpo.
    destruct (preset_settings preset) as [me ro]. cbn.
    apply traverse_object_ext, applyMaterial_child_mutate.
  - unfold _applyOpacity. rewrite Hpo.
    apply traverse_object_ext, applyOpacity_child_mutate.
Qed.

Lemma store_kept a r o snap :
  panel_object a = Some (r, o) ->
  PropertiesPanel.originalColors (App.panel a) !! Object3D.uuid o = Some snap ->
  _storeOriginalColors a = a.
Proof. intros Hpo Hs. unfold _storeOriginalColors. now rewrite Hpo, Hs. Qed.

Lemma store_fresh a r o :
  panel_object a = Some (r, o) ->
  PropertiesPanel.originalColors (App.panel a) !! Object3D.uuid o = None ->
  let b := _storeOriginalColors a in
  App.materials b = App.materials a /\ App.objects b = App.objects a /\
  PropertiesPanel.selectedObject (App.panel b) =
    PropertiesPanel.selectedObject (App.panel a) /\
  PropertiesPanel.originalColors (App.panel b) !! Object3D.uuid o =
    Some (omap (snapshot_child (App.materials a)) (Object3D.nodes o)).
Proof.
  intros Hpo Hs. unfold _storeOriginalColors. rewrite Hpo, Hs. cbn.
  repeat split. apply lookup_insert_eq.
Qed.

(** The state after an edit traversal over the selected item. *)
Lemma traverse_object_edited w (pre : Node.t -> Node.t -> Prop) ms0 ns0 r snap b o :
  PropertiesPanel.selectedObject (App.panel b) = Some r ->
  App.objects b !! r = Some o ->
  PropertiesPanel.originalColors (App.panel b) !! Object3D.uuid o = Some snap ->
  (forall n k, n ∈ Object3D.nodes o -> node_ref n = Some k ->
               is_Some (App.materials b !! k)) ->
  (forall i j n1 n2 k m,
     i <> j -> Object3D.nodes o !! i = Some n1 -> Object3D.nodes o !! j = Some n2 ->
     node_ref n1 = Some k -> node_ref n2 = Some k ->
     App.materials b !! k = Some m -> Material._isCloned m = false) ->
  (forall ms' n0 n n', pre n0 n -> mutated w (App.materials b) ms' n n' ->
                       tracks ms0 ms' n0 n') ->
  Forall2 pre ns0 (Object3D.nodes o) ->
  edited ms0 ns0 r (Object3D.uuid o) snap (traverse_object (mutate_child w) r o b).
Proof.
  intros Hsel Hobj Hsnap Halloc Hsep Hstep Hpre.
  destruct (traverse_mutate w (Object3D.nodes o) (App.materials b) Halloc Hsep)
    as (ms' & ns' & Heq & Hall & Hnd & _ & _).
  destruct (Forall2_mutated_nodes _ _ _ _ _ Hall) as [Hnodes Huuid].
  unfold traverse_object. rewrite Heq.
  split; [exact Hsel |].
  exists (Object3D.set_nodes ns' o).
  split; [cbn; apply lookup_insert_eq |].
  split; [exact Huuid |]. split; [exact Hsnap |].
  rewrite Hnodes. split; [| exact Hnd].
  cbn [App.materials App.set_objects App.set_materials].
  eapply Forall2_trans; [| exact Hpre | exact Hall].
  intros n0 n n'. apply Hstep.
Qed.

Lemma mutate_later ms0 ns0 r u snap a m :
  edited ms0 ns0 r u snap a -> edited ms0 ns0 r u snap (mutate a m).
Proof.
  intros (Hsel & o & Hobj & <- & Hsnap & Htr & Hnd).
  pose proof (panel_object_Some a r o Hsel Hobj) as Hpo.
  rewrite (mutate_unfold a m r o Hpo).
  replace (if takes_snapshot m then _storeOriginalColors a else a) with a
    by (destruct (takes_snapshot m); [now rewrite (store_kept a r o snap) | reflexivity]).
  apply (traverse_object_edited _ (tracks ms0 (App.materials a))); auto.
  - now apply (tracks_alloc ms0 _ ns0).
  - intros i j n1 n2 k m' Hij H1 H2 Hr1 Hr2 _.
    exfalso. apply Hij. now apply (NoDup_omap_lookup node_ref _ Hnd i j n1 n2 k).
  - intros ms' n0 n n' Hpre Hmut.
    now apply (tracks_step (writer_of m) ms0 (App.materials a) ms' n0 n n' (writer_of_ok m)).
Qed.

Lemma mutate_first a r o m :
  PropertiesPanel.selectedObject (App.panel a) = Some r ->
  App.objects a !! r = Some o ->
  PropertiesPanel.originalColors (App.panel a) !! Object3D.uuid o = None ->
  takes_snapshot m = true ->
  item_well_formed (App.materials a) (Object3D.nodes o) ->
  edited (App.materials a) (Object3D.nodes o) r (Object3D.uuid o)
    (omap (snapshot_child (App.materials a)) (Object3D.nodes o)) (mutate a m).
Proof.
  intros Hsel Hobj Hnone Htakes (Huuid & Halloc & Hsep).
  pose proof (panel_object_Some a r o Hsel Hobj) as Hpo.
  rewrite (mutate_unfold a m r o Hpo), Htakes.
  destruct (store_fresh a r o Hpo Hnone) as (Hms & Hos & Hps & Hsnap).
  set (b := _storeOriginalColors a) in *.
  rewrite <- Hms.
  apply (traverse_object_edited _ eq); try rewrite Hms; auto; try congruence.
  - intros ms' n0 n n' <- Hmut.
    now apply (tracks_first (writer_of m) _ ms' n0 n' (writer_of_ok m)).
  - clear. induction (Object3D.nodes o); now constructor.
Qed.
(** *** Reset after edits *)

Lemma find_snapshot_cons s l u :
  find_snapshot (s :: l) u =
    if decide (Snapshot.uuid s = u) then Some s else find_snapshot l u.
Proof.
  unfold find_snapshot. cbn. case_decide; [reflexivity |].
  now destruct (list_find _ l) as [[i x] |].
Qed.

Lemma snapshot_child_uuid ms n s :
  snapshot_child ms n = Some s -> Snapshot.uuid s = Node.uuid n.
Proof.
  unfold snapshot_child. destruct (mesh_material ms n) as [[r m] |]; [| discriminate].
  cbn. now intros [= <-].
Qed.

(** With distinct identifiers, a node finds its own snapshot entry. *)
Lemma find_snapshot_own ms0 (ns0 : list Node.t) :
  NoDup (Node.uuid <$> ns0) ->
  forall n0 s, n0 ∈ ns0 -> snapshot_child ms0 n0 = Some s ->
    find_snapshot (omap (snapshot_child ms0) ns0) (Node.uuid n0) = Some s.
Proof.
  induction ns0 as [| x l IH]; intros Hnd n0 s Hin Hs; [now apply elem_of_nil in Hin |].
  rewrite fmap_cons in Hnd. apply NoDup_cons in Hnd as [Hx Hnd].
  rewrite omap_cons. apply elem_of_cons in Hin as [-> | Hin].
  - rewrite Hs, find_snapshot_cons.
    rewrite (snapshot_child_uuid ms0 x s Hs). now case_decide.
  - assert (Hne : Node.uuid x <> Node.uuid n0).
    { intros Heq. apply Hx. rewrite Heq. now apply list_elem_of_fmap_2. }
    destruct (snapshot_child ms0 x) as [sx |] eqn:Hsx; [| now apply IH].
    rewrite find_snapshot_cons, (snapshot_child_uuid ms0 x sx Hsx).
    case_decide; [congruence | now apply IH].
Qed.

Lemma merged_at_skip originalData r (ns : list Node.t) : forall acc,
  r ∉ omap node_ref ns -> merged_at originalData r ns acc = acc.
Proof.
  induction ns as [| x l IH]; intros acc Hnot; [reflexivity |].
  cbn [merged_at]. rewrite omap_cons in Hnot.
  destruct (node_ref x) as [rx |]; [| now apply IH].
  apply not_elem_of_cons in Hnot as [Hne Hnot].
  destruct (find_snapshot _ _); [| now apply IH].
  case_decide; [congruence | now apply IH].
Qed.

(** With materials of their own, the steps of a reset at the material of
    a node are the one step of that node. *)
Lemma merged_at_unique originalData (ns : list Node.t) :
  NoDup (omap node_ref ns) ->
  forall n r acc, n ∈ ns -> node_ref n = Some r ->
    merged_at originalData r ns acc =
      match find_snapshot originalData (Node.uuid n) with
      | Some orig => merge_snapshot orig acc
      | None => acc
      end.
Proof.
  induction ns as [| x l IH]; intros Hnd n r acc Hin Hr; [now apply elem_of_nil in Hin |].
  cbn [merged_at]. rewrite omap_cons in Hnd.
  apply elem_of_cons in Hin as [-> | Hin].
  - rewrite Hr in Hnd |- *. apply NoDup_cons in Hnd as [Hnot _].
    rewrite merged_at_skip by exact Hnot.
    destruct (find_snapshot _ _); [| reflexivity]. now case_decide.
  - destruct (node_ref x) as [rx |] eqn:Hrx; [| now apply IH].
    apply NoDup_cons in Hnd as [Hnot Hnd].
    assert (rx <> r).
    { intros ->. apply Hnot, list_elem_of_omap. now exists n. }
    destruct (find_snapshot originalData (Node.uuid x)); [| now apply IH].
    case_decide; [congruence | now apply IH].
Qed.

(** Restoring a clone from the snapshot of its original gives the original
    appearance back. *)
Lemma restore_appearance u m0 m :
  same_channels m0 m ->
  appearance
    (restore_snapshot
       (merge_snapshot
          (Snapshot.mk u (Material.color m0) (Material.metalness m0)
             (Material.roughness m0) (Some (Material.opacity m0))) no_snapshot) m) =
  appearance m0.
Proof.
  destruct m0 as [[c0 |] [me0 |] [ro0 |] op0 tr0 em0 ei0 cl0],
           m as [[c |] [me |] [ro |] op tr em ei cl];
    intros (Hc & Hm & Hr); cbn in *; try reflexivity;
    try (now specialize (Hm eq_refl)); try (now specialize (Hr eq_refl));
    try (destruct (proj1 Hc (ex_intro _ _ eq_refl)) as [? [=]]);
    try (destruct (proj2 Hc (ex_intro _ _ eq_refl)) as [? [=]]).
Qed.

Lemma Forall2_impl_elem2 {A B} (P Q : A -> B -> Prop) (l : list A) (k : list B) :
  Forall2 P l k -> (forall x y, x ∈ l -> y ∈ k -> P x y -> Q x y) -> Forall2 Q l k.
Proof.
  induction 1 as [| x y l k Hxy _ IH]; intros Himp; constructor.
  - apply Himp; [left | left | exact Hxy].
  - apply IH. intros x' y' Hin Hin'. apply Himp; now right.
Qed.

Lemma node_appearance_no_ref ms n : node_ref n = None -> node_appearance ms n = None.
Proof.
  intros Hr. unfold node_appearance.
  assert (E : mesh_material ms n = None) by (apply mesh_material_None; now left).
  now rewrite E.
Qed.

(** A reset of an edited item gives every node the appearance it had before
    the first edit. *)
Lemma reset_edited ms0 ns0 r u a :
  NoDup (Node.uuid <$> ns0) ->
  edited ms0 ns0 r u (omap (snapshot_child ms0) ns0) a ->
  item_appearance (_resetColor a) r = Some (node_appearance ms0 <$> ns0).
Proof.
  intros Huuid (Hsel & o & Hobj & <- & Hsnap & Htr & Hnd).
  pose proof (panel_object_Some a r o Hsel Hobj) as Hpo.
  unfold _resetColor. rewrite Hpo, Hsnap.
  unfold item_appearance, App.set_materials. cbn [App.objects App.materials].
  rewrite Hobj. cbn [mbind option_bind]. f_equal.
  apply list_eq_Forall2. apply Forall2_fmap. apply Forall2_flip.
  eapply Forall2_impl_elem2; [exact Htr |].
  intros n0 n Hin0 Hin (Hn & Hu & Hi & Hcase). unfold flip.
  destruct (node_ref n0) as [r0 |] eqn:Hr0.
  - destruct Hcase as (rr & m0 & m & Hm0 & Hrr & Hm & Hch & Hfl).
    assert (E0 : mesh_material ms0 n0 = Some (r0, m0)) by now apply mesh_material_Some.
    unfold node_appearance at 2. rewrite E0. cbn [fmap option_fmap option_map snd].
    set (snap := omap (snapshot_child ms0) ns0).
    assert (Hlook :
      foldl (resetColor_child snap) (App.materials a) (Object3D.nodes o) !! rr =
      Some (restore_snapshot
              (merge_snapshot
                 (Snapshot.mk (Node.uuid n0) (Material.color m0) (Material.metalness m0)
                    (Material.roughness m0) (Some (Material.opacity m0)))
                 no_snapshot) m)).
    { rewrite (lookup_reset snap (Object3D.nodes o) (App.materials a) (App.materials a)
                 rr no_snapshot) by now destruct (_ !! rr).
      rewrite Hm. cbn [fmap option_fmap option_map]. f_equal.
      rewrite (merged_at_unique snap _ Hnd n rr no_snapshot Hin Hrr), Hu.
      subst snap. rewrite (find_snapshot_own ms0 ns0 Huuid n0
        (Snapshot.mk (Node.uuid n0) (Material.color m0) (Material.metalness m0)
           (Material.roughness m0) (Some (Material.opacity m0)))); auto.
      unfold snapshot_child. now rewrite E0. }
    unfold node_appearance.
    assert (E : mesh_material
                  (foldl (resetColor_child snap) (App.materials a) (Object3D.nodes o)) n =
                Some (rr, restore_snapshot
              (merge_snapshot
                 (Snapshot.mk (Node.uuid n0) (Material.color m0) (Material.metalness m0)
                    (Material.roughness m0) (Some (Material.opacity m0)))
                 no_snapshot) m)) by now apply mesh_material_Some.
    rewrite E. cbn [fmap option_fmap option_map snd]. f_equal.
    now apply restore_appearance.
  - subst n. now rewrite !node_appearance_no_ref.
Qed.

Lemma mutate_all_later ms0 ns0 r u snap (later : list Mutation) : forall a,
  edited ms0 ns0 r u snap a -> edited ms0 ns0 r u snap (foldl mutate a later).
Proof.
  induction later as [| m later IH]; intros a He; [exact He |].
  cbn. apply IH. now apply mutate_later.
Qed.

(** Edits that start with a colour or a material preset, then a reset: the
    item looks as it did before the first edit. *)
Lemma reset_restores_original a r o first later :
  PropertiesPanel.selectedObject (App.panel a) = Some r ->
  App.objects a !! r = Some o ->
  PropertiesPanel.originalColors (App.panel a) !! Object3D.uuid o = None ->
  takes_snapshot first = true ->
  item_well_formed (App.materials a) (Object3D.nodes o) ->
  item_appearance (_resetColor (foldl mutate (mutate a first) later)) r =
  item_appearance a r.
Proof.
  intros Hsel Hobj Hnone Htakes Hwf.
  pose proof (mutate_first a r o first Hsel Hobj Hnone Htakes Hwf) as He.
  apply (mutate_all_later _ _ _ _ _ later) in He.
  rewrite (reset_edited _ _ _ _ _ (proj1 Hwf) He).
  unfold item_appearance. now rewrite Hobj.
Qed.
Lemma item_check_sound ms ns : item_check ms ns = true -> item_well_formed ms ns.
Proof.
  unfold item_check. intros H.
  apply andb_prop in H as [H Hsep]. apply andb_prop in H as [Huuid Halloc].
  apply bool_decide_eq_true in Huuid, Hsep.
  split; [exact Huuid |]. split.
  - intros n r Hin Hr. rewrite forallb_forall in Halloc.
    specialize (Halloc n (proj1 (list_elem_of_In _ _) Hin)). rewrite Hr in Halloc.
    destruct (ms !! r); [eauto | discriminate].
  - intros i j n1 n2 r m Hij H1 H2 Hr1 Hr2 Hm.
    destruct (Material._isCloned m) eqn:Hc; [| reflexivity].
    exfalso. apply Hij.
    apply (NoDup_omap_lookup (private_ref ms) ns Hsep i j n1 n2 r H1 H2);
      unfold private_ref; rewrite ?Hr1, ?Hr2; cbn; rewrite Hm; cbn; now rewrite Hc.
Qed.

Lemma chair_picked_pristine o :
  App.objects chair_picked !! 0%nat = Some o ->
  pristine (App.materials chair_picked) (Object3D.nodes o).
Proof.
  intros Ho. vm_compute in Ho. injection Ho as <-. intros n r m Hin Hm.
  unfold Object3D.nodes in Hin. cbn [Object3D.self Object3D.descendants] in Hin.
  repeat match goal with
         | H : _ ∈ _ :: _ |- _ => apply elem_of_cons in H as [-> | H]
         | H : _ ∈ [] |- _ => apply elem_of_nil in H; contradiction
         end;
    vm_compute in Hm; try discriminate; injection Hm as <- <-; reflexivity.
Qed.

(** C8, as amended. The statement is about the selected item as long as
    no edit has touched it (no snapshot under its uuid, no material of it
    carrying the clone flag). When the first edit of such an item is a
    colour or a material preset, a reset after any further edits gives
    every sub-mesh the colour, metalness, roughness and opacity it had
    before that first edit. The reset keeps the snapshot instead of
    clearing it. On an item that was never edited a reset changes nothing,
    and a second reset in a row changes nothing. What a reset does to an
    item whose first edit is an opacity edit is not part of the
    statement. *)
Theorem reset_to_original :
  (forall a r o first later,
     PropertiesPanel.selectedObject (App.panel a) = Some r ->
     App.objects a !! r = Some o ->
     PropertiesPanel.originalColors (App.panel a) !! Object3D.uuid o = None ->
     pristine (App.materials a) (Object3D.nodes o) ->
     takes_snapshot first = true ->
     item_well_formed (App.materials a) (Object3D.nodes o) ->
     item_appearance (_resetColor (foldl mutate (mutate a first) later)) r =
     item_appearance a r) /\
  (forall a, App.panel (_resetColor a) = App.panel a) /\
  (forall a,
     (forall r o, panel_object a = Some (r, o) ->
        PropertiesPanel.originalColors (App.panel a) !! Object3D.uuid o = None /\
        pristine (App.materials a) (Object3D.nodes o)) ->
     _resetColor a = a) /\
  (forall a, _resetColor (_resetColor a) = _resetColor a).
Proof.
  split.
  { intros a r o first later Hsel Hobj Hnone _. now apply reset_restores_original. }
  split; [exact resetColor_panel |].
  split; [| exact resetColor_idempotent].
  intros a H. apply resetColor_without_snapshot. intros r o Hpo. now apply (H r o).
Qed.

Lemma reset_to_original_witness :
  item_appearance
    (_resetColor
       (foldl mutate (mutate chair_picked (SetColor red))
          [SetOpacity 0.5; SetMaterial "metallic"])) 0 =
  item_appearance chair_picked 0.
Proof.
  destruct reset_to_original as [Hrestore _].
  destruct (App.objects chair_picked !! 0%nat) as [o |] eqn:Ho;
    [| vm_compute in Ho; discriminate].
  apply (Hrestore chair_picked 0%nat o).
  - vm_compute. reflexivity.
  - exact Ho.
  - vm_compute in Ho. injection Ho as <-. vm_compute. reflexivity.
  - now apply chair_picked_pristine.
  - reflexivity.
  - vm_compute in Ho. injection Ho as <-. apply item_check_sound. vm_compute. reflexivity.
Defined.

(** C8 as stated fails: the reset does not clear the snapshot. After a
    colour edit and a reset of the picked chair, the snapshot of the chair
    (six entries, one per mesh) is still stored under its uuid. *)
Lemma reset_keeps_snapshot :
  let before := chair_picked in
  let after := _resetColor (_applyColor red before) in
  PropertiesPanel.originalColors (App.panel before) !! "uuid-0-0" = None /\
  exists snap,
    PropertiesPanel.originalColors (App.panel after) !! "uuid-0-0" = Some snap /\
    length snap = 6%nat.
Proof.
  split; [vm_compute; reflexivity |].
  eexists. split; vm_compute; reflexivity.
Qed.
(** ** Saving and loading a layout *)

(** *** Materials entering the store *)

Lemma alloc_materials_spec (table : list Material.t) :
  forall (ms ms1 : gmap nat Material.t) (refs : list nat),
  alloc_materials table ms = (refs, ms1) ->
  length refs = length table /\
  (forall i r, refs !! i = Some r -> ms1 !! r = table !! i /\ ms !! r = None) /\
  (forall k, is_Some (ms !! k) -> ms1 !! k = ms !! k).
Proof.
  induction table as [| t table IH]; intros ms ms1 refs Heq; cbn in Heq.
  { injection Heq as <- <-.
    split; [reflexivity |]. split; [intros i r Hi; discriminate | auto]. }
  unfold alloc_material in Heq.
  destruct (alloc_materials table (<[fresh (dom ms) := t]> ms)) as [rs ms2] eqn:Hrec.
  injection Heq as <- <-.
  destruct (IH _ _ _ Hrec) as (Hlen & Hrefs & Hframe).
  pose proof (fresh_material_absent ms) as Hfresh.
  split; [cbn; now rewrite Hlen |]. split.
  - intros [| i] r Hi; cbn in Hi.
    + injection Hi as <-. split; [| exact Hfresh].
      rewrite Hframe by (rewrite lookup_insert_eq; eauto).
      now rewrite lookup_insert_eq.
    + destruct (Hrefs i r Hi) as [H1 H2]. split; [exact H1 |].
      now apply lookup_insert_None in H2 as [H2 _].
  - intros k Hk.
    assert (k <> fresh (dom ms)) by (intros ->; destruct Hk; congruence).
    rewrite Hframe by now rewrite lookup_insert_ne.
    now rewrite lookup_insert_ne.
Qed.

Lemma cell_of_frame (ms ms' : gmap nat Material.t) (n : Node.t) :
  (forall k, is_Some (ms !! k) -> ms' !! k = ms !! k) ->
  (forall r, node_ref n = Some r -> is_Some (ms !! r)) ->
  cell_of ms' n = cell_of ms n.
Proof.
  intros Hframe Halloc. unfold cell_of. f_equal.
  destruct (node_ref n) as [r |] eqn:Hr.
  - destruct (Halloc r eq_refl) as [m Hm].
    assert (E : mesh_material ms n = Some (r, m)) by now apply mesh_material_Some.
    assert (E' : mesh_material ms' n = Some (r, m)).
    { apply mesh_material_Some. split; [exact Hr |]. rewrite Hframe; eauto. }
    now rewrite E, E'.
  - assert (E : mesh_material ms n = None) by (apply mesh_material_None; now left).
    assert (E' : mesh_material ms' n = None) by (apply mesh_material_None; now left).
    now rewrite E, E'.
Qed.

Lemma nodes_set_nodes (ns : list Node.t) (o : Object3D.t) :
  ns <> [] -> Object3D.nodes (Object3D.set_nodes ns o) = ns.
Proof. destruct ns; [congruence | reflexivity]. Qed.

(** An instantiated asset shows the cells of the asset, and none of its
    nodes points outside the store. *)
Lemma instantiate_spec (asset : Asset.t) (ms ms1 : gmap nat Material.t) (o1 : Object3D.t) :
  instantiate asset ms = (o1, ms1) ->
  cell_of ms1 <$> Object3D.nodes o1 = asset_cells asset /\
  (forall n r, n ∈ Object3D.nodes o1 -> node_ref n = Some r -> is_Some (ms1 !! r)) /\
  (forall k, is_Some (ms !! k) -> ms1 !! k = ms !! k) /\
  Object3D.userData o1 = Object3D.userData (Asset.object asset) /\
  Object3D.uuid o1 = Object3D.uuid (Asset.object asset).
Proof.
  unfold instantiate.
  destruct (alloc_materials (Asset.materials asset) ms) as [refs ms'] eqn:Halloc.
  set (o := Asset.object asset). intros Heq.
  assert (Ho1 : o1 = Object3D.set_nodes (relocate refs <$> Object3D.nodes o) o)
    by congruence.
  assert (Hms1 : ms1 = ms') by congruence. clear Heq. subst o1 ms1.
  destruct (alloc_materials_spec _ _ _ _ Halloc) as (Hlen & Hrefs & Hframe).
  assert (Hnodes : Object3D.nodes (Object3D.set_nodes (relocate refs <$> Object3D.nodes o) o)
                   = relocate refs <$> Object3D.nodes o) by reflexivity.
  rewrite Hnodes.
  assert (Hcell : forall n, node_ref (relocate refs n) =
                            (if Node.isMesh n then Node.material n ≫= fun i => refs !! i
                             else None)).
  { intros n. unfold node_ref, relocate. cbn. reflexivity. }
  split; [| split; [| split; [exact Hframe | split; reflexivity]]].
  - unfold asset_cells. fold o. rewrite <- list_fmap_compose.
    apply list_fmap_ext. intros _ n _. unfold compose, cell_of, asset_cell. cbn.
    f_equal. unfold mesh_material. cbn.
    destruct (Node.isMesh n); [| reflexivity].
    destruct (Node.material n) as [i |]; cbn; [| reflexivity].
    destruct (refs !! i) as [r |] eqn:Hi; cbn.
    + destruct (Hrefs i r Hi) as [-> _].
      now destruct (Asset.materials asset !! i).
    + apply lookup_ge_None in Hi. rewrite Hlen in Hi.
      apply lookup_ge_None in Hi. now rewrite Hi.
  - intros n r Hin Hr. apply list_elem_of_fmap in Hin as (n0 & -> & _).
    rewrite Hcell in Hr. destruct (Node.isMesh n0); [| discriminate].
    destruct (Node.material n0) as [i |]; cbn in Hr; [| discriminate].
    destruct (Hrefs i r Hr) as [H1 _]. rewrite H1.
    apply lookup_lt_is_Some. rewrite <- Hlen. now apply lookup_lt_Some in Hr.
Qed.
Lemma node_ref_set_material (n : Node.t) (r r0 : nat) :
  node_ref n = Some r0 -> node_ref (Node.set_material (Some r) n) = Some r.
Proof. unfold node_ref. cbn. now destruct (Node.isMesh n). Qed.

(** [_applyMaterialMods] on the nodes of an object, seen on the cells. *)
Lemma applyMaterialMods_cells mods :
  forall (ns : list Node.t) (ms ms' : gmap nat Material.t) (ns' : list Node.t),
  traverse_update (applyMaterialMods_child mods) ms ns = (ms', ns') ->
  (forall n r, n ∈ ns -> node_ref n = Some r -> is_Some (ms !! r)) ->
  cell_of ms' <$> ns' = mod_cell mods <$> (cell_of ms <$> ns) /\
  (forall k, is_Some (ms !! k) -> ms' !! k = ms !! k) /\
  (forall n r, n ∈ ns' -> node_ref n = Some r -> is_Some (ms' !! r)) /\
  Forall2 (fun n n' => Node.uuid n' = Node.uuid n /\ Node.name n' = Node.name n) ns ns'.
Proof.
  induction ns as [| n rest IH]; intros ms ms' ns' Heq Halloc; cbn in Heq.
  { injection Heq as <- <-.
    split; [reflexivity |]. split; [auto |]. split; [| constructor].
    intros n r Hin. now apply elem_of_nil in Hin. }
  assert (Hrest : forall ms1, (forall k, is_Some (ms !! k) -> ms1 !! k = ms !! k) ->
            (forall n0 r, n0 ∈ rest -> node_ref n0 = Some r -> is_Some (ms1 !! r)) /\
            cell_of ms1 <$> rest = cell_of ms <$> rest).
  { intros ms1 Hfr. split.
    - intros n0 r Hin Hr. rewrite Hfr; apply (Halloc n0 r); auto; now right.
    - apply list_fmap_ext. intros i n0 Hi. apply cell_of_frame; [exact Hfr |].
      intros r Hr. apply (Halloc n0 r); [| exact Hr].
      right. apply list_elem_of_lookup. now exists i. }
  unfold applyMaterialMods_child at 1 in Heq.
  destruct (mesh_material ms n) as [[r m] |] eqn:E.
  - destruct (find_mod mods n) as [md |] eqn:F.
    + unfold alloc_material in Heq. cbv beta iota zeta in Heq.
      set (r' := fresh (dom ms)) in *. set (ms1 := <[r' := apply_mod md m]> ms) in *.
      destruct (traverse_update (applyMaterialMods_child mods) ms1 rest)
        as [ms2 rest'] eqn:Hrec.
      injection Heq as <- <-.
      assert (Hfr1 : forall k, is_Some (ms !! k) -> ms1 !! k = ms !! k).
      { intros k Hk. subst ms1. rewrite lookup_insert_ne; [reflexivity |].
        intros Hkr. pose proof (fresh_material_absent ms) as Hf. fold r' in Hf.
        rewrite Hkr in Hf. destruct Hk as [x Hx]. congruence. }
      destruct (Hrest ms1 Hfr1) as [Halloc1 Hcells1].
      destruct (IH ms1 ms2 rest' Hrec Halloc1) as (Hcells & Hframe & Hnd & Hall).
      assert (Hhead : ms2 !! r' = Some (apply_mod md m)).
      { rewrite Hframe; subst ms1; rewrite lookup_insert_eq; eauto. }
      apply mesh_material_Some in E as [Hr Hm].
      split; [| split; [| split]].
      * rewrite !fmap_cons. f_equal; [| now rewrite Hcells, Hcells1].
        unfold cell_of, mod_cell. cbn [Cell.material Cell.name Cell.uuid].
        assert (E1 : mesh_material ms2 (Node.set_material (Some r') n) =
                     Some (r', apply_mod md m)).
        { apply mesh_material_Some. split; [| exact Hhead].
          now apply (node_ref_set_material n r' r). }
        assert (E0 : mesh_material ms n = Some (r, m)) by now apply mesh_material_Some.
        rewrite E1, E0. cbn [fmap option_fmap option_map snd].
        change (find_cell_mod mods {| Cell.name := Node.name n; Cell.uuid := Node.uuid n;
                                      Cell.material := Some m |})
          with (find_mod mods n).
        now rewrite F.
      * intros k Hk. rewrite Hframe by (rewrite Hfr1; auto). now apply Hfr1.
      * intros n0 r0 Hin Hr0. apply elem_of_cons in Hin as [-> | Hin].
        -- rewrite (node_ref_set_material n r' r Hr) in Hr0. injection Hr0 as <-. eauto.
        -- now apply (Hnd n0 r0).
      * constructor; [now split | exact Hall].
    + destruct (traverse_update (applyMaterialMods_child mods) ms rest)
        as [ms2 rest'] eqn:Hrec.
      injection Heq as <- <-.
      destruct (Hrest ms (fun _ _ => eq_refl)) as [Halloc1 _].
      destruct (IH ms ms2 rest' Hrec Halloc1) as (Hcells & Hframe & Hnd & Hall).
      split; [| split; [exact Hframe | split]].
      * rewrite !fmap_cons. f_equal; [| exact Hcells].
        rewrite (cell_of_frame ms ms2 n Hframe)
          by (intros r0 Hr0; apply (Halloc n r0); [left | exact Hr0]).
        unfold mod_cell.
        change (find_cell_mod mods (cell_of ms n)) with (find_mod mods n).
        rewrite F. now destruct (Cell.material (cell_of ms n)).
      * intros n0 r0 Hin Hr0. apply elem_of_cons in Hin as [-> | Hin].
        -- destruct (Halloc n r0) as [x Hx]; [left | exact Hr0 |].
           rewrite Hframe; eauto.
        -- now apply (Hnd n0 r0).
      * constructor; [now split | exact Hall].
  - destruct (traverse_update (applyMaterialMods_child mods) ms rest)
      as [ms2 rest'] eqn:Hrec.
    injection Heq as <- <-.
    destruct (Hrest ms (fun _ _ => eq_refl)) as [Halloc1 _].
    destruct (IH ms ms2 rest' Hrec Halloc1) as (Hcells & Hframe & Hnd & Hall).
    split; [| split; [exact Hframe | split]].
    * rewrite !fmap_cons. f_equal; [| exact Hcells].
      rewrite (cell_of_frame ms ms2 n Hframe)
        by (intros r0 Hr0; apply (Halloc n r0); [left | exact Hr0]).
      unfold mod_cell, cell_of. cbn [Cell.material]. now rewrite E.
    * intros n0 r0 Hin Hr0. apply elem_of_cons in Hin as [-> | Hin].
      -- destruct (Halloc n r0) as [x Hx]; [left | exact Hr0 |].
         rewrite Hframe; eauto.
      -- now apply (Hnd n0 r0).
    * constructor; [now split | exact Hall].
Qed.
Lemma omap_fmap_cells {A} (f : Cell.t -> option A) (g : Node.t -> Cell.t) (l : list Node.t) :
  omap (fun n => f (g n)) l = omap f (g <$> l).
Proof.
  induction l as [| n l IH]; [reflexivity |].
  rewrite fmap_cons, !omap_cons, IH. reflexivity.
Qed.

Lemma serialize_child_cell ms n : serialize_child ms n = serialize_cell (cell_of ms n).
Proof.
  unfold serialize_child, serialize_cell, cell_of. cbn.
  now destruct (mesh_material ms n) as [[r m] |].
Qed.

(** Serialization reads the cells of the object only. *)
Lemma serializeMaterialMods_cells ms obj :
  _serializeMaterialMods ms obj = mods_of_cells (object_cells ms obj).
Proof.
  unfold _serializeMaterialMods, mods_of_cells, object_cells.
  rewrite <- omap_fmap_cells.
  now rewrite (list_omap_ext (serialize_child ms)
                 (fun n => serialize_cell (cell_of ms n))
                 (Object3D.nodes obj) (Object3D.nodes obj))
    by (apply Forall2_same_length_lookup; split; [reflexivity |];
        intros i x y Hx Hy; rewrite Hx in Hy; injection Hy as <-;
        now rewrite serialize_child_cell).
Qed.

Lemma cells_set_name ms s o :
  cell_of ms <$> Object3D.nodes (Object3D.set_name s o) =
  rename_root s (cell_of ms <$> Object3D.nodes o).
Proof. reflexivity. Qed.

(** What [_deserializeObject] builds: an object under a fresh reference,
    with the stored name, transform and linkage, and the cells of the model
    with the stored deltas applied. Nothing that was in the scene or in the
    store is touched. *)
Lemma deserialize_spec load uuid stamp d b :
  is_Some (App.container b) ->
  exists r' b' obj',
    _deserializeObject load uuid stamp d b = (Some r', b') /\
    App.objects b !! r' = None /\
    App.objects b' !! r' = Some obj' /\
    Object3D.name obj' = ObjData.name d /\
    Object3D.position obj' = ObjData.position d /\
    Object3D.rotation obj' = ObjData.rotation d /\
    Object3D.scale obj' = ObjData.scale d /\
    Object3D.userData obj' =
      UserData.mk (Some (Stamp.value stamp)) (Some (ObjData.name d))
        (ObjData.furnitureType d) (modelPath_of d) (ObjData.furnitureId d)
        (Some (default
                 (FurnitureData.mk (ObjData.furnitureType d) (modelPath_of d)
                    (ObjData.furnitureId d))
                 (ObjData.furnitureData d)))
        None /\
    object_cells (App.materials b') obj' =
      restored_cells d (deserialize_model load uuid d) /\
    (forall n r, n ∈ Object3D.nodes obj' -> node_ref n = Some r ->
                 is_Some (App.materials b' !! r)) /\
    (forall k, is_Some (App.materials b !! k) ->
               App.materials b' !! k = App.materials b !! k) /\
    (forall k o, App.objects b !! k = Some o -> App.objects b' !! k = Some o) /\
    is_Some (App.container b').
Proof.
  intros [children Hc]. unfold _deserializeObject. rewrite Hc.
  set (asset := deserialize_model load uuid d).
  destruct (instantiate asset (App.materials b)) as [o1 ms1] eqn:Hinst.
  destruct (instantiate_spec asset _ _ _ Hinst) as (Hcells1 & Hnd1 & Hfr1 & _ & _).
  set (ud := UserData.mk _ _ _ _ _ _ _).
  set (o2 := Object3D.set_scale _ (Object3D.set_rotation _ (Object3D.set_position _
               (Object3D.set_userData ud (Object3D.set_name (ObjData.name d) o1))))).
  assert (Hnodes2 : Object3D.nodes o2 =
                    Object3D.nodes (Object3D.set_name (ObjData.name d) o1)) by reflexivity.
  assert (Hcells2 : cell_of ms1 <$> Object3D.nodes o2 =
                    rename_root (ObjData.name d) (asset_cells asset)).
  { rewrite Hnodes2, cells_set_name. now rewrite Hcells1. }
  assert (Hnd2 : forall n r, n ∈ Object3D.nodes o2 -> node_ref n = Some r ->
                             is_Some (ms1 !! r)).
  { intros n r Hin Hr. rewrite Hnodes2 in Hin. unfold Object3D.nodes in Hin. cbn in Hin.
    apply elem_of_cons in Hin as [-> | Hin].
    - apply (Hnd1 (Object3D.self o1) r); [left | exact Hr].
    - apply (Hnd1 n r); [now right | exact Hr]. }
  assert (Hfinal : exists ms3 o3,
    match ObjData.materialMods d with
    | Some mods => _applyMaterialMods mods ms1 o2
    | None => (ms1, o2)
    end = (ms3, o3) /\
    Object3D.name o3 = ObjData.name d /\
    Object3D.position o3 = ObjData.position d /\
    Object3D.rotation o3 = ObjData.rotation d /\
    Object3D.scale o3 = ObjData.scale d /\
    Object3D.userData o3 = ud /\
    cell_of ms3 <$> Object3D.nodes o3 = restored_cells d asset /\
    (forall n r, n ∈ Object3D.nodes o3 -> node_ref n = Some r -> is_Some (ms3 !! r)) /\
    (forall k, is_Some (ms1 !! k) -> ms3 !! k = ms1 !! k)).
  { unfold restored_cells. destruct (ObjData.materialMods d) as [mods |].
    - unfold _applyMaterialMods.
      destruct (traverse_update (applyMaterialMods_child mods) ms1 (Object3D.nodes o2))
        as [ms3 ns3] eqn:Htr.
      destruct (applyMaterialMods_cells mods _ _ _ _ Htr Hnd2)
        as (Hcells3 & Hfr3 & Hnd3 & Hall).
      assert (Hns3 : Object3D.nodes (Object3D.set_nodes ns3 o2) = ns3 /\
                     Object3D.name (Object3D.set_nodes ns3 o2) = ObjData.name d).
      { unfold Object3D.nodes in Hall.
        inversion Hall as [| n n' l l' [Hu Hn] Hrest]; subst. split; [reflexivity |].
        unfold Object3D.name. cbn. exact Hn. }
      destruct Hns3 as [Hns3 Hname3].
      exists ms3, (Object3D.set_nodes ns3 o2).
      split; [reflexivity |]. split; [exact Hname3 |].
      assert (Hkeep : forall ns, ns <> [] ->
                Object3D.position (Object3D.set_nodes ns o2) = ObjData.position d /\
                Object3D.rotation (Object3D.set_nodes ns o2) = ObjData.rotation d /\
                Object3D.scale (Object3D.set_nodes ns o2) = ObjData.scale d /\
                Object3D.userData (Object3D.set_nodes ns o2) = ud).
      { intros [| x l] Hne; [congruence | repeat split]. }
      destruct (Hkeep ns3) as (Hp & Hro & Hs & Hu).
      { intros ->. inversion Hall. }
      rewrite Hns3, Hcells3, Hcells2. repeat split; auto.
    - exists ms1, o2. repeat split; auto. }
  destruct Hfinal as (ms3 & o3 & -> & Hname & Hpos & Hrot & Hscale & Hud & Hcells & Hnd & Hfr).
  unfold App.new_object.
  set (r' := fresh (dom (App.objects (App.set_materials ms3 b)))).
  exists r', (AppState_addPlacedObject r'
               (container_add r'
                  (App.set_objects (<[r' := o3]> (App.objects (App.set_materials ms3 b)))
                     (App.set_materials ms3 b)))), o3.
  assert (Hfresh : App.objects b !! r' = None).
  { subst r'. cbn. apply not_elem_of_dom, is_fresh. }
  split; [reflexivity |]. split; [exact Hfresh |].
  split; [cbn; apply lookup_insert_eq |].
  split; [exact Hname |]. split; [exact Hpos |]. split; [exact Hrot |].
  split; [exact Hscale |]. split; [exact Hud |].
  split; [exact Hcells |]. split; [exact Hnd |].
  split; [| split].
  - intros k Hk. cbn. rewrite Hfr by (rewrite Hfr1; auto). now apply Hfr1.
  - intros k o Hk. cbn. rewrite lookup_insert_ne; [exact Hk | congruence].
  - cbn. rewrite Hc. cbn. eauto.
Qed.
(** *** Linkage and transform *)

(** Serializing an object that carries the linkage of a stored item, as
    [_deserializeObject] writes it, gives that item back, material deltas
    apart. *)
Lemma reserialize_linkage ms obj ms' obj' v :
  let d := _serializeObject ms obj in
  Object3D.name obj' = ObjData.name d ->
  Object3D.position obj' = ObjData.position d ->
  Object3D.rotation obj' = ObjData.rotation d ->
  Object3D.scale obj' = ObjData.scale d ->
  Object3D.userData obj' =
    UserData.mk v (Some (ObjData.name d))
      (ObjData.furnitureType d) (modelPath_of d) (ObjData.furnitureId d)
      (Some (default
               (FurnitureData.mk (ObjData.furnitureType d) (modelPath_of d)
                  (ObjData.furnitureId d))
               (ObjData.furnitureData d)))
      None ->
  _serializeObject ms' obj' = with_materialMods (_serializeMaterialMods ms' obj') d.
Proof.
  intros d Hname Hpos Hrot Hscale Hud.
  unfold _serializeObject at 1. rewrite Hname, Hpos, Hrot, Hscale, Hud.
  subst d. unfold with_materialMods, _serializeObject, modelPath_of.
  set (ud := Object3D.userData obj).
  destruct (UserData.furnitureData ud) as [[fn fp fi] |];
    destruct (UserData.furnitureType ud) as [[| c1 s1] |],
             (UserData.furniturePath ud) as [[| c2 s2] |],
             (UserData.furnitureId ud) as [[| p | p] |];
    cbn; f_equal;
    try (destruct fn as [[| c3 s3] |]; reflexivity);
    try (destruct fp as [[| c4 s4] |]; reflexivity);
    try (destruct fi as [[| q | q] |]; reflexivity).
Qed.

(** *** Material deltas *)

Lemma find_cell_mod_cons md l a :
  find_cell_mod (md :: l) a =
    if decide (MaterialMod.childName md = Cell.name a \/
               MaterialMod.childName md = Cell.uuid a)
    then Some md else find_cell_mod l a.
Proof.
  unfold find_cell_mod. cbn. case_decide; [reflexivity |].
  now destruct (list_find _ l) as [[i x] |].
Qed.

Lemma serialize_cell_childName c md :
  serialize_cell c = Some md -> Cell.name c <> "" ->
  MaterialMod.childName md = Cell.name c.
Proof.
  unfold serialize_cell. destruct (Cell.material c) as [m |]; [| discriminate].
  cbn. destruct (Material._isCloned m); [| discriminate].
  intros [= <-] Hne. cbn. now rewrite truthy_string_nonempty.
Qed.

Lemma serialize_cell_flagged c md :
  serialize_cell c = Some md ->
  exists m, Cell.material c = Some m /\ Material._isCloned m = true.
Proof.
  unfold serialize_cell. destruct (Cell.material c) as [m |]; [| discriminate].
  cbn. destruct (Material._isCloned m) eqn:E; [| discriminate]. eauto.
Qed.

(** No stored delta is found for a cell that none of them names. *)
Lemma find_cell_mod_none (cs : list Cell.t) (a : Cell.t) :
  (forall c md, c ∈ cs -> serialize_cell c = Some md ->
     MaterialMod.childName md <> Cell.name a /\
     MaterialMod.childName md <> Cell.uuid a) ->
  find_cell_mod (omap serialize_cell cs) a = None.
Proof.
  induction cs as [| c cs IH]; intros H; [reflexivity |].
  rewrite omap_cons.
  assert (Hrest : find_cell_mod (omap serialize_cell cs) a = None).
  { apply IH. intros c' md Hin. apply H. now right. }
  destruct (serialize_cell c) as [md |] eqn:E; [| exact Hrest].
  rewrite find_cell_mod_cons. destruct (H c md) as [H1 H2]; [left | exact E |].
  case_decide as Hd; [destruct Hd; congruence | exact Hrest].
Qed.
Lemma names_of_models (a : Cell.t) (models : list Cell.t) :
  a ∈ models -> has_material a ->
  Cell.name a ∈ Cell.name <$> filter has_material models.
Proof.
  intros Hin Hm. apply list_elem_of_fmap_2. now apply list_elem_of_filter.
Qed.

(** Among the stored deltas, a cell of the model finds the delta of the
    cell it stands for, and no other. *)
Lemma find_in_mods (cs models : list Cell.t) :
  Forall2 cell_matches cs models ->
  NoDup (Cell.name <$> filter has_material models) ->
  (forall c a md, c ∈ cs -> a ∈ models -> serialize_cell c = Some md ->
     has_material a -> Cell.name c <> Cell.uuid a) ->
  forall k c a, cs !! k = Some c -> models !! k = Some a -> has_material a ->
    find_cell_mod (omap serialize_cell cs) a = serialize_cell c.
Proof.
  induction 1 as [| c0 a0 cs models Hm0 Hall IH]; intros Hnd Hclash k c a Hc Ha Hmat;
    [discriminate |].
  destruct Hm0 as (Hname0 & Hfresh0 & Hdelta0).
  assert (Hnd' : NoDup (Cell.name <$> filter has_material models)).
  { rewrite filter_cons in Hnd. destruct (decide (has_material a0)); [| exact Hnd].
    rewrite fmap_cons in Hnd. now apply NoDup_cons in Hnd as [_ Hnd]. }
  assert (Hout : has_material a0 ->
                 Cell.name a0 ∉ Cell.name <$> filter has_material models).
  { intros Hm. rewrite filter_cons in Hnd. destruct (decide (has_material a0)); [| done].
    rewrite fmap_cons in Hnd. now apply NoDup_cons in Hnd as [Hnd _]. }
  assert (Hclash' : forall c a md, c ∈ cs -> a ∈ models -> serialize_cell c = Some md ->
                      has_material a -> Cell.name c <> Cell.uuid a).
  { intros c' a' md Hin Hin'. apply Hclash; now right. }
  rewrite omap_cons. destruct k as [| k]; cbn in Hc, Ha.
  - injection Hc as <-. injection Ha as <-.
    destruct (serialize_cell c0) as [md0 |] eqn:E.
    + rewrite find_cell_mod_cons.
      destruct (serialize_cell_flagged c0 md0 E) as (m & Hm & Hfl).
      destruct (Hdelta0 m Hm Hfl) as [Hne _].
      rewrite (serialize_cell_childName c0 md0 E Hne), Hname0.
      case_decide as Hd; [reflexivity | exfalso; apply Hd; now left].
    + apply find_cell_mod_none. intros c md Hin Hs.
      apply list_elem_of_lookup in Hin as [j Hj].
      destruct (Forall2_lookup_l _ _ _ _ _ Hall Hj) as (a' & Ha' & (Hn' & _ & Hd')).
      destruct (serialize_cell_flagged c md Hs) as (m & Hm & Hfl).
      destruct (Hd' m Hm Hfl) as [Hne (t & Ht & _)].
      rewrite (serialize_cell_childName c md Hs Hne). split.
      * intros Heq. apply (Hout Hmat). rewrite <- Heq, <- Hn'.
        apply names_of_models; [| unfold has_material; rewrite Ht; eauto].
        apply list_elem_of_lookup. now exists j.
      * apply (Hclash c a0 md); auto; [right | left].
        apply list_elem_of_lookup. now exists j.
  - assert (Hin : a ∈ models) by (apply list_elem_of_lookup; now exists k).
    destruct (serialize_cell c0) as [md0 |] eqn:E; [| now apply (IH Hnd' Hclash' k)].
    rewrite find_cell_mod_cons.
    destruct (serialize_cell_flagged c0 md0 E) as (m & Hm & Hfl).
    destruct (Hdelta0 m Hm Hfl) as [Hne (t & Ht & _)].
    rewrite (serialize_cell_childName c0 md0 E Hne).
    case_decide as Hd; [exfalso | now apply (IH Hnd' Hclash' k)].
    destruct Hd as [Hd | Hd].
    + apply Hout; [unfold has_material; rewrite Ht; eauto |].
      rewrite Hname0, Hd. now apply names_of_models.
    + apply (Hclash c0 a md0); auto; [left | now right].
Qed.

(** A delta applied to a material with the same channels reads back as the
    same delta. *)
Lemma apply_mod_reads_back (c : Cell.t) (md : MaterialMod.t) (v : string) (m t : Material.t) :
  Cell.material c = Some m -> Cell.name c <> "" -> same_channels m t ->
  serialize_cell c = Some md ->
  serialize_cell (Cell.mk (Cell.name c) v (Some (apply_mod md t))) = Some md.
Proof.
  intros Hm Hne (Hc & Hme & Hro). unfold serialize_cell. rewrite Hm. cbn.
  destruct (Material._isCloned m); [| discriminate]. intros [= <-].
  rewrite (truthy_string_nonempty _ Hne).
  destruct m as [[c0 |] [me0 |] [ro0 |] op0 tr0 em0 ei0 cl0],
           t as [[c1 |] [me1 |] [ro1 |] op1 tr1 em1 ei1 cl1]; cbn in *;
    try reflexivity;
    try (now specialize (Hme eq_refl)); try (now specialize (Hro eq_refl));
    try (destruct (proj1 Hc (ex_intro _ _ eq_refl)) as [? [=]]);
    try (destruct (proj2 Hc (ex_intro _ _ eq_refl)) as [? [=]]).
Qed.

Lemma omap_Forall2 {A B C} (f : A -> option C) (g : B -> option C)
    (l : list A) (k : list B) :
  Forall2 (fun x y => f x = g y) l k -> omap f l = omap g k.
Proof.
  induction 1 as [| x y l k Hxy _ IH]; [reflexivity |].
  now rewrite !omap_cons, Hxy, IH.
Qed.

Lemma omap_fmap_list {A B C} (f : B -> option C) (g : A -> B) (l : list A) :
  omap f (g <$> l) = omap (fun x => f (g x)) l.
Proof.
  induction l as [| x l IH]; [reflexivity |].
  now rewrite fmap_cons, !omap_cons, IH.
Qed.

(** The deltas read off the restored cells are the stored ones, when the
    asset loads as the model the item was saved from. *)
Lemma cells_roundtrip (cs models : list Cell.t) :
  Forall2 cell_matches cs models ->
  NoDup (Cell.name <$> filter has_material models) ->
  (forall c a md, c ∈ cs -> a ∈ models -> serialize_cell c = Some md ->
     has_material a -> Cell.name c <> Cell.uuid a) ->
  omap serialize_cell
    match mods_of_cells cs with
    | Some mods => mod_cell mods <$> models
    | None => models
    end = omap serialize_cell cs.
Proof.
  intros Hall Hnd Hclash.
  assert (Hfresh : forall a, a ∈ models -> serialize_cell a = None).
  { intros a Hin. apply list_elem_of_lookup in Hin as [j Hj].
    destruct (Forall2_lookup_r _ _ _ _ _ Hall Hj) as (c & _ & (_ & Hf & _)).
    unfold serialize_cell. destruct (Cell.material a) as [t |]; [| reflexivity].
    cbn. now rewrite (Hf t eq_refl). }
  unfold mods_of_cells. destruct (omap serialize_cell cs) as [| md0 mods0] eqn:Hmods.
  - symmetry. rewrite <- Hmods. apply omap_Forall2.
    eapply Forall2_impl_elem2; [exact Hall |].
    intros c a Hinc Hina (Hn & Hf & Hd). rewrite (Hfresh a Hina).
    destruct (serialize_cell c) as [md |] eqn:E; [| reflexivity].
    exfalso. assert (Hin : md ∈ omap serialize_cell cs)
      by (apply list_elem_of_omap; now exists c).
    rewrite Hmods in Hin. now apply elem_of_nil in Hin.
  - rewrite <- Hmods. rewrite omap_fmap_list. symmetry. apply omap_Forall2.
    apply Forall2_same_length_lookup. split; [now apply Forall2_length in Hall |].
    intros k c a Hc Ha.
    destruct (Forall2_lookup_lr _ _ _ _ _ _ Hall Hc Ha) as (Hn & Hf & Hd).
    unfold mod_cell. destruct (Cell.material a) as [t |] eqn:Ht.
    + rewrite (find_in_mods cs models Hall Hnd Hclash k c a Hc Ha)
        by (unfold has_material; rewrite Ht; eauto).
      destruct (serialize_cell c) as [md |] eqn:E.
      * destruct (serialize_cell_flagged c md E) as (m & Hm & Hfl).
        destruct (Hd m Hm Hfl) as [Hne (t' & Ht' & Hch)].
        assert (t' = t) by congruence. subst t'.
        rewrite Hn. symmetry. now apply (apply_mod_reads_back c md _ m t).
      * symmetry. apply Hfresh. apply list_elem_of_lookup. now exists k.
    + destruct (serialize_cell c) as [md |] eqn:E.
      * destruct (serialize_cell_flagged c md E) as (m & Hm & Hfl).
        destruct (Hd m Hm Hfl) as [_ (t' & Ht' & _)]. congruence.
      * unfold serialize_cell. now rewrite Ht.
Qed.
(** *** One item, and the list *)

Lemma serializeObject_cells ms ms' obj :
  object_cells ms' obj = object_cells ms obj ->
  _serializeObject ms' obj = _serializeObject ms obj.
Proof.
  intros H. unfold _serializeObject. now rewrite !serializeMaterialMods_cells, H.
Qed.

Lemma object_cells_frame ms ms' obj :
  (forall k, is_Some (ms !! k) -> ms' !! k = ms !! k) ->
  (forall n r, n ∈ Object3D.nodes obj -> node_ref n = Some r -> is_Some (ms !! r)) ->
  object_cells ms' obj = object_cells ms obj.
Proof.
  intros Hframe Halloc. unfold object_cells.
  apply list_fmap_ext. intros i n Hn. apply cell_of_frame; [exact Hframe |].
  intros r. apply Halloc. apply list_elem_of_lookup. now exists i.
Qed.

Lemma with_own_materialMods (d : ObjData.t) :
  with_materialMods (ObjData.materialMods d) d = d.
Proof. now destruct d. Qed.

(** The restored cells of a stored item carry its deltas when the asset
    loads as the model of the item. *)
Lemma restored_cells_mods ms obj asset :
  same_model ms obj asset ->
  mods_of_cells (restored_cells (_serializeObject ms obj) asset) =
  ObjData.materialMods (_serializeObject ms obj).
Proof.
  intros (Hall & Hnd & Hclash). unfold restored_cells.
  change (ObjData.name (_serializeObject ms obj)) with (Object3D.name obj).
  change (ObjData.materialMods (_serializeObject ms obj))
    with (_serializeMaterialMods ms obj).
  rewrite serializeMaterialMods_cells.
  pose proof (cells_roundtrip _ _ Hall Hnd Hclash) as Hrt.
  unfold mods_of_cells at 1. now rewrite Hrt.
Qed.

Lemma deserialize_all_spec load uuid stamp ms objs :
  forall i0 b,
    is_Some (App.container b) ->
    exists rs b',
      deserialize_all load uuid stamp i0 (serialize_all ms objs) b = (rs, b') /\
      is_Some (App.container b') /\
      (forall k, is_Some (App.materials b !! k) ->
                 App.materials b' !! k = App.materials b !! k) /\
      (forall k o, App.objects b !! k = Some o -> App.objects b' !! k = Some o) /\
      length rs = length objs /\
      forall i obj, objs !! i = Some obj ->
        exists r' obj',
          rs !! i = Some (Some r') /\
          App.objects b !! r' = None /\
          App.objects b' !! r' = Some obj' /\
          same_linkage_and_transform (_serializeObject ms obj)
            (_serializeObject (App.materials b') obj') /\
          (same_model ms obj
             (deserialize_model load (uuid (i0 + i)%nat) (_serializeObject ms obj)) ->
           _serializeObject (App.materials b') obj' = _serializeObject ms obj).
Proof.
  induction objs as [| obj0 objs IH]; intros i0 b Hc.
  - exists [], b. cbn. repeat split; auto. intros i obj [=].
  - set (d := _serializeObject ms obj0).
    destruct (deserialize_spec load (uuid i0) (stamp i0) d b Hc)
      as (r0 & b1 & obj1 & Hde & Hnew & Hat & Hname & Hpos & Hrot & Hsc & Hud
          & Hcells & Hnd & Hfm & Hfo & Hc1).
    destruct (IH (S i0) b1 Hc1) as (rs & b' & Hall & Hc' & Hfm' & Hfo' & Hlen & Hitems).
    exists (Some r0 :: rs), b'.
    assert (Hstable : _serializeObject (App.materials b') obj1 =
                      _serializeObject (App.materials b1) obj1).
    { apply serializeObject_cells, object_cells_frame; assumption. }
    split; [| split; [exact Hc' | split; [| split; [| split]]]].
    + cbn [serialize_all fmap list_fmap deserialize_all].
      fold (serialize_all ms objs). fold d. rewrite Hde, Hall. reflexivity.
    + intros k Hk. rewrite Hfm' by (rewrite Hfm; assumption). now apply Hfm.
    + intros k o Ho. now apply Hfo', Hfo.
    + cbn. now rewrite Hlen.
    + intros [| i] obj Hobj; cbn in Hobj.
      * injection Hobj as <-. exists r0, obj1.
        split; [reflexivity |]. split; [exact Hnew |].
        split; [now apply Hfo' |].
        assert (Hlink : _serializeObject (App.materials b1) obj1 =
                        with_materialMods
                          (_serializeMaterialMods (App.materials b1) obj1) d)
          by (apply (reserialize_linkage ms obj0 _ obj1 _ Hname Hpos Hrot Hsc Hud)).
        split.
        -- unfold same_linkage_and_transform. rewrite Hstable. exact Hlink.
        -- rewrite Nat.add_0_r. fold d. intros Hsame.
           rewrite Hstable, Hlink, serializeMaterialMods_cells, Hcells.
           subst d. rewrite (restored_cells_mods ms obj0 _ Hsame).
           apply with_own_materialMods.
      * destruct (Hitems i obj Hobj) as (r' & obj' & Hr & Hnew' & Hat' & Hlink & Hsame).
        exists r', obj'. split; [exact Hr |].
        split.
        { destruct (App.objects b !! r') as [o |] eqn:E; [| reflexivity].
          apply Hfo in E. congruence. }
        split; [exact Hat' |]. split; [exact Hlink |].
        replace (i0 + S i)%nat with (S i0 + i)%nat by lia. exact Hsame.
Qed.

(** X1: round trip of a layout. Deserializing the document of a list of
    items restores every item as a new scene object. Serialized again, the
    restored item has the name, the catalog linkage (type, asset path,
    catalog id, catalog entry) and exactly the position, rotation and scale
    of the document, whatever the loader delivers. Its material deltas are
    those of the document when the asset loads as the model the item was
    saved from; then the restored item serializes to the very same stored
    item. *)
Theorem layout_round_trip (load : string -> option Asset.t)
    (uuid : nat -> nat -> string) (stamp : nat -> Stamp.t)
    (ms : gmap nat Material.t) (objs : list Object3D.t) (b : App.t) :
  is_Some (App.container b) ->
  exists rs b',
    deserialize_all load uuid stamp 0 (serialize_all ms objs) b = (rs, b') /\
    length rs = length objs /\
    forall i obj, objs !! i = Some obj ->
      exists r' obj',
        rs !! i = Some (Some r') /\
        App.objects b !! r' = None /\
        App.objects b' !! r' = Some obj' /\
        same_linkage_and_transform (_serializeObject ms obj)
          (_serializeObject (App.materials b') obj') /\
        (same_model ms obj
           (deserialize_model load (uuid i) (_serializeObject ms obj)) ->
         _serializeObject (App.materials b') obj' = _serializeObject ms obj).
Proof.
  intros Hc.
  destruct (deserialize_all_spec load uuid stamp ms objs 0 b Hc)
    as (rs & b' & Hall & _ & _ & _ & Hlen & Hitems).
  exists rs, b'. split; [exact Hall |]. split; [exact Hlen |]. exact Hitems.
Qed.

Lemma layout_round_trip_witness :
  is_Some (App.container (_clearCurrentObjects painted_chair)) /\
  exists rs b',
    deserialize_all chair_assets uuids stamp_of 0 (saved_items painted_chair)
      (_clearCurrentObjects painted_chair) = (rs, b') /\
    forall i obj, placed_objects painted_chair !! i = Some obj ->
      exists r' obj',
        rs !! i = Some (Some r') /\
        App.objects b' !! r' = Some obj' /\
        _serializeObject (App.materials b') obj' =
        _serializeObject (App.materials painted_chair) obj.
Proof.
  assert (Hc : is_Some (App.container (_clearCurrentObjects painted_chair)))
    by (vm_compute; eauto).
  split; [exact Hc |].
  destruct (layout_round_trip chair_assets uuids stamp_of (App.materials painted_chair)
              (placed_objects painted_chair) (_clearCurrentObjects painted_chair) Hc)
    as (rs & b' & Hde & _ & Hitems).
  exists rs, b'. split; [exact Hde |].
  intros i obj Hobj.
  destruct (Hitems i obj Hobj) as (r' & obj' & Hr & _ & Hat & _ & Hsame).
  exists r', obj'. split; [exact Hr |]. split; [exact Hat |].
  apply Hsame. clear Hsame Hat Hr Hitems Hde.
  assert (Hi : i = 0%nat).
  { apply lookup_lt_Some in Hobj.
    replace (length (placed_objects painted_chair)) with 1%nat in Hobj
      by (vm_compute; reflexivity).
    lia. }
  subst i. vm_compute in Hobj. injection Hobj as <-.
  unfold same_model.
  match goal with
  | |- context [deserialize_model ?l ?u ?d] =>
      let v := eval vm_compute in (deserialize_model l u d) in
      replace (deserialize_model l u d) with v by (vm_compute; reflexivity)
  end.
  match goal with
  | |- context [object_cells ?m ?o] =>
      let v := eval vm_compute in (object_cells m o) in
      replace (object_cells m o) with v by (vm_compute; reflexivity)
  end.
  match goal with
  | |- context [rename_root ?s ?cs] =>
      let v := eval vm_compute in (rename_root s cs) in
      replace (rename_root s cs) with v by (vm_compute; reflexivity)
  end.
  split; [| split].
  - repeat match goal with |- Forall2 _ _ _ => constructor end;
      (split; [reflexivity | split; [intros t Ht | intros m Hm _]]);
      cbn in *; try discriminate.
    all: try (injection Ht as <-; reflexivity).
    all: injection Hm as <-; (split; [discriminate |]);
      eexists; (split; [reflexivity |]).
    all: split; [split; intros _; eexists; reflexivity | split; discriminate].
  - match goal with
    | |- NoDup ?l =>
        let v := eval vm_compute in l in
        replace l with v by (vm_compute; reflexivity)
    end.
    apply (bool_decide_unpack _). vm_compute. exact I.
  - intros c a md Hin Hin' Hs Hm.
    repeat match goal with
           | H : _ ∈ _ :: _ |- _ => apply elem_of_cons in H as [-> | H]
           | H : _ ∈ [] |- _ => apply elem_of_nil in H; contradiction
           end;
      try (vm_compute in Hs; discriminate);
      try (destruct Hm as [? Hm]; vm_compute in Hm; discriminate);
      vm_compute; discriminate.
Defined.

(** C1 fails in the code. [_deserializeObject] applies the stored
    material deltas to whatever object it has built, the placeholder
    included, but finds them by mesh name or uuid. The chair placed from
    its model and painted red is saved with a delta for "Seat" and one for
    "Back". Reloaded with its model at hand, it serializes to the same
    deltas; reloaded while the asset is unavailable, the grey box takes
    none of them and the item serializes without deltas. *)
Theorem placeholder_loses_deltas :
  ObjData.materialMods <$> saved_items painted_chair =
    [Some [MaterialMod.mk "Seat" (Some red) (Some 0) (Some 0.8) (Some 1);
           MaterialMod.mk "Back" (Some red) (Some 0) (Some 0.9) (Some 1)]] /\
  ObjData.materialMods <$> saved_items (reloaded no_assets painted_chair) = [None] /\
  ObjData.materialMods <$> saved_items (reloaded chair_assets painted_chair) =
  ObjData.materialMods <$> saved_items painted_chair.
Proof. repeat split; vm_compute; reflexivity. Qed.
(** *** Saving, then loading *)

(** A successful save followed by a load: the load succeeds, and what it
    restores is what [deserialize_all] makes of the items serialized at the
    time of the save, in the cleared scene. *)
Lemma save_then_load load uuid stamp now a a1 :
  placed_objects a <> [] ->
  saveLayout now a = (true, a1) ->
  loadLayout load uuid stamp a1 =
    (true, snd (deserialize_all load uuid stamp 0
                  (serialize_all (App.materials a) (placed_objects a))
                  (_clearCurrentObjects a1))) /\
  App.container a1 = App.container a.
Proof.
  intros Hne. unfold saveLayout.
  destruct (AppState.placedObjects (App.appState a)) as [| r rs] eqn:Hp; [discriminate |].
  unfold Storage_setItem.
  destruct (Storage.writable (App.localStorage a)); [| discriminate].
  intros [= <-]. split; [| reflexivity].
  unfold loadLayout. cbn [App.localStorage App.set_localStorage Storage.items].
  rewrite lookup_insert_eq. cbn [LayoutData.objects].
  destruct (serialize_all (App.materials a) (placed_objects a)) as [| d ds] eqn:Hs.
  - destruct (placed_objects a); [congruence | discriminate].
  - reflexivity.
Qed.
(** * Further properties *)

(** ** Clearing the scene *)

Lemma updateSelection_same v a :
  SelectionSystem.selectedObject (App.selection a) = v -> _updateSelection v a = a.
Proof. intros H. unfold _updateSelection. case_decide; congruence. Qed.

Lemma updateSelection_None_selected a :
  SelectionSystem.selectedObject (App.selection (_updateSelection None a)) = None.
Proof.
  unfold _updateSelection. case_decide as Hd; [now symmetry |].
  destruct (SelectionSystem.selectedObject (App.selection a)) eqn:E; [| congruence].
  reflexivity.
Qed.

Lemma updateSelection_None_frame a :
  let a' := _updateSelection None a in
  App.appState a' = App.appState a /\ App.panel a' = App.panel a /\
  App.placement a' = App.placement a /\ App.localStorage a' = App.localStorage a /\
  App.container a' = App.container a /\ dom (App.objects a') = dom (App.objects a).
Proof.
  unfold _updateSelection. case_decide; [repeat split; reflexivity |].
  destruct (SelectionSystem.selectedObject (App.selection a)) as [s |];
    [| repeat split; reflexivity].
  unfold with_selection, unhighlight, update_object, _restoreOriginalMaterials,
    _removeHighlight, with_selection.
  destruct (App.objects _ !! s) eqn:E; cbn; repeat split; try reflexivity;
    apply dom_alter_L.
Qed.

Ltac updateSelection_None_facts :=
  match goal with
  | |- context [_updateSelection None ?x] =>
      let Hs := fresh "Hs" in let Hp := fresh "Hp" in let Hpl := fresh "Hpl" in
      let Hls := fresh "Hls" in let Hc := fresh "Hc" in let Hd := fresh "Hd" in
      let Hn := fresh "Hn" in
      destruct (updateSelection_None_frame x) as (Hs & Hp & Hpl & Hls & Hc & Hd);
      pose proof (updateSelection_None_selected x) as Hn;
      cbv zeta in Hs, Hp, Hpl, Hls, Hc, Hd;
      rewrite ?Hs, ?Hp, ?Hpl, ?Hls, ?Hc, ?Hd, ?Hn
  end.

(** What [AppState.set('selectedObject', null)] leaves behind. *)
Lemma set_selectedObject_None_spec a :
  let a' := AppState_set_selectedObject None a in
  AppState.selectedObject (App.appState a') = None /\
  PropertiesPanel.selectedObject (App.panel a') = None /\
  SelectionSystem.selectedObject (App.selection a') = None /\
  AppState.placedObjects (App.appState a') = AppState.placedObjects (App.appState a) /\
  AppState.activeFurnitureType (App.appState a') =
    AppState.activeFurnitureType (App.appState a) /\
  App.container a' = App.container a /\
  App.placement a' = App.placement a /\
  App.localStorage a' = App.localStorage a /\
  dom (App.objects a') = dom (App.objects a).
Proof.
  unfold AppState_set_selectedObject. cbv zeta. updateSelection_None_facts.
  repeat split; reflexivity.
Qed.

Lemma clearPlacedObjects_spec a :
  let a' := AppState_clearPlacedObjects a in
  AppState.selectedObject (App.appState a') = None /\
  PropertiesPanel.selectedObject (App.panel a') = None /\
  SelectionSystem.selectedObject (App.selection a') = None /\
  AppState.placedObjects (App.appState a') = [] /\
  AppState.activeFurnitureType (App.appState a') =
    AppState.activeFurnitureType (App.appState a) /\
  App.container a' = App.container a /\
  App.placement a' = App.placement a /\
  App.localStorage a' = App.localStorage a /\
  dom (App.objects a') = dom (App.objects a).
Proof.
  unfold AppState_clearPlacedObjects. cbv zeta. updateSelection_None_facts.
  repeat split; reflexivity.
Qed.

(** The scene after [_clearCurrentObjects]: empty, with nothing selected
    anywhere; the placement system's own list and the stored document are
    not touched. *)
Lemma clearCurrentObjects_spec a :
  is_Some (App.container a) ->
  let a' := _clearCurrentObjects a in
  App.container a' = Some [] /\
  AppState.placedObjects (App.appState a') = [] /\
  AppState.selectedObject (App.appState a') = None /\
  PropertiesPanel.selectedObject (App.panel a') = None /\
  SelectionSystem.selectedObject (App.selection a') = None /\
  AppState.activeFurnitureType (App.appState a') =
    AppState.activeFurnitureType (App.appState a) /\
  App.placement a' = App.placement a /\
  App.localStorage a' = App.localStorage a /\
  dom (App.objects a') = dom (App.objects a).
Proof.
  intros [l Hl]. unfold _clearCurrentObjects. rewrite Hl. cbv zeta.
  destruct (set_selectedObject_None_spec a)
    as (_ & _ & _ & _ & Hact & _ & Hpl & Hls & Hd).
  destruct (clearPlacedObjects_spec
              (App.set_container (Some []) (AppState_set_selectedObject None a)))
    as (H1 & H2 & H3 & H4 & H5 & H6 & H7 & H8 & H9).
  cbv zeta in *. rewrite H1, H2, H3, H4, H5, H6, H7, H8, H9.
  repeat split; try reflexivity; assumption.
Qed.
(** ** Loading a layout into the scene *)

(** Beside what [deserialize_spec] says of the restored object: the object
    goes to the end of the container and of the list of placed objects, and
    nothing else of the application changes. *)
Lemma deserialize_lists load uuid stamp d b l :
  App.container b = Some l ->
  exists r' b',
    _deserializeObject load uuid stamp d b = (Some r', b') /\
    App.container b' = Some (l ++ [r']) /\
    AppState.placedObjects (App.appState b') =
      AppState.placedObjects (App.appState b) ++ [r'] /\
    AppState.selectedObject (App.appState b') = AppState.selectedObject (App.appState b) /\
    AppState.activeFurnitureType (App.appState b') =
      AppState.activeFurnitureType (App.appState b) /\
    App.selection b' = App.selection b /\
    App.panel b' = App.panel b /\
    App.placement b' = App.placement b /\
    App.orbitEnabled b' = App.orbitEnabled b /\
    App.localStorage b' = App.localStorage b.
Proof.
  intros Hc. unfold _deserializeObject. rewrite Hc.
  destruct (instantiate _ _) as [o1 ms1].
  match goal with
  | |- context [match ObjData.materialMods d with
                | Some mods => _applyMaterialMods mods ms1 ?f
                | None => _
                end] =>
      destruct (match ObjData.materialMods d with
                | Some mods => _applyMaterialMods mods ms1 f
                | None => (ms1, f)
                end) as [ms2 o2]
  end.
  eexists _, _. split; [reflexivity |]. cbn. rewrite Hc. repeat split; reflexivity.
Qed.

Lemma deserialize_all_lists load uuid stamp (ds : list ObjData.t) :
  forall i0 b l,
    App.container b = Some l ->
    exists rs b',
      deserialize_all load uuid stamp i0 ds b = (Some <$> rs, b') /\
      App.container b' = Some (l ++ rs) /\
      AppState.placedObjects (App.appState b') =
        AppState.placedObjects (App.appState b) ++ rs /\
      AppState.selectedObject (App.appState b') =
        AppState.selectedObject (App.appState b) /\
      AppState.activeFurnitureType (App.appState b') =
        AppState.activeFurnitureType (App.appState b) /\
      App.selection b' = App.selection b /\
      App.panel b' = App.panel b /\
      App.placement b' = App.placement b /\
      App.orbitEnabled b' = App.orbitEnabled b /\
      App.localStorage b' = App.localStorage b.
Proof.
  induction ds as [| d ds IH]; intros i0 b l Hc.
  - exists [], b. cbn. rewrite !app_nil_r. repeat split; auto.
  - destruct (deserialize_lists load (uuid i0) (stamp i0) d b l Hc)
      as (r & b1 & Hde & Hc1 & Hp1 & Hs1 & Ha1 & Hsel1 & Hpan1 & Hpl1 & Ho1 & Hls1).
    destruct (IH (S i0) b1 _ Hc1)
      as (rs & b' & Hall & Hc' & Hp' & Hs' & Ha' & Hsel' & Hpan' & Hpl' & Ho' & Hls').
    exists (r :: rs), b'. cbn [deserialize_all]. rewrite Hde, Hall.
    split; [reflexivity |].
    rewrite Hc', Hp', Hp1, Hs', Hs1, Ha', Ha1, Hsel', Hsel1, Hpan', Hpan1,
      Hpl', Hpl1, Ho', Ho1, Hls', Hls1, <- !app_assoc.
    repeat split; reflexivity.
Qed.

(** Without a furniture container in the scene nothing is restored. *)
Lemma deserialize_all_no_container load uuid stamp (ds : list ObjData.t) :
  forall i0 b,
    App.container b = None ->
    deserialize_all load uuid stamp i0 ds b = (const None <$> ds, b).
Proof.
  induction ds as [| d ds IH]; intros i0 b Hc; [reflexivity |].
  cbn [deserialize_all]. unfold _deserializeObject at 1. rewrite Hc.
  now rewrite (IH (S i0) b Hc).
Qed.
(** The restored objects, for any list of stored items: they are new and
    distinct, each has the name and the placement of its item, and what was
    in the stores before stays as it was. *)
Lemma deserialize_all_items load uuid stamp (ds : list ObjData.t) :
  forall i0 b,
    is_Some (App.container b) ->
    exists rs b',
      deserialize_all load uuid stamp i0 ds b = (Some <$> rs, b') /\
      is_Some (App.container b') /\
      NoDup rs /\
      (forall r, r ∈ rs -> App.objects b !! r = None) /\
      (forall k o, App.objects b !! k = Some o -> App.objects b' !! k = Some o) /\
      (forall k, is_Some (App.materials b !! k) ->
                 App.materials b' !! k = App.materials b !! k) /\
      length rs = length ds /\
      forall i d, ds !! i = Some d ->
        exists r obj,
          rs !! i = Some r /\ App.objects b' !! r = Some obj /\
          Object3D.name obj = ObjData.name d /\
          Object3D.position obj = ObjData.position d /\
          Object3D.rotation obj = ObjData.rotation d /\
          Object3D.scale obj = ObjData.scale d.
Proof.
  induction ds as [| d0 ds IH]; intros i0 b Hc.
  - exists [], b. cbn. repeat split; auto; try constructor.
    + intros r Hr. now apply elem_of_nil in Hr.
    + intros i d [=].
  - destruct (deserialize_spec load (uuid i0) (stamp i0) d0 b Hc)
      as (r0 & b1 & obj1 & Hde & Hnew & Hat & Hname & Hpos & Hrot & Hsc & _
          & _ & _ & Hfm & Hfo & Hc1).
    destruct (IH (S i0) b1 Hc1)
      as (rs & b' & Hall & Hc' & Hnd & Hfresh & Hfo' & Hfm' & Hlen & Hitems).
    exists (r0 :: rs), b'. cbn [deserialize_all]. rewrite Hde, Hall.
    split; [reflexivity |]. split; [exact Hc' |].
    split.
    { apply NoDup_cons. split; [| exact Hnd].
      intros Hin. apply Hfresh in Hin. congruence. }
    split.
    { intros r [-> | Hin]%elem_of_cons; [exact Hnew |].
      destruct (App.objects b !! r) as [o |] eqn:E; [| reflexivity].
      apply Hfo in E. rewrite (Hfresh r Hin) in E. discriminate. }
    split; [intros k o Ho; now apply Hfo', Hfo |].
    split.
    { intros k Hk. rewrite Hfm' by (rewrite Hfm; assumption). now apply Hfm. }
    split; [cbn; now rewrite Hlen |].
    intros [| i] d Hd; cbn in Hd.
    + injection Hd as <-. exists r0, obj1.
      split; [reflexivity |]. split; [now apply Hfo' |]. auto.
    + destruct (Hitems i d Hd) as (r & obj & Hr & Ho & Hrest).
      exists r, obj. split; [exact Hr |]. split; [exact Ho |]. exact Hrest.
Qed.

Lemma lookup_None_dom (m m' : gmap nat Object3D.t) (k : nat) :
  dom m' = dom m -> m' !! k = None -> m !! k = None.
Proof.
  intros Hd Hk. apply not_elem_of_dom. rewrite <- Hd. now apply not_elem_of_dom.
Qed.

(** X2: a load replaces the scene. With a non-empty document in the store
    and a furniture container in the scene, [loadLayout] returns true; after
    it the container and the list of placed objects hold the same
    references, one new object for each stored item and in the order of the
    document, each with the name, position, rotation and scale of its item;
    nothing is selected, and neither the stored document nor the placement
    system's own list of objects has changed. *)
Theorem loadLayout_replaces_scene (load : string -> option Asset.t)
    (uuid : nat -> nat -> string) (stamp : nat -> Stamp.t) (a : App.t)
    (doc : LayoutData.t) (objects : list ObjData.t) :
  Storage.items (App.localStorage a) !! STORAGE_KEY = Some (Doc doc) ->
  LayoutData.objects doc = Some objects ->
  objects <> [] ->
  is_Some (App.container a) ->
  exists a' rs,
    loadLayout load uuid stamp a = (true, a') /\
    App.container a' = Some rs /\
    AppState.placedObjects (App.appState a') = rs /\
    length rs = length objects /\
    NoDup rs /\
    (forall i d, objects !! i = Some d ->
       exists r obj,
         rs !! i = Some r /\
         App.objects a !! r = None /\
         App.objects a' !! r = Some obj /\
         Object3D.name obj = ObjData.name d /\
         Object3D.position obj = ObjData.position d /\
         Object3D.rotation obj = ObjData.rotation d /\
         Object3D.scale obj = ObjData.scale d) /\
    AppState.selectedObject (App.appState a') = None /\
    PropertiesPanel.selectedObject (App.panel a') = None /\
    SelectionSystem.selectedObject (App.selection a') = None /\
    App.placement a' = App.placement a /\
    App.localStorage a' = App.localStorage a.
Proof.
  intros Hdoc Hobjs Hne Hc.
  destruct (clearCurrentObjects_spec a Hc)
    as (Hc0 & Hp0 & Hs0 & Hpan0 & Hsel0 & _ & Hpl0 & Hls0 & Hd0).
  cbv zeta in *. set (b := _clearCurrentObjects a) in *.
  destruct (deserialize_all_lists load uuid stamp objects 0 b [] Hc0)
    as (rs & a' & Hall & Hc' & Hp' & Hs' & _ & Hsel' & Hpan' & Hpl' & _ & Hls').
  destruct (deserialize_all_items load uuid stamp objects 0 b)
    as (rs2 & a2 & Hall2 & _ & Hnd & Hfresh & _ & _ & Hlen & Hitems);
    [rewrite Hc0; eauto |].
  assert (Heq : rs2 = rs /\ a2 = a').
  { rewrite Hall in Hall2. injection Hall2 as Hrs Ha. split; [| congruence].
    symmetry. eapply (inj (fmap Some)). exact Hrs. }
  destruct Heq as [-> ->].
  exists a', rs. split.
  { unfold loadLayout. rewrite Hdoc, Hobjs. fold b.
    destruct objects; [congruence |]. now rewrite Hall. }
  split; [exact Hc' |]. split; [now rewrite Hp', Hp0 |].
  split; [exact Hlen |]. split; [exact Hnd |].
  split.
  { intros i d Hd. destruct (Hitems i d Hd) as (r & obj & Hr & Ho & Hrest).
    exists r, obj. split; [exact Hr |]. split; [| split; [exact Ho | exact Hrest]].
    apply (lookup_None_dom _ (App.objects b)); [exact Hd0 |].
    apply Hfresh. apply list_elem_of_lookup. now exists i. }
  rewrite Hs', Hs0, Hpan', Hpan0, Hsel', Hsel0, Hpl', Hpl0, Hls', Hls0.
  repeat split; reflexivity.
Qed.
Lemma loadLayout_replaces_scene_witness :
  exists a' rs,
    loadLayout no_assets uuids stamp_of (App.initial saved_storage) = (true, a') /\
    App.container a' = Some rs /\
    AppState.placedObjects (App.appState a') = rs /\
    length rs = 1%nat.
Proof.
  destruct (loadLayout_replaces_scene no_assets uuids stamp_of
              (App.initial saved_storage)
              (LayoutData.mk "1.0" 1700000000 (Some [both_paths])) [both_paths])
    as (a' & rs & Hl & Hc & Hp & Hlen & _).
  - vm_compute. reflexivity.
  - reflexivity.
  - discriminate.
  - eexists. reflexivity.
  - exists a', rs. auto.
Defined.

Lemma length_placed_objects a :
  (forall r, r ∈ AppState.placedObjects (App.appState a) ->
             is_Some (App.objects a !! r)) ->
  length (placed_objects a) = length (AppState.placedObjects (App.appState a)).
Proof.
  unfold placed_objects. induction (AppState.placedObjects (App.appState a)) as [| r l IH];
    intros Hall; [reflexivity |].
  cbn. destruct (Hall r) as [o ->]; [left |]. cbn. f_equal. apply IH.
  intros k Hk. apply Hall. now right.
Qed.

(** X3: when there is nothing to load. With no text under the key, a
    text that does not parse, or a layout document whose [objects] is
    missing or empty, [hasSavedLayout] is false, [loadLayout] returns false
    and leaves the whole application as it was, the Load button says "No
    saved layout found" and the Clear button "No saved data to clear",
    both without touching anything. *)
Theorem loadLayout_refuses_without_items (load : string -> option Asset.t)
    (uuid : nat -> nat -> string) (stamp : nat -> Stamp.t) (a : App.t) :
  nothing_to_load a ->
  hasSavedLayout a = false /\
  loadLayout load uuid stamp a = (false, a) /\
  ActionButtons._loadLayout load uuid stamp a = ([NoSavedLayoutFound], a) /\
  ActionButtons._clearStorage a = ([NoSavedData], a).
Proof.
  unfold nothing_to_load, ActionButtons._loadLayout, ActionButtons._clearStorage,
    hasSavedLayout, loadLayout.
  destruct (Storage.items (App.localStorage a) !! STORAGE_KEY) as [[doc | s] |];
    [| intros _; repeat split | intros _; repeat split].
  intros [-> | ->]; repeat split.
Qed.

Lemma loadLayout_refuses_witness :
  let a := App.set_localStorage unparsable_storage two_items in
  loadLayout no_assets uuids stamp_of a = (false, a) /\
  ActionButtons._loadLayout no_assets uuids stamp_of a = ([NoSavedLayoutFound], a).
Proof.
  cbv zeta.
  destruct (loadLayout_refuses_without_items no_assets uuids stamp_of
              (App.set_localStorage unparsable_storage two_items))
    as (_ & Hload & Hbutton & _); [vm_compute; exact I |].
  split; [exact Hload | exact Hbutton].
Defined.

(** X4: a layout that was saved can be loaded. Once the Save button has
    shown "Layout saved!", [hasSavedLayout] holds in every later state of
    the application whose store still is the one the save left, whatever
    happened to the scene in between; there [loadLayout] returns true and
    the Load button shows "Loading layout..." and then "Layout loaded!",
    ending in the state that [loadLayout] leaves. *)
Theorem saved_layout_loads_from_button (load : string -> option Asset.t)
    (uuid : nat -> nat -> string) (stamp : nat -> Stamp.t) (now : Q)
    (a a1 b : App.t) :
  (forall r, r ∈ AppState.placedObjects (App.appState a) ->
             is_Some (App.objects a !! r)) ->
  ActionButtons._saveLayout now a = ([LayoutSaved], a1) ->
  App.localStorage b = App.localStorage a1 ->
  hasSavedLayout b = true /\
  exists b',
    loadLayout load uuid stamp b = (true, b') /\
    ActionButtons._loadLayout load uuid stamp b = ([LoadingLayout; LayoutLoaded], b').
Proof.
  intros Hall Hsave Hls. pose proof (length_placed_objects a Hall) as Hlen.
  revert Hsave. unfold ActionButtons._saveLayout, saveLayout, Storage_setItem.
  destruct (AppState.placedObjects (App.appState a)) as [| r l] eqn:Hp;
    [intros [=] |].
  destruct (Storage.writable (App.localStorage a)); [| intros [=]].
  intros [= <-].
  unfold ActionButtons._loadLayout, hasSavedLayout, loadLayout. rewrite Hls.
  cbn [App.localStorage App.set_localStorage Storage.items].
  rewrite lookup_insert_eq. cbn [LayoutData.objects].
  destruct (serialize_all (App.materials a) (placed_objects a)) as [| d ds] eqn:Hs.
  { apply (f_equal length) in Hs. unfold serialize_all in Hs.
    rewrite length_fmap, Hlen in Hs. discriminate. }
  split; [reflexivity |]. eexists. split; reflexivity.
Qed.

Lemma saved_layout_loads_witness :
  let a1 := snd (ActionButtons._saveLayout 1700000002 two_items) in
  let b := ActionButtons._resetLayout a1 in
  hasSavedLayout b = true /\
  fst (ActionButtons._loadLayout no_assets uuids stamp_of b) = [LoadingLayout; LayoutLoaded].
Proof.
  cbv zeta.
  destruct (saved_layout_loads_from_button no_assets uuids stamp_of 1700000002 two_items
              (snd (ActionButtons._saveLayout 1700000002 two_items))
              (ActionButtons._resetLayout
                 (snd (ActionButtons._saveLayout 1700000002 two_items))))
    as (Hhas & b' & _ & Hbutton).
  - intros r Hr.
    replace (AppState.placedObjects (App.appState two_items)) with [0%nat; 1%nat] in Hr
      by (vm_compute; reflexivity).
    apply elem_of_cons in Hr as [-> | Hr];
      [| apply elem_of_cons in Hr as [-> | Hr]; [| now apply elem_of_nil in Hr]];
      vm_compute; eauto.
  - vm_compute. reflexivity.
  - vm_compute. reflexivity.
  - split; [exact Hhas |]. now rewrite Hbutton.
Defined.

(** X5: a load into a scene without furniture container. Each item fails to
    deserialize, nothing is cleared and nothing restored: the application is
    unchanged, and [loadLayout] still returns true. *)
Theorem loadLayout_without_container (load : string -> option Asset.t)
    (uuid : nat -> nat -> string) (stamp : nat -> Stamp.t) (a : App.t) :
  App.container a = None ->
  hasSavedLayout a = true ->
  loadLayout load uuid stamp a = (true, a).
Proof.
  intros Hc. unfold loadLayout, hasSavedLayout.
  destruct (Storage.items (App.localStorage a) !! STORAGE_KEY) as [[doc | s] |];
    try discriminate.
  destruct (LayoutData.objects doc) as [[| d ds] |]; try discriminate. intros _.
  unfold _clearCurrentObjects. rewrite Hc.
  now rewrite (deserialize_all_no_container load uuid stamp (d :: ds) 0 a Hc).
Qed.

Lemma loadLayout_without_container_witness :
  loadLayout no_assets uuids stamp_of
    (App.set_container None (App.initial saved_storage)) =
  (true, App.set_container None (App.initial saved_storage)).
Proof.
  apply loadLayout_without_container; vm_compute; reflexivity.
Defined.

(** X6: a save that cannot write. When [localStorage.setItem] throws,
    [saveLayout] returns false and the application, the stored document
    included, is as it was; the Save button then says "Nothing to save". *)
Theorem saveLayout_write_fails (now : Q) (a : App.t) :
  AppState.placedObjects (App.appState a) <> [] ->
  Storage.writable (App.localStorage a) = false ->
  saveLayout now a = (false, a) /\
  ActionButtons._saveLayout now a = ([NothingToSave], a).
Proof.
  intros Hne Hw. unfold ActionButtons._saveLayout, saveLayout, Storage_setItem.
  destruct (AppState.placedObjects (App.appState a)); [congruence |].
  rewrite Hw. split; reflexivity.
Qed.

Lemma saveLayout_write_fails_witness :
  let a := App.set_localStorage (Storage.mk ∅ false) two_items in
  saveLayout 1700000002 a = (false, a) /\
  ActionButtons._saveLayout 1700000002 a = ([NothingToSave], a).
Proof.
  apply saveLayout_write_fails; [vm_compute; discriminate | reflexivity].
Defined.

(** X7: a save that writes. With something placed and a store that accepts
    the write, [saveLayout] returns true and changes nothing but the
    document under its key: afterwards [hasSavedLayout] holds and
    [getSavedLayoutInfo] tells the number of placed objects and the time of
    the save; every other key of the store is as before. *)
Theorem saveLayout_then_info (toLocaleString : Q -> string) (now : Q) (a : App.t) :
  AppState.placedObjects (App.appState a) <> [] ->
  Storage.writable (App.localStorage a) = true ->
  (forall r, r ∈ AppState.placedObjects (App.appState a) ->
             is_Some (App.objects a !! r)) ->
  exists a',
    saveLayout now a = (true, a') /\
    a' = App.set_localStorage (App.localStorage a') a /\
    hasSavedLayout a' = true /\
    getSavedLayoutInfo toLocaleString a' =
      Some (LayoutInfo.mk (length (AppState.placedObjects (App.appState a))) now
              (toLocaleString now)) /\
    forall key, key <> STORAGE_KEY ->
      Storage.items (App.localStorage a') !! key =
      Storage.items (App.localStorage a) !! key.
Proof.
  intros Hne Hw Hall. pose proof (length_placed_objects a Hall) as Hlen.
  unfold saveLayout, Storage_setItem. rewrite Hw.
  destruct (AppState.placedObjects (App.appState a)) as [| r l] eqn:Hp; [congruence |].
  eexists. split; [reflexivity |]. split; [reflexivity |].
  unfold hasSavedLayout, getSavedLayoutInfo.
  cbn [App.localStorage App.set_localStorage Storage.items].
  rewrite lookup_insert_eq. cbn [LayoutData.objects LayoutData.timestamp].
  unfold serialize_all. rewrite length_fmap, Hlen.
  split; [reflexivity |]. split; [reflexivity |].
  intros key Hk. now rewrite lookup_insert_ne.
Qed.

Lemma saveLayout_then_info_witness :
  exists a',
    saveLayout 1700000002 two_items = (true, a') /\
    hasSavedLayout a' = true /\
    getSavedLayoutInfo (fun _ => "11/14/2023") a' =
      Some (LayoutInfo.mk 2 1700000002 "11/14/2023").
Proof.
  destruct (saveLayout_then_info (fun _ => "11/14/2023") 1700000002 two_items)
    as (a' & Hs & _ & Hh & Hi & _).
  - vm_compute. discriminate.
  - reflexivity.
  - intros r Hr.
    replace (AppState.placedObjects (App.appState two_items)) with [0%nat; 1%nat] in Hr
      by (vm_compute; reflexivity).
    apply elem_of_cons in Hr as [-> | Hr];
      [| apply elem_of_cons in Hr as [-> | Hr]; [| now apply elem_of_nil in Hr]];
      vm_compute; eauto.
  - exists a'. split; [exact Hs |]. split; [exact Hh |].
    rewrite Hi. f_equal.
Defined.

(** X8: clearing the stored layout. After [clearSavedLayout] there is no
    saved layout ([hasSavedLayout] is false, [getSavedLayoutInfo] is null, a
    load returns false and changes nothing); the scene and every other key
    of the store are untouched. *)
Theorem clearSavedLayout_forgets (toLocaleString : Q -> string)
    (load : string -> option Asset.t)
    (uuid : nat -> nat -> string) (stamp : nat -> Stamp.t) (a : App.t) :
  let a' := clearSavedLayout a in
  hasSavedLayout a' = false /\
  getSavedLayoutInfo toLocaleString a' = None /\
  loadLayout load uuid stamp a' = (false, a') /\
  a' = App.set_localStorage (App.localStorage a') a /\
  forall key, key <> STORAGE_KEY ->
    Storage.items (App.localStorage a') !! key =
    Storage.items (App.localStorage a) !! key.
Proof.
  unfold clearSavedLayout, hasSavedLayout, getSavedLayoutInfo, loadLayout.
  cbn [App.localStorage App.set_localStorage Storage.items].
  rewrite lookup_delete_eq. repeat split.
  intros key Hk. now rewrite lookup_delete_ne.
Qed.
(** X9: the Reset button. With at least one object in the furniture
    container, [_resetLayout] does what a load does first: the container
    and the list of placed objects are emptied and nothing is selected. The
    stored document is not touched, so a layout saved before the reset can
    still be loaded; the placement system's own list keeps its entries. *)
Theorem resetLayout_empties_scene (a : App.t) (l : list nat) :
  App.container a = Some l ->
  l <> [] ->
  let a' := ActionButtons._resetLayout a in
  a' = _clearCurrentObjects a /\
  App.container a' = Some [] /\
  AppState.placedObjects (App.appState a') = [] /\
  AppState.selectedObject (App.appState a') = None /\
  PropertiesPanel.selectedObject (App.panel a') = None /\
  SelectionSystem.selectedObject (App.selection a') = None /\
  App.localStorage a' = App.localStorage a /\
  hasSavedLayout a' = hasSavedLayout a /\
  getPlacedObjects a' = getPlacedObjects a.
Proof.
  intros Hc Hne. cbv zeta.
  assert (Heq : ActionButtons._resetLayout a = _clearCurrentObjects a).
  { unfold ActionButtons._resetLayout, _clearCurrentObjects. rewrite Hc.
    destruct l; [congruence | reflexivity]. }
  rewrite Heq.
  destruct (clearCurrentObjects_spec a) as (H1 & H2 & H3 & H4 & H5 & _ & H7 & H8 & _);
    [rewrite Hc; eauto |].
  cbv zeta in *. unfold hasSavedLayout, getPlacedObjects. rewrite H7, H8.
  repeat split; assumption.
Qed.

Lemma resetLayout_empties_scene_witness :
  App.container (ActionButtons._resetLayout two_items) = Some [] /\
  AppState.placedObjects (App.appState (ActionButtons._resetLayout two_items)) = [] /\
  getPlacedObjects (ActionButtons._resetLayout two_items) = [0%nat; 1%nat].
Proof.
  destruct (resetLayout_empties_scene two_items [0%nat; 1%nat])
    as (_ & Hc & Hp & _ & _ & _ & _ & _ & Hg).
  - vm_compute. reflexivity.
  - discriminate.
  - split; [exact Hc |]. split; [exact Hp |]. rewrite Hg. vm_compute. reflexivity.
Defined.

(** X10: restoring never writes what is there. Whatever the stored items
    and the loader, every scene object and every material that was in the
    stores before [deserialize_all] is there unchanged after it: the
    restored objects are new, and a stored delta is written to a clone of
    the material it concerns. *)
Theorem deserialize_all_keeps_scene (load : string -> option Asset.t)
    (uuid : nat -> nat -> string) (stamp : nat -> Stamp.t)
    (ds : list ObjData.t) (i0 : nat) (b : App.t) :
  let b' := snd (deserialize_all load uuid stamp i0 ds b) in
  (forall k o, App.objects b !! k = Some o -> App.objects b' !! k = Some o) /\
  (forall k m, App.materials b !! k = Some m -> App.materials b' !! k = Some m).
Proof.
  cbv zeta. destruct (App.container b) as [l |] eqn:Hc.
  - destruct (deserialize_all_items load uuid stamp ds i0 b)
      as (rs & b' & Hall & _ & _ & _ & Hfo & Hfm & _); [rewrite Hc; eauto |].
    rewrite Hall. cbn. split; [exact Hfo |].
    intros k m Hm. rewrite Hfm; [exact Hm | rewrite Hm; eauto].
  - rewrite (deserialize_all_no_container load uuid stamp ds i0 b Hc). cbn. auto.
Qed.
Lemma deserialize_model_fallback load uuid d :
  (forall p, modelPath_of d = Some p -> truthy_string p = true -> load p = None) ->
  deserialize_model load uuid d =
  Primitive_asset uuid (_createFallbackPrimitive (ObjData.furnitureType d)).
Proof.
  intros Hno. unfold deserialize_model.
  destruct (modelPath_of d) as [p |] eqn:Hp; [| reflexivity].
  destruct (truthy_string p) eqn:Ht; [| reflexivity].
  now rewrite (Hno p eq_refl Ht).
Qed.

(** X11: an item whose asset is not to be had. When the stored item has no
    usable path or the loader rejects it, the item comes back as one grey
    box mesh that carries the name of the item and its stored position,
    rotation and scale. A stored material delta is applied to the box only
    if it was stored under the name of the item or under the identifier of
    the new mesh; otherwise the deltas are dropped, and the restored item
    serializes without any. *)
Theorem unavailable_asset_restores_grey_box (load : string -> option Asset.t)
    (uuid : nat -> string) (stamp : Stamp.t) (d : ObjData.t) (b : App.t) :
  is_Some (App.container b) ->
  (forall p, modelPath_of d = Some p -> truthy_string p = true -> load p = None) ->
  let grey := Material.MeshStandardMaterial (Hex 0x888888) 1 0 in
  let box := Cell.mk (ObjData.name d) (uuid 0%nat) (Some grey) in
  exists r' b' obj',
    _deserializeObject load uuid stamp d b = (Some r', b') /\
    App.objects b' !! r' = Some obj' /\
    Object3D.position obj' = ObjData.position d /\
    Object3D.rotation obj' = ObjData.rotation d /\
    Object3D.scale obj' = ObjData.scale d /\
    object_cells (App.materials b') obj' =
      [match ObjData.materialMods d with
       | Some mods => mod_cell mods box
       | None => box
       end] /\
    ((forall mods md, ObjData.materialMods d = Some mods -> md ∈ mods ->
        MaterialMod.childName md <> ObjData.name d /\
        MaterialMod.childName md <> uuid 0%nat) ->
     object_cells (App.materials b') obj' = [box] /\
     ObjData.materialMods (_serializeObject (App.materials b') obj') = None).
Proof.
  intros Hc Hno grey box.
  destruct (deserialize_spec load uuid stamp d b Hc)
    as (r' & b' & obj' & Hde & _ & Hat & _ & Hpos & Hrot & Hsc & _ & Hcells & _).
  rewrite (deserialize_model_fallback load uuid d Hno) in Hcells.
  assert (Hcells' : object_cells (App.materials b') obj' =
                    [match ObjData.materialMods d with
                     | Some mods => mod_cell mods box
                     | None => box
                     end]).
  { rewrite Hcells. unfold restored_cells. now destruct (ObjData.materialMods d). }
  exists r', b', obj'. repeat (split; [assumption |]).
  intros Hnone.
  assert (Hbox : object_cells (App.materials b') obj' = [box]).
  { rewrite Hcells'. destruct (ObjData.materialMods d) as [mods |] eqn:Hm; [| reflexivity].
    unfold mod_cell. cbn [Cell.material box].
    assert (Hf : find_cell_mod mods box = None); [| now rewrite Hf].
    unfold find_cell_mod.
    destruct (list_find _ mods) as [[i md] |] eqn:Hfind; [| reflexivity].
    apply list_find_Some in Hfind as (Hi & Hmatch & _).
    destruct (Hnone mods md eq_refl) as [Hn Hu];
      [apply list_elem_of_lookup; now exists i |].
    cbn in Hmatch. tauto. }
  split; [exact Hbox |].
  change (ObjData.materialMods (_serializeObject (App.materials b') obj'))
    with (_serializeMaterialMods (App.materials b') obj').
  rewrite serializeMaterialMods_cells, Hbox. reflexivity.
Qed.

Lemma unavailable_asset_witness :
  exists r' b' obj',
    _deserializeObject no_assets (uuids 0) (stamp_of 0) both_paths
      (App.initial no_storage) = (Some r', b') /\
    App.objects b' !! r' = Some obj' /\
    object_cells (App.materials b') obj' =
      [Cell.mk "Furniture_Chair_1" (uuids 0 0)
         (Some (Material.MeshStandardMaterial (Hex 0x888888) 1 0))].
Proof.
  destruct (unavailable_asset_restores_grey_box no_assets (uuids 0) (stamp_of 0)
              both_paths (App.initial no_storage))
    as (r' & b' & obj' & Hde & Hat & _ & _ & _ & _ & Hbox).
  - eexists. reflexivity.
  - reflexivity.
  - exists r', b', obj'. split; [exact Hde |]. split; [exact Hat |].
    apply Hbox. intros mods md [=].
Defined.
(** ** Selection and dragging *)

(** X12: at most one item carries the selection flag. From a state in which
    every flagged item is the selected one, any sequence of pointer and
    key gestures and of calls to [select] and [deselect] leads to a state
    where two flagged items are the same item, and that item is the one
    the selection system holds. *)
Theorem at_most_one_item_flagged (quarter : Q) (gs : list Gesture) (a : App.t) :
  single_selection a ->
  let a' := gestures quarter gs a in
  forall r1 r2,
    flagged (App.objects a') r1 -> flagged (App.objects a') r2 ->
    r1 = r2 /\ SelectionSystem.selectedObject (App.selection a') = Some r1.
Proof.
  intros Hinv a' r1 r2 H1 H2.
  pose proof (single_selection_gestures quarter gs a Hinv) as Hinv'. fold a' in Hinv'.
  split; [| now apply Hinv'].
  apply Hinv' in H1, H2. congruence.
Qed.

Lemma unflagged_single_selection (a : App.t) :
  map_Forall (fun _ o => UserData.isSelected (Object3D.userData o) <> Some true)
    (App.objects a) ->
  single_selection a.
Proof.
  intros Hall r (o & Ho & Hf). exfalso. exact (Hall r o Ho Hf).
Qed.

Lemma at_most_one_item_flagged_witness :
  let a' := gestures 0 [MouseDown (click_on 0 (mkVector3 2 (1 # 2) 0));
                        MouseDown (click_on 1 (mkVector3 (-2) (1 # 2) 0))] two_items in
  flagged (App.objects a') 1 /\ ~ flagged (App.objects a') 0.
Proof.
  cbv zeta.
  set (a' := gestures 0 [MouseDown (click_on 0 (mkVector3 2 (1 # 2) 0));
                         MouseDown (click_on 1 (mkVector3 (-2) (1 # 2) 0))] two_items).
  assert (H1 : flagged (App.objects a') 1).
  { destruct (App.objects a' !! 1%nat) as [o |] eqn:Ho;
      [| vm_compute in Ho; discriminate].
    exists o. split; [exact Ho |].
    vm_compute in Ho. injection Ho as <-. reflexivity. }
  split; [exact H1 |]. intros H0.
  assert (Hinv : single_selection two_items).
  { apply unflagged_single_selection.
    apply (bool_decide_unpack _). vm_compute. exact I. }
  destruct (at_most_one_item_flagged 0
              [MouseDown (click_on 0 (mkVector3 2 (1 # 2) 0));
               MouseDown (click_on 1 (mkVector3 (-2) (1 # 2) 0))]
              two_items Hinv 0%nat 1%nat H0 H1) as [Heq _].
  discriminate Heq.
Defined.

(** X13: a drag moves the selected item along the floor and does nothing
    else. Whatever the pointer event and the state, after [_onMouseMove]
    every other scene object is as it was; the selected one keeps its
    nodes, metadata, height, rotation and scale; and the materials, the
    container, the lists of placed objects, the selection, the panel and
    the store are unchanged. *)
Theorem drag_moves_only_selected (event : MouseEvent.t) (a : App.t) :
  let a' := _onMouseMove event a in
  (forall k, SelectionSystem.selectedObject (App.selection a) <> Some k ->
             App.objects a' !! k = App.objects a !! k) /\
  (forall r o, SelectionSystem.selectedObject (App.selection a) = Some r ->
               App.objects a !! r = Some o ->
               exists o', App.objects a' !! r = Some o' /\ moved_on_floor o o') /\
  a' = App.set_objects (App.objects a') a.
Proof.
  cbv zeta. unfold _onMouseMove.
  destruct (SelectionSystem.isDragging (App.selection a)); cbn [negb];
    [| repeat split; [intros r o _ Ho; exists o; now repeat split | now destruct a]].
  destruct (SelectionSystem.selectedObject (App.selection a)) as [s |];
    [| repeat split; [intros r o [=] | now destruct a]].
  destruct (MouseEvent.floor event) as [p |];
    [| repeat split; [intros r o _ Ho; exists o; now repeat split | now destruct a]].
  unfold update_object. cbn [App.objects App.set_objects]. repeat split.
  - intros k Hk. apply lookup_alter_ne. congruence.
  - intros r o [= <-] Ho. rewrite lookup_alter_eq, Ho. cbn.
    eexists. split; [reflexivity |]. now repeat split.
Qed.
(** ** Deleting *)

Lemma remove_ref_cons (r x : nat) (l : list nat) :
  remove_ref r (x :: l) = if decide (x = r) then l else x :: remove_ref r l.
Proof.
  unfold remove_ref. cbn [list_find]. destruct (decide (x = r)) as [-> | Hne].
  - reflexivity.
  - destruct (list_find (fun k => k = r) l) as [[i y] |]; reflexivity.
Qed.

Lemma remove_ref_absent (r : nat) (l : list nat) : r ∉ l -> remove_ref r l = l.
Proof.
  induction l as [| x l IH]; intros Hnot; [reflexivity |].
  rewrite remove_ref_cons. apply not_elem_of_cons in Hnot as [Hne Hnot].
  destruct (decide (x = r)); [congruence |]. now rewrite IH.
Qed.

Lemma remove_ref_filter (r : nat) (l : list nat) :
  NoDup l -> remove_ref r l = filter (fun k => k <> r) l.
Proof.
  induction 1 as [| x l Hx Hnd IH]; [reflexivity |].
  rewrite remove_ref_cons, filter_cons. destruct (decide (x = r)) as [-> | Hne].
  - destruct (decide (r <> r)) as [Hrr |]; [now exfalso |].
    rewrite <- IH. symmetry. now apply remove_ref_absent.
  - destruct (decide (x <> r)) as [| Hxr]; [| now exfalso]. now rewrite IH.
Qed.

Lemma unhighlight_frame s a :
  let a' := unhighlight s a in
  App.appState a' = App.appState a /\ App.panel a' = App.panel a /\
  App.placement a' = App.placement a /\ App.localStorage a' = App.localStorage a /\
  App.container a' = App.container a /\ App.orbitEnabled a' = App.orbitEnabled a.
Proof.
  unfold unhighlight, update_object, _restoreOriginalMaterials, _removeHighlight,
    with_selection.
  destruct (App.objects _ !! s); cbn; repeat split; reflexivity.
Qed.

(** What [deselect] leaves behind when an item is selected. *)
Lemma deselect_spec a s :
  SelectionSystem.selectedObject (App.selection a) = Some s ->
  let a' := deselect a in
  AppState.selectedObject (App.appState a') = None /\
  PropertiesPanel.selectedObject (App.panel a') = None /\
  SelectionSystem.selectedObject (App.selection a') = None /\
  AppState.placedObjects (App.appState a') = AppState.placedObjects (App.appState a) /\
  App.container a' = App.container a /\
  App.placement a' = App.placement a /\
  App.localStorage a' = App.localStorage a.
Proof.
  intros Hs. unfold deselect. rewrite Hs. cbv zeta.
  destruct (set_selectedObject_None_spec
              (with_selection (Sel.set_selectedObject None) (unhighlight s a)))
    as (H1 & H2 & H3 & H4 & _ & H6 & H7 & H8 & _).
  cbv zeta in *. rewrite H1, H2, H3, H4, H6, H7, H8.
  destruct (unhighlight_frame s a) as (Ha & _ & Hpl & Hls & Hc & _).
  cbv zeta in *. unfold with_selection.
  cbn [App.appState App.container App.placement App.localStorage App.set_selection].
  rewrite Ha, Hpl, Hls, Hc. repeat split; reflexivity.
Qed.

(** X14: the Delete key. With an item selected and a furniture container
    in the scene, Delete (or Backspace) takes the item out of the container
    and out of the list of placed objects, keeping the other entries in
    their order, and leaves nothing selected. The placement system's own
    list still holds the item, and the stored layout is untouched. *)
Theorem delete_key_removes_selected (quarter : Q) (a : App.t) (s : nat) (l : list nat) :
  SelectionSystem.selectedObject (App.selection a) = Some s ->
  App.container a = Some l ->
  NoDup l ->
  NoDup (AppState.placedObjects (App.appState a)) ->
  let a' := _onKeyDown quarter KeyDelete a in
  _onKeyDown quarter KeyBackspace a = a' /\
  App.container a' = Some (filter (fun k => k <> s) l) /\
  AppState.placedObjects (App.appState a') =
    filter (fun k => k <> s) (AppState.placedObjects (App.appState a)) /\
  AppState.selectedObject (App.appState a') = None /\
  PropertiesPanel.selectedObject (App.panel a') = None /\
  SelectionSystem.selectedObject (App.selection a') = None /\
  getPlacedObjects a' = getPlacedObjects a /\
  App.localStorage a' = App.localStorage a.
Proof.
  intros Hs Hc Hnd Hndp. cbv zeta. unfold _onKeyDown. rewrite Hs.
  split; [reflexivity |].
  unfold _deleteSelected. rewrite Hs.
  destruct (deselect_spec a s Hs) as (H1 & H2 & H3 & H4 & H5 & H6 & H7).
  cbv zeta in *. rewrite H5, Hc.
  unfold AppState_removePlacedObject, getPlacedObjects.
  cbn [App.appState App.set_appState App.container App.set_container App.panel
       App.selection App.placement App.localStorage AppState.placedObjects
       AppState.selectedObject].
  rewrite H1, H2, H3, H4, H6, H7, !remove_ref_filter by assumption.
  repeat split; reflexivity.
Qed.

Lemma delete_key_witness :
  let a' := _onKeyDown 0 KeyDelete chair_picked in
  App.container a' = Some [1%nat] /\
  AppState.placedObjects (App.appState a') = [1%nat] /\
  getPlacedObjects a' = [0%nat; 1%nat].
Proof.
  destruct (delete_key_removes_selected 0 chair_picked 0 [0%nat; 1%nat])
    as (_ & Hc & Hp & _ & _ & _ & Hg & _).
  - vm_compute. reflexivity.
  - vm_compute. reflexivity.
  - apply (bool_decide_unpack _). vm_compute. exact I.
  - apply (bool_decide_unpack _). vm_compute. exact I.
  - cbv zeta. rewrite Hc, Hp, Hg. repeat split; vm_compute; reflexivity.
Defined.

(** X15: the Delete button and the Delete key agree. When the application
    state and the selection system hold the same selected item and the
    scene has its furniture container, [ActionButtons._deleteSelected]
    shows no notification and leaves the application in the very state
    that [SelectionSystem._deleteSelected] leaves it in. *)
Theorem delete_button_agrees_with_key (a : App.t) (s : nat) :
  AppState.selectedObject (App.appState a) = Some s ->
  SelectionSystem.selectedObject (App.selection a) = Some s ->
  is_Some (App.container a) ->
  ActionButtons._deleteSelected a = ([], _deleteSelected a).
Proof.
  intros Hst Hs [l Hc]. unfold ActionButtons._deleteSelected, _deleteSelected.
  rewrite Hst, Hs, Hc.
  assert (Heq : deselect a = AppState_set_selectedObject None a).
  { unfold deselect. rewrite Hs. unfold AppState_set_selectedObject.
    rewrite (updateSelection_same None) by reflexivity.
    unfold _updateSelection. case_decide as Hd; [cbn in Hd; congruence |].
    cbn [App.selection App.set_panel App.set_appState]. rewrite Hs.
    unfold with_selection, unhighlight, update_object, _restoreOriginalMaterials,
      _removeHighlight, with_selection.
    cbn [App.objects App.set_selection App.set_panel App.set_appState App.selection
         App.materials App.set_materials App.set_objects App.appState App.panel].
    destruct (App.objects a !! s); reflexivity. }
  rewrite Heq.
  destruct (set_selectedObject_None_spec a) as (_ & _ & _ & _ & _ & Hc' & _).
  cbv zeta in Hc'. rewrite Hc', Hc. reflexivity.
Qed.

Lemma delete_button_witness :
  ActionButtons._deleteSelected chair_picked = ([], _deleteSelected chair_picked).
Proof.
  apply (delete_button_agrees_with_key chair_picked 0);
    [vm_compute; reflexivity | vm_compute; reflexivity | vm_compute; eauto].
Defined.
(** ** Editing the appearance *)

Lemma mutate_child_keeps_shared w ms n ms' n' k mat :
  mutate_child w ms n = (ms', n') ->
  ms !! k = Some mat -> Material._isCloned mat = false ->
  ms' !! k = Some mat.
Proof.
  unfold mutate_child. destruct (mesh_material ms n) as [[r m] |] eqn:E;
    [| now intros [= <- <-]].
  apply mesh_material_Some in E as [_ Hm].
  unfold clone_if_shared, alloc_material.
  destruct (Material._isCloned m) eqn:Hcl; cbn; intros [= <- <-] Hk Hmat.
  - rewrite lookup_insert_ne; [exact Hk | congruence].
  - rewrite insert_insert_eq, lookup_insert_ne; [exact Hk |].
    intros <-. rewrite fresh_material_absent in Hk. discriminate.
Qed.

Lemma traverse_keeps_shared w k mat : forall ns ms ms' ns',
  traverse_update (mutate_child w) ms ns = (ms', ns') ->
  ms !! k = Some mat -> Material._isCloned mat = false ->
  ms' !! k = Some mat.
Proof.
  induction ns as [| n ns IH]; intros ms ms' ns'; cbn.
  - now intros [= <- <-].
  - destruct (mutate_child w ms n) as [ms1 n1] eqn:E1.
    destruct (traverse_update (mutate_child w) ms1 ns) as [ms2 ns2] eqn:E2.
    intros [= <- <-] Hk Hmat. eapply IH; [exact E2 | | exact Hmat].
    eapply mutate_child_keeps_shared; eassumption.
Qed.

Lemma storeOriginalColors_frame a :
  App.materials (_storeOriginalColors a) = App.materials a /\
  App.objects (_storeOriginalColors a) = App.objects a /\
  PropertiesPanel.selectedObject (App.panel (_storeOriginalColors a)) =
    PropertiesPanel.selectedObject (App.panel a).
Proof.
  unfold _storeOriginalColors. destruct (panel_object a) as [[r o] |]; [| auto].
  destruct (_ !! Object3D.uuid o); auto.
Qed.

Lemma panel_object_store a : panel_object (_storeOriginalColors a) = panel_object a.
Proof.
  destruct (storeOriginalColors_frame a) as (_ & Ho & Hs).
  unfold panel_object. now rewrite Ho, Hs.
Qed.

Lemma mutate_no_panel_object a m : panel_object a = None -> mutate a m = a.
Proof.
  intros H. destruct m; cbn; unfold _applyColor, _applyMaterial, _applyOpacity;
    now rewrite H.
Qed.

(** X16: an edit never writes a material that is not a private clone.
    Colour, material preset and opacity are written to the materials of
    the selected item, but a material that does not carry the clone flag
    (one that came with the model and may be shared) is cloned first: it
    is in the store unchanged after the edit. *)
Theorem edit_never_writes_unflagged_material (m : Mutation) (a : App.t)
    (k : nat) (mat : Material.t) :
  App.materials a !! k = Some mat ->
  Material._isCloned mat = false ->
  App.materials (mutate a m) !! k = Some mat.
Proof.
  intros Hk Hmat. destruct (panel_object a) as [[r o] |] eqn:Hpo;
    [| now rewrite mutate_no_panel_object].
  rewrite (mutate_unfold a m r o Hpo). unfold traverse_object.
  set (a0 := if takes_snapshot m then _storeOriginalColors a else a).
  assert (Hms : App.materials a0 = App.materials a).
  { unfold a0. destruct (takes_snapshot m); [apply storeOriginalColors_frame | reflexivity]. }
  destruct (traverse_update _ _ _) as [ms' ns'] eqn:Htr. cbn.
  eapply traverse_keeps_shared; [exact Htr | | exact Hmat]. now rewrite Hms.
Qed.

Lemma edit_never_writes_unflagged_witness :
  App.materials (mutate chair_picked (SetColor red)) !! 0%nat =
  App.materials chair_picked !! 0%nat.
Proof.
  destruct (App.materials chair_picked !! 0%nat) as [mat |] eqn:E;
    [| vm_compute in E; discriminate].
  apply (edit_never_writes_unflagged_material (SetColor red) chair_picked 0 mat E).
  vm_compute in E. injection E as <-. reflexivity.
Defined.
Lemma shows_writer (mu : Mutation) (m : Material.t) :
  shows mu (writer_of mu (Material.set_isCloned true m)).
Proof.
  destruct m as [c me ro op tr em ei cl], mu as [c' | preset | q]; cbn.
  - unfold write_color. cbn. destruct c; cbn; split; try reflexivity; intros [? [=]].
  - unfold write_material. cbn.
    destruct me, ro; cbn; repeat split; try reflexivity; intros [? [=]].
  - repeat split.
Qed.

(** A traversal that writes [w] leaves on every mesh of the item a material
    of the kind [P] that every written material is of. *)
Lemma traverse_all_written w (P : Material.t -> Prop) :
  (forall m, P (w (Material.set_isCloned true m))) ->
  forall ns ms ms' ns',
    traverse_update (mutate_child w) ms ns = (ms', ns') ->
    (forall n r, n ∈ ns -> node_ref n = Some r -> is_Some (ms !! r)) ->
    Forall2 same_node ns ns' /\
    (forall k m, ms !! k = Some m -> P m -> exists m', ms' !! k = Some m' /\ P m') /\
    (forall k, is_Some (ms !! k) -> is_Some (ms' !! k)) /\
    (forall n' r m, n' ∈ ns' -> mesh_material ms' n' = Some (r, m) -> P m).
Proof.
  intros HP. induction ns as [| n ns IH]; intros ms ms' ns'; cbn.
  - intros [= <- <-] _. repeat split; eauto. intros n' r m Hin. now apply elem_of_nil in Hin.
  - destruct (mutate_child w ms n) as [ms1 n1] eqn:E1.
    destruct (traverse_update (mutate_child w) ms1 ns) as [ms2 ns2] eqn:E2.
    intros [= <- <-] Halloc.
    destruct (node_ref n) as [r |] eqn:Hr.
    + destruct (Halloc n r) as [m Hm]; [left | exact Hr |].
      destruct (mutate_child_step w ms n r m Hr Hm)
        as (r' & n1' & Hstep & Hname & Huuid & Hmesh & Hr' & Hwhere).
      rewrite Hstep in E1. injection E1 as <- <-.
      destruct (IH _ _ _ E2) as (Hall & HA & HB & HC).
      { intros n0 r0 Hin Hr0. rewrite lookup_insert_is_Some'. right.
        apply (Halloc n0 r0); [now right | exact Hr0]. }
      assert (Hwritten : exists m', ms2 !! r' = Some m' /\ P m').
      { apply (HA r' (w (Material.set_isCloned true m))); [| apply HP].
        apply lookup_insert_eq. }
      split; [| split; [| split]].
      * constructor; [| exact Hall].
        repeat split; try assumption; rewrite ?Hr', ?Hr; eauto.
      * intros k m0 Hk HPm. destruct (decide (k = r')) as [-> | Hne]; [exact Hwritten |].
        apply (HA k m0); [| exact HPm]. now rewrite lookup_insert_ne.
      * intros k Hk. apply HB. rewrite lookup_insert_is_Some'. now right.
      * intros n' q m0 [-> | Hin]%elem_of_cons Hmm; [| now apply (HC n' q m0)].
        apply mesh_material_Some in Hmm as [Hq Hm0].
        assert (q = r') by congruence. subst q.
        destruct Hwritten as (m' & Hm' & HPm'). congruence.
    + rewrite (mutate_child_skip w ms n Hr) in E1. injection E1 as <- <-.
      destruct (IH _ _ _ E2) as (Hall & HA & HB & HC).
      { intros n0 r0 Hin. apply Halloc. now right. }
      split; [| split; [exact HA | split; [exact HB |]]].
      * constructor; [| exact Hall]. now repeat split.
      * intros n' q m0 [-> | Hin]%elem_of_cons Hmm; [| now apply (HC n' q m0)].
        apply mesh_material_Some in Hmm as [Hq _]. congruence.
Qed.

(** X17: an edit reaches every mesh of the selected item. After a colour,
    a material preset or an opacity is applied, the item has the same
    nodes as before (names, identifiers, meshes), and the material of
    each of its meshes carries the clone flag and holds the written values:
    the colour where the material has a colour, the metalness and roughness
    of the preset where it has them, the opacity with [transparent] set
    exactly when the opacity is below 1. *)
Theorem edit_reaches_every_mesh (mu : Mutation) (a : App.t) (r : nat) (o : Object3D.t) :
  panel_object a = Some (r, o) ->
  (forall n q, n ∈ Object3D.nodes o -> node_ref n = Some q ->
               is_Some (App.materials a !! q)) ->
  exists o',
    App.objects (mutate a mu) !! r = Some o' /\
    Forall2 same_node (Object3D.nodes o) (Object3D.nodes o') /\
    forall n' q m,
      n' ∈ Object3D.nodes o' ->
      mesh_material (App.materials (mutate a mu)) n' = Some (q, m) ->
      shows mu m.
Proof.
  intros Hpo Halloc. rewrite (mutate_unfold a mu r o Hpo). unfold traverse_object.
  set (a0 := if takes_snapshot mu then _storeOriginalColors a else a).
  assert (Hms : App.materials a0 = App.materials a).
  { unfold a0. destruct (takes_snapshot mu); [apply storeOriginalColors_frame | reflexivity]. }
  destruct (traverse_update _ _ _) as [ms' ns'] eqn:Htr.
  destruct (traverse_all_written (writer_of mu) (shows mu) (shows_writer mu) _ _ _ _ Htr)
    as (Hall & _ & _ & HC).
  { intros n q Hin Hq. rewrite Hms. now apply (Halloc n q). }
  assert (Hne : ns' <> []).
  { intros ->. inversion Hall. }
  exists (Object3D.set_nodes ns' o). cbn [App.objects App.set_objects App.materials
                                          App.set_materials].
  rewrite lookup_insert_eq, (nodes_set_nodes ns' o Hne).
  split; [reflexivity |]. split; [exact Hall | exact HC].
Qed.

Lemma edit_reaches_every_mesh_witness :
  exists o',
    App.objects (mutate chair_picked (SetOpacity (1 # 2))) !! 0%nat = Some o' /\
    forall n' q m,
      n' ∈ Object3D.nodes o' ->
      mesh_material (App.materials (mutate chair_picked (SetOpacity (1 # 2)))) n'
        = Some (q, m) ->
      Material.opacity m = 1 # 2 /\ Material.transparent m = true.
Proof.
  destruct (App.objects chair_picked !! 0%nat) as [o |] eqn:Ho;
    [| vm_compute in Ho; discriminate].
  destruct (edit_reaches_every_mesh (SetOpacity (1 # 2)) chair_picked 0 o)
    as (o' & Hat & _ & Hall).
  - apply panel_object_Some; [vm_compute; reflexivity | exact Ho].
  - vm_compute in Ho. injection Ho as <-. intros n q Hin Hq.
    unfold Object3D.nodes in Hin. cbn [Object3D.self Object3D.descendants] in Hin.
    repeat match goal with
           | H : _ ∈ _ :: _ |- _ => apply elem_of_cons in H as [-> | H]
           | H : _ ∈ [] |- _ => apply elem_of_nil in H; contradiction
           end;
      vm_compute in Hq; try discriminate; injection Hq as <-; vm_compute; eauto.
  - exists o'. split; [exact Hat |]. intros n' q m Hin Hm.
    destruct (Hall n' q m Hin Hm) as (_ & Hop & Htr). split; [exact Hop | exact Htr].
Defined.
(** ** Opacity edits and the reset *)

Lemma opacity_written q m :
  Material.opacity (write_opacity q (Material.set_isCloned true m)) = q.
Proof. now destruct m. Qed.

(** An edit that takes no snapshot leaves a well-formed item well formed,
    under the same identifier, and the panel as it was. *)
Lemma edit_keeps_well_formed (mu : Mutation) (a : App.t) (r : nat) (o : Object3D.t) :
  takes_snapshot mu = false ->
  panel_object a = Some (r, o) ->
  item_well_formed (App.materials a) (Object3D.nodes o) ->
  exists o',
    App.objects (mutate a mu) !! r = Some o' /\
    Object3D.uuid o' = Object3D.uuid o /\
    App.panel (mutate a mu) = App.panel a /\
    item_well_formed (App.materials (mutate a mu)) (Object3D.nodes o').
Proof.
  intros Hno Hpo (Huuid & Halloc & Hsep).
  rewrite (mutate_unfold a mu r o Hpo), Hno.
  destruct (traverse_mutate (writer_of mu) (Object3D.nodes o) (App.materials a) Halloc Hsep)
    as (ms' & ns' & Heq & Hall & Hnd & _ & _).
  destruct (Forall2_mutated_nodes _ _ _ _ _ Hall) as [Hnodes Hu].
  unfold traverse_object. rewrite Heq.
  exists (Object3D.set_nodes ns' o).
  split; [cbn; apply lookup_insert_eq |].
  split; [exact Hu |]. split; [reflexivity |].
  rewrite Hnodes. cbn [App.materials App.set_objects App.set_materials].
  split; [| split].
  - replace (Node.uuid <$> ns') with (Node.uuid <$> Object3D.nodes o); [exact Huuid |].
    clear -Hall. induction Hall as [| n n' ns ns' (_ & Hun & _) _ IH]; [reflexivity |].
    cbn. now rewrite Hun, IH.
  - intros n' k Hin Hk. apply list_elem_of_lookup in Hin as [i Hi].
    destruct (Forall2_lookup_r _ _ _ _ _ Hall Hi) as (n & _ & (_ & _ & _ & Hcase)).
    destruct (node_ref n) as [k0 |] eqn:Hn.
    + destruct Hcase as (k' & m & _ & Hk' & Hm' & _).
      assert (k' = k) by congruence. subst k'. eauto.
    + subst n'. congruence.
  - intros i j n1 n2 k m Hij H1 H2 Hr1 Hr2 _. exfalso. apply Hij.
    apply (NoDup_omap_lookup node_ref ns' Hnd i j n1 n2 k H1 H2 Hr1 Hr2).
Qed.

Lemma opacity_first_then_reset (q : Q) (a : App.t) (r : nat) (o : Object3D.t)
    (first : Mutation) (later : list Mutation) :
  panel_object a = Some (r, o) ->
  PropertiesPanel.originalColors (App.panel a) !! Object3D.uuid o = None ->
  item_well_formed (App.materials a) (Object3D.nodes o) ->
  takes_snapshot first = true ->
  item_appearance
    (_resetColor (foldl mutate (mutate (_applyOpacity q a) first) later)) r =
  item_appearance (_applyOpacity q a) r.
Proof.
  intros Hpo Hnone Hwf Htakes.
  change (_applyOpacity q a) with (mutate a (SetOpacity q)).
  destruct (edit_keeps_well_formed (SetOpacity q) a r o eq_refl Hpo Hwf)
    as (o' & Hat & Hu & Hpanel & Hwf').
  apply (reset_restores_original _ r o' first later); auto.
  - rewrite Hpanel. unfold panel_object in Hpo.
    destruct (PropertiesPanel.selectedObject (App.panel a)) as [r0 |]; [| discriminate].
    cbn in Hpo. destruct (App.objects a !! r0); [| discriminate].
    cbn in Hpo. now injection Hpo as -> _.
  - now rewrite Hpanel, Hu.
Qed.

(** X28: a reset does not undo an opacity edit made first. [_applyOpacity]
    takes no snapshot. On a selected item without a snapshot it leaves the
    panel as it was and writes the opacity on every mesh of the item; a
    reset right after it changes nothing; and when a colour or a material
    preset follows, with any further edits, the reset brings the item back
    to what the opacity edit left, not to what it was before that edit. *)
Theorem opacity_edit_escapes_reset (q : Q) (a : App.t) (r : nat) (o : Object3D.t) :
  panel_object a = Some (r, o) ->
  PropertiesPanel.originalColors (App.panel a) !! Object3D.uuid o = None ->
  item_well_formed (App.materials a) (Object3D.nodes o) ->
  let a' := _applyOpacity q a in
  App.panel a' = App.panel a /\
  _resetColor a' = a' /\
  (exists o',
     App.objects a' !! r = Some o' /\
     Forall2 same_node (Object3D.nodes o) (Object3D.nodes o') /\
     forall n' k m,
       n' ∈ Object3D.nodes o' ->
       mesh_material (App.materials a') n' = Some (k, m) ->
       Material.opacity m = q) /\
  (forall first later,
     takes_snapshot first = true ->
     item_appearance (_resetColor (foldl mutate (mutate a' first) later)) r =
     item_appearance a' r).
Proof.
  intros Hpo Hnone Hwf. cbv zeta.
  split; [| split; [| split]].
  4: { intros first later Htakes. now apply (opacity_first_then_reset q a r o). }
  all: change (_applyOpacity q a) with (mutate a (SetOpacity q)).
  - destruct (edit_keeps_well_formed (SetOpacity q) a r o eq_refl Hpo Hwf)
      as (_ & _ & _ & Hpanel & _). exact Hpanel.
  - destruct (edit_keeps_well_formed (SetOpacity q) a r o eq_refl Hpo Hwf)
      as (o' & Hat & Hu & Hpanel & _).
    apply resetColor_without_snapshot. intros r1 o1 Hpo1.
    rewrite Hpanel. unfold panel_object in Hpo, Hpo1. rewrite Hpanel in Hpo1.
    destruct (PropertiesPanel.selectedObject (App.panel a)) as [r0 |]; [| discriminate].
    cbn [mbind option_bind] in Hpo, Hpo1.
    destruct (App.objects a !! r0) as [o0 |]; [| discriminate].
    cbn [mbind option_bind] in Hpo. injection Hpo as -> ->.
    rewrite Hat in Hpo1. cbn [mbind option_bind] in Hpo1. injection Hpo1 as _ <-.
    now rewrite Hu.
  - rewrite (mutate_unfold a (SetOpacity q) r o Hpo). cbn [takes_snapshot].
    unfold traverse_object.
    destruct (traverse_update _ _ _) as [ms' ns'] eqn:Htr.
    destruct (traverse_all_written (writer_of (SetOpacity q))
                (fun m => Material.opacity m = q) (opacity_written q) _ _ _ _ Htr
                (proj1 (proj2 Hwf)))
      as (Hall & _ & _ & HC).
    assert (Hne : ns' <> []).
    { intros ->. inversion Hall. }
    exists (Object3D.set_nodes ns' o).
    cbn [App.objects App.set_objects App.materials App.set_materials].
    rewrite lookup_insert_eq, (nodes_set_nodes ns' o Hne).
    split; [reflexivity |]. split; [exact Hall | exact HC].
Qed.

Lemma opacity_edit_escapes_reset_witness :
  let a' := _applyOpacity (1 # 2) chair_picked in
  _resetColor a' = a' /\
  item_appearance
    (_resetColor (foldl mutate (mutate a' (SetColor red)) [SetMaterial "glossy"])) 0 =
  item_appearance a' 0.
Proof.
  cbv zeta.
  destruct (App.objects chair_picked !! 0%nat) as [o |] eqn:Ho;
    [| vm_compute in Ho; discriminate].
  destruct (opacity_edit_escapes_reset (1 # 2) chair_picked 0 o)
    as (_ & Hreset & _ & Hlater).
  - apply panel_object_Some; [vm_compute; reflexivity | exact Ho].
  - vm_compute in Ho. injection Ho as <-. vm_compute. reflexivity.
  - vm_compute in Ho. injection Ho as <-. apply item_check_sound.
    vm_compute. reflexivity.
  - split; [exact Hreset |]. exact (Hlater (SetColor red) [SetMaterial "glossy"] eq_refl).
Defined.

(** ** Duplicating *)

Lemma applyHighlightMaterial_frame r a :
  let a' := _applyHighlightMaterial r a in
  App.appState a' = App.appState a /\ App.panel a' = App.panel a /\
  App.placement a' = App.placement a /\ App.localStorage a' = App.localStorage a /\
  App.container a' = App.container a /\ App.objects a' = App.objects a /\
  SelectionSystem.selectedObject (App.selection a') =
    SelectionSystem.selectedObject (App.selection a).
Proof.
  unfold _applyHighlightMaterial. destruct (App.objects a !! r); [| now repeat split].
  destruct (foldl _ _ _). now repeat split.
Qed.

(** What [AppState.set('selectedObject', c)] makes of a state in which
    another item [r] is selected. *)
Lemma set_selectedObject_Some_spec a r c :
  SelectionSystem.selectedObject (App.selection a) = Some r -> r <> c ->
  let a' := AppState_set_selectedObject (Some c) a in
  AppState.selectedObject (App.appState a') = Some c /\
  PropertiesPanel.selectedObject (App.panel a') = Some c /\
  SelectionSystem.selectedObject (App.selection a') = Some c /\
  AppState.placedObjects (App.appState a') = AppState.placedObjects (App.appState a) /\
  App.container a' = App.container a /\
  App.placement a' = App.placement a /\
  App.localStorage a' = App.localStorage a /\
  App.objects a' =
    alter (set_flag true) c (alter (set_flag false) r (App.objects a)).
Proof.
  intros Hs Hne. unfold AppState_set_selectedObject. cbv zeta.
  set (a0 := App.set_panel _ (App.set_appState _ a)).
  assert (Hs0 : SelectionSystem.selectedObject (App.selection a0) = Some r) by exact Hs.
  unfold _updateSelection. case_decide as Hd; [congruence |]. rewrite Hs0.
  set (a1 := unhighlight r a0).
  destruct (unhighlight_frame r a0) as (Ha1 & Hp1 & Hpl1 & Hls1 & Hc1 & _).
  destruct (objects_unhighlight r a0) as [Ho1 _]. fold a1 in Ha1, Hp1, Hpl1, Hls1, Hc1, Ho1.
  set (a2 := _createHighlight c
               (update_object c (set_flag true)
                  (with_selection (Sel.set_selectedObject (Some c)) a1))).
  destruct (applyHighlightMaterial_frame c a2) as (Ha & Hp & Hpl & Hls & Hc & Ho & Hsel).
  cbv zeta in *. rewrite Ha, Hp, Hpl, Hls, Hc, Ho, Hsel.
  unfold a2, _createHighlight, _removeHighlight, with_selection, update_object.
  cbn [App.appState App.panel App.placement App.localStorage App.container App.objects
       App.selection App.set_selection App.set_objects
       SelectionSystem.selectedObject Sel.set_highlightHelper Sel.set_selectedObject].
  rewrite Ha1, Hp1, Hpl1, Hls1, Hc1, Ho1. repeat split; reflexivity.
Qed.

Lemma fmap_imap_const {A B C} (g : B -> C) (h : A -> C) (l : list A) :
  forall f : nat -> A -> B,
    (forall i x, g (f i x) = h x) -> g <$> imap f l = h <$> l.
Proof.
  induction l as [| x l IH]; intros f Hf; [reflexivity |].
  cbn. rewrite Hf. f_equal. apply IH. intros i y. apply Hf.
Qed.

Lemma fmap_imap_index {A B C} (g : B -> C) (u : nat -> C) (l : list A) :
  forall (f : nat -> A -> B) (j : nat),
    (forall i x, g (f i x) = u (j + i)%nat) ->
    g <$> imap f l = u <$> seq j (length l).
Proof.
  induction l as [| x l IH]; intros f j Hf; [reflexivity |].
  cbn. rewrite Hf, Nat.add_0_r. f_equal. apply IH.
  intros i y. cbn. rewrite Hf. f_equal. lia.
Qed.

(** X18: Duplicate. With the selected item [r] in the furniture container,
    [_duplicateObject] adds one new scene object: named like the original
    with "_copy" appended, half a unit further along x and z at the same
    height, rotation and scale, whatever the room bounds; its nodes have new
    identifiers but point to the very materials of the original's nodes.
    The copy goes to the end of the container and of the list of placed
    objects and becomes the selected item; the original is still there
    with its flag cleared, and the placement system's own list does not
    learn of the copy. *)
Theorem duplicate_adds_shared_copy (uuid : nat -> string) (a : App.t)
    (r : nat) (o : Object3D.t) (children : list nat) :
  panel_object a = Some (r, o) ->
  SelectionSystem.selectedObject (App.selection a) = Some r ->
  App.container a = Some children ->
  r ∈ children ->
  let a' := _duplicateObject uuid a in
  let c := fresh (dom (App.objects a)) in
  App.objects a !! c = None /\
  (exists clone,
     App.objects a' !! c = Some clone /\
     Object3D.name clone = Object3D.name o +:+ "_copy" /\
     UserData.name (Object3D.userData clone) = Some (Object3D.name o +:+ "_copy") /\
     UserData.isSelected (Object3D.userData clone) = Some true /\
     Object3D.position clone =
       mkVector3 (vx (Object3D.position o) + 0.5) (vy (Object3D.position o))
                 (vz (Object3D.position o) + 0.5) /\
     Object3D.rotation clone = Object3D.rotation o /\
     Object3D.scale clone = Object3D.scale o /\
     Node.material <$> Object3D.nodes clone = Node.material <$> Object3D.nodes o /\
     Node.isMesh <$> Object3D.nodes clone = Node.isMesh <$> Object3D.nodes o /\
     Node.uuid <$> Object3D.nodes clone = uuid <$> seq 0 (length (Object3D.nodes o))) /\
  App.objects a' !! r = Some (set_flag false o) /\
  App.container a' = Some (children ++ [c]) /\
  AppState.placedObjects (App.appState a') =
    AppState.placedObjects (App.appState a) ++ [c] /\
  AppState.selectedObject (App.appState a') = Some c /\
  PropertiesPanel.selectedObject (App.panel a') = Some c /\
  SelectionSystem.selectedObject (App.selection a') = Some c /\
  getPlacedObjects a' = getPlacedObjects a.
Proof.
  intros Hpo Hs Hc Hin. cbv zeta.
  assert (Ho : App.objects a !! r = Some o).
  { unfold panel_object in Hpo.
    destruct (PropertiesPanel.selectedObject (App.panel a)) as [r0 |]; [| discriminate].
    cbn in Hpo. destruct (App.objects a !! r0) eqn:E; [| discriminate].
    cbn in Hpo. congruence. }
  set (c := fresh (dom (App.objects a))).
  assert (Hfresh : App.objects a !! c = None) by (apply not_elem_of_dom, is_fresh).
  assert (Hne : r <> c) by congruence.
  unfold _duplicateObject. rewrite Hpo, Hc. rewrite bool_decide_eq_true_2 by exact Hin.
  unfold App.new_object. fold c.
  set (clone := Object3D.set_userData _ _).
  set (a3 := AppState_addPlacedObject c (container_add c _)).
  destruct (set_selectedObject_Some_spec a3 r c Hs Hne)
    as (H1 & H2 & H3 & H4 & H5 & H6 & H7 & H8).
  cbv zeta in *. unfold getPlacedObjects. rewrite H1, H2, H3, H4, H5, H6, H8.
  unfold a3, AppState_addPlacedObject, container_add.
  cbn [App.appState App.container App.placement App.objects App.set_appState
       App.set_container App.set_objects AppState.placedObjects].
  rewrite Hc. split; [exact Hfresh |]. split.
  { exists (set_flag true clone).
    rewrite lookup_alter_eq, lookup_alter_ne, lookup_insert_eq by congruence.
    split; [reflexivity |]. unfold clone. cbn.
    repeat split; try reflexivity.
    - f_equal. now apply fmap_imap_const.
    - f_equal. now apply fmap_imap_const.
    - f_equal. now apply fmap_imap_index. }
  split.
  { rewrite lookup_alter_ne, lookup_alter_eq, lookup_insert_ne, Ho by congruence.
    reflexivity. }
  repeat split; reflexivity.
Qed.
Lemma duplicate_witness :
  let a' := _duplicateObject (uuids 2) chair_picked in
  let c := fresh (dom (App.objects chair_picked)) in
  App.container a' = Some [0%nat; 1%nat; c] /\
  SelectionSystem.selectedObject (App.selection a') = Some c /\
  getPlacedObjects a' = [0%nat; 1%nat].
Proof.
  destruct (App.objects chair_picked !! 0%nat) as [o |] eqn:Ho;
    [| vm_compute in Ho; discriminate].
  destruct (duplicate_adds_shared_copy (uuids 2) chair_picked 0 o [0%nat; 1%nat])
    as (_ & _ & _ & Hc & _ & _ & _ & Hs & Hg).
  - apply panel_object_Some; [vm_compute; reflexivity | exact Ho].
  - vm_compute. reflexivity.
  - vm_compute. reflexivity.
  - left.
  - cbv zeta. rewrite Hc, Hs, Hg. repeat split; vm_compute; reflexivity.
Defined.

(** ** Placing *)

Lemma Qle_bool_true (x y : Q) : Qle_bool x y = true <-> x <= y.
Proof. apply Qle_bool_iff. Qed.

(** X19: the bounds of a placement are the bounds of the room. The check
    that [_onDoubleClick] makes with its default margin admits a point
    exactly when its x and z lie within [minX, maxX] and [minZ, maxZ] of
    [Room.getBounds]; the height of the point plays no part. *)
Theorem isWithinBounds_iff_room_bounds (position : Vector3) :
  _isWithinBounds position 0.5 = true <->
  Bounds.minX getBounds <= vx position <= Bounds.maxX getBounds /\
  Bounds.minZ getBounds <= vz position <= Bounds.maxZ getBounds.
Proof.
  unfold _isWithinBounds, getBounds. cbn [Bounds.minX Bounds.maxX Bounds.minZ Bounds.maxZ].
  rewrite !andb_true_iff, !Qle_bool_true.
  unfold ROOM_CONFIG.width, ROOM_CONFIG.depth, Qdiv.
  change (/ 2) with (1 # 2).
  split; intros H; repeat split; lra.
Qed.
Lemma applyScale_xz model fd model' :
  _applyScale model fd = Some model' ->
  vx (Object3D.position model') = vx (Object3D.position model) /\
  vz (Object3D.position model') = vz (Object3D.position model) /\
  Object3D.nodes model' = Object3D.nodes model /\
  Object3D.rotation model' = Object3D.rotation model.
Proof.
  unfold _applyScale. destruct (FurnitureData.name fd) as [name |]; [| discriminate].
  cbn. intros [= <-]. set (m1 := rescale _ model).
  assert (H1 : Object3D.position m1 = Object3D.position model /\
               Object3D.nodes m1 = Object3D.nodes model /\
               Object3D.rotation m1 = Object3D.rotation model).
  { unfold m1, rescale. destruct (Qltb _ _); [| auto]. destruct (Qltb _ _); auto. }
  destruct H1 as (Hp & Hn & Hr). rewrite <- Hp, <- Hn, <- Hr.
  unfold sit_on_floor. destruct (Box3_setFromObject m1); [auto |].
  destruct (Qltb _ _); auto.
Qed.

(** The outcome of [_placeFurniture]: nothing placed, or one new object at
    the end of the three lists, standing at the x and z asked for. *)
Lemma placeFurniture_outcome load uuid stamp fd position a :
  let res := _placeFurniture load uuid stamp fd position a in
  AppState.isLoading (App.appState (snd res)) = false /\
  PlacementSystem.isLoading (App.placement (snd res)) = false /\
  match fst res with
  | None =>
      FurnitureData.name fd = None /\
      App.objects (snd res) = App.objects a /\
      App.materials (snd res) = App.materials a /\
      App.container (snd res) = App.container a /\
      AppState.placedObjects (App.appState (snd res)) =
        AppState.placedObjects (App.appState a) /\
      getPlacedObjects (snd res) = getPlacedObjects a
  | Some r =>
      App.objects a !! r = None /\
      App.container (snd res) = (fun l => l ++ [r]) <$> App.container a /\
      AppState.placedObjects (App.appState (snd res)) =
        AppState.placedObjects (App.appState a) ++ [r] /\
      getPlacedObjects (snd res) = getPlacedObjects a ++ [r] /\
      (forall k o, App.objects a !! k = Some o -> App.objects (snd res) !! k = Some o) /\
      exists name model,
        FurnitureData.name fd = Some name /\
        App.objects (snd res) !! r = Some model /\
        Object3D.name model = "Furniture_" +:+ name +:+ "_" +:+ Stamp.text stamp /\
        Object3D.userData model =
          UserData.mk (Some (Stamp.value stamp)) None None None None (Some fd)
            (Some false) /\
        vx (Object3D.position model) = vx position /\
        vz (Object3D.position model) = vz position
  end.
Proof.
  cbv zeta. unfold _placeFurniture.
  destruct (FurnitureData.name fd) as [name |] eqn:Hname.
  2: { destruct (placement_model load uuid fd); cbn; repeat split. }
  assert (Hmodel : is_Some (placement_model load uuid fd)).
  { unfold placement_model. destruct (FurnitureData.path fd ≫= load); [eauto |].
    unfold _createPrimitiveFallback. rewrite Hname. cbn. eauto. }
  destruct Hmodel as [asset ->]. cbn [mbind option_bind].
  change (App.materials (set_loading true a)) with (App.materials a).
  destruct (instantiate asset (App.materials a)) as [model ms] eqn:Hinst.
  destruct (_applyScale _ fd) as [model' |] eqn:Hscale.
  2: { unfold _applyScale in Hscale. rewrite Hname in Hscale. discriminate. }
  apply applyScale_xz in Hscale as (Hx & Hz & _ & _).
  cbn. split; [reflexivity |]. split; [reflexivity |].
  split; [apply not_elem_of_dom, is_fresh |].
  split; [reflexivity |]. split; [reflexivity |]. split; [reflexivity |].
  split.
  { intros k o Ho. rewrite lookup_insert_ne; [exact Ho |].
    intros <-. pose proof (is_fresh (dom (App.objects a))) as Hf.
    apply not_elem_of_dom in Hf. congruence. }
  eexists name, _. split; [reflexivity |]. rewrite lookup_insert_eq.
  split; [reflexivity |]. split; [reflexivity |]. split; [reflexivity |].
  cbn in Hx, Hz. cbn. split; assumption.
Qed.

(** X20: what a double-click can do. [_onDoubleClick] either places
    nothing, and then the scene objects, the container and both lists of
    placed objects are as they were; or it places exactly one new object,
    which happens only when a furniture type is active, no placement is
    under way, and the pointer meets the floor at a point within the room
    bounds: the new object stands at the x and z of that point, is named
    after the active type and goes to the end of the container, of the
    application's list and of the placement system's list alike. *)
Theorem doubleClick_places_at_most_one (load : string -> option Asset.t)
    (uuid : nat -> string) (stamp : Stamp.t) (floor : option Vector3) (a : App.t) :
  let res := _onDoubleClick load uuid stamp floor a in
  match fst res with
  | None =>
      App.objects (snd res) = App.objects a /\
      App.container (snd res) = App.container a /\
      AppState.placedObjects (App.appState (snd res)) =
        AppState.placedObjects (App.appState a) /\
      getPlacedObjects (snd res) = getPlacedObjects a
  | Some r =>
      App.objects a !! r = None /\
      App.container (snd res) = (fun l => l ++ [r]) <$> App.container a /\
      AppState.placedObjects (App.appState (snd res)) =
        AppState.placedObjects (App.appState a) ++ [r] /\
      getPlacedObjects (snd res) = getPlacedObjects a ++ [r] /\
      (forall k o, App.objects a !! k = Some o -> App.objects (snd res) !! k = Some o) /\
      PlacementSystem.isLoading (App.placement a) = false /\
      exists fd name p model,
        AppState.activeFurnitureType (App.appState a) = Some fd /\
        FurnitureData.name fd = Some name /\
        floor = Some p /\
        _isWithinBounds p 0.5 = true /\
        App.objects (snd res) !! r = Some model /\
        Object3D.name model = "Furniture_" +:+ name +:+ "_" +:+ Stamp.text stamp /\
        vx (Object3D.position model) = vx p /\
        vz (Object3D.position model) = vz p
  end.
Proof.
  cbv zeta. unfold _onDoubleClick.
  destruct (AppState.activeFurnitureType (App.appState a)) as [fd |] eqn:Hact;
    [| cbn; auto].
  destruct (PlacementSystem.isLoading (App.placement a)) eqn:Hload; [cbn; auto |].
  destruct floor as [p |]; [| cbn; auto].
  destruct (_isWithinBounds p 0.5) eqn:Hin; [| cbn; auto].
  pose proof (placeFurniture_outcome load uuid stamp fd p a) as Hout. cbv zeta in Hout.
  destruct (_placeFurniture load uuid stamp fd p a) as [[r |] a']; cbn in *.
  - destruct Hout as (_ & _ & Hnew & Hc & Hp & Hg & Hfr & name & model & Hn & Hat & Hname
                      & _ & Hx & Hz).
    repeat (split; [assumption |]). split; [reflexivity |].
    exists fd, name, p, model. auto 10.
  - destruct Hout as (_ & _ & _ & Ho & _ & Hc & Hp & Hg). auto.
Qed.
(** X21: the scale of a placed model. [_applyScale] leaves the scale of the
    model as it is, or sets one factor between 0.1 and 3 on all three axes;
    it fails only for a catalog entry without a name. *)
Theorem applyScale_clamps_factor (model : Object3D.t) (fd : FurnitureData.t) :
  match _applyScale model fd with
  | Some model' =>
      Object3D.scale model' = Object3D.scale model \/
      exists c, Object3D.scale model' = Vector3_setScalar c /\ 0.1 <= c <= 3
  | None => FurnitureData.name fd = None
  end.
Proof.
  unfold _applyScale. destruct (FurnitureData.name fd) as [name |]; [| reflexivity].
  cbn. set (m1 := rescale _ model).
  assert (H1 : Object3D.scale m1 = Object3D.scale model \/
               exists c, Object3D.scale m1 = Vector3_setScalar c /\ 0.1 <= c <= 3).
  { unfold m1, rescale. destruct (Qltb _ _); [| now left].
    destruct (Qltb _ _); [| now left]. right. eexists. split; [reflexivity |].
    split; [apply Q.le_max_l |]. apply Q.max_lub; [lra | apply Q.le_min_l]. }
  assert (H2 : Object3D.scale (sit_on_floor m1) = Object3D.scale m1).
  { unfold sit_on_floor. destruct (Box3_setFromObject m1); [reflexivity |].
    now destruct (Qltb _ _). }
  now rewrite H2.
Qed.

(** ** The catalog menu *)

(** X22: a click on the active catalog item switches placing off. The item
    whose id is that of the active furniture type is deactivated by
    [_selectItem], and nothing else changes: the selected object, the list
    of placed objects, the loading flag and everything outside [AppState]
    are as before. A double-click on the floor then places nothing and
    changes nothing, and a second click on the item makes it the active
    type, again with nothing else changed. *)
Theorem selectItem_toggles_active (item cur : FurnitureData.t) (a : App.t) :
  AppState.activeFurnitureType (App.appState a) = Some cur ->
  FurnitureData.id cur = FurnitureData.id item ->
  let s := App.appState a in
  let a1 := _selectItem item a in
  a1 = App.set_appState
         (AppState.mk (AppState.selectedObject s) None
            (AppState.placedObjects s) (AppState.isLoading s)) a /\
  (forall load uuid stamp floor, _onDoubleClick load uuid stamp floor a1 = (None, a1)) /\
  _selectItem item a1 =
    App.set_appState
      (AppState.mk (AppState.selectedObject s) (Some item)
         (AppState.placedObjects s) (AppState.isLoading s)) a.
Proof.
  intros Hact Hid. cbv zeta.
  assert (H1 : _selectItem item a = AppState_set_activeFurnitureType None a).
  { unfold _selectItem. rewrite Hact.
    now destruct (decide (FurnitureData.id cur = FurnitureData.id item)). }
  rewrite H1.
  split; [reflexivity |]. split; [intros; reflexivity |]. reflexivity.
Qed.

Lemma selectItem_toggles_witness :
  AppState.activeFurnitureType (App.appState (_selectItem chair_entry chair_active)) = None /\
  _onDoubleClick no_assets (uuids 0) (stamp_of 0) (Some (mkVector3 2 0 0))
    (_selectItem chair_entry chair_active) = (None, _selectItem chair_entry chair_active).
Proof.
  destruct (selectItem_toggles_active chair_entry chair_entry chair_active)
    as (H1 & H2 & _); [reflexivity | reflexivity |].
  split; [now rewrite H1 | apply H2].
Defined.

(** ** Removing through the placement system *)

Lemma removeObject_head x rest a :
  getPlacedObjects a = x :: rest ->
  let a' := removeObject x a in
  getPlacedObjects a' = rest /\
  App.container a' = remove_ref x <$> App.container a /\
  AppState.placedObjects (App.appState a') =
    remove_ref x (AppState.placedObjects (App.appState a)) /\
  App.objects a' = App.objects a /\ App.materials a' = App.materials a /\
  App.selection a' = App.selection a /\ App.panel a' = App.panel a /\
  AppState.selectedObject (App.appState a') = AppState.selectedObject (App.appState a) /\
  App.localStorage a' = App.localStorage a.
Proof.
  unfold getPlacedObjects, removeObject. intros ->. cbn [list_find].
  destruct (decide (x = x)); [| congruence]. cbn. repeat split.
Qed.

Lemma clearAll_fold (tracked : list nat) : forall a,
  getPlacedObjects a = tracked ->
  let a' := foldl (fun a obj => removeObject obj a) a tracked in
  getPlacedObjects a' = [] /\
  App.container a' = (fun l => foldl (fun l x => remove_ref x l) l tracked) <$> App.container a /\
  AppState.placedObjects (App.appState a') =
    foldl (fun l x => remove_ref x l) (AppState.placedObjects (App.appState a)) tracked /\
  App.objects a' = App.objects a /\ App.materials a' = App.materials a /\
  App.selection a' = App.selection a /\ App.panel a' = App.panel a /\
  AppState.selectedObject (App.appState a') = AppState.selectedObject (App.appState a) /\
  App.localStorage a' = App.localStorage a.
Proof.
  induction tracked as [| x rest IH]; intros a Ht.
  - cbn. repeat split; [exact Ht | now destruct (App.container a)].
  - destruct (removeObject_head x rest a Ht) as (H1 & H2 & H3 & H4 & H5 & H6 & H7 & H8 & H9).
    destruct (IH (removeObject x a) H1) as (I1 & I2 & I3 & I4 & I5 & I6 & I7 & I8 & I9).
    cbv zeta in *. cbn [foldl].
    rewrite I1, I2, I3, I4, I5, I6, I7, I8, I9, H2, H3, H4, H5, H6, H7, H8, H9.
    repeat split. now destruct (App.container a).
Qed.

Lemma foldl_remove_filter (tracked : list nat) : forall l,
  NoDup l ->
  foldl (fun l x => remove_ref x l) l tracked = filter (fun k => k ∉ tracked) l.
Proof.
  induction tracked as [| x rest IH]; intros l Hnd; cbn.
  - symmetry. induction l as [| y l IHl]; [reflexivity |].
    rewrite filter_cons_True by apply not_elem_of_nil.
    f_equal. apply IHl. now apply NoDup_cons in Hnd.
  - rewrite remove_ref_filter by exact Hnd.
    rewrite IH by now apply NoDup_filter.
    rewrite list_filter_filter. apply list_filter_iff.
    intros k. rewrite not_elem_of_cons. tauto.
Qed.

(** X23: [clearAll] removes what the placement system tracks, and only
    that. Afterwards the placement system's list is empty, and the
    container and the application's list of placed objects have lost
    exactly the tracked objects, the others staying in their order:
    objects restored by a load or made by Duplicate, which the placement
    system never tracked, remain. Nothing is deselected: the selection, the
    panel and the stores of objects and materials are as before. *)
Theorem clearAll_removes_tracked_only (a : App.t) (children : list nat) :
  App.container a = Some children ->
  NoDup children ->
  NoDup (AppState.placedObjects (App.appState a)) ->
  let a' := clearAll a in
  getPlacedObjects a' = [] /\
  App.container a' = Some (filter (fun k => k ∉ getPlacedObjects a) children) /\
  AppState.placedObjects (App.appState a') =
    filter (fun k => k ∉ getPlacedObjects a) (AppState.placedObjects (App.appState a)) /\
  App.objects a' = App.objects a /\ App.materials a' = App.materials a /\
  App.selection a' = App.selection a /\ App.panel a' = App.panel a /\
  AppState.selectedObject (App.appState a') = AppState.selectedObject (App.appState a).
Proof.
  intros Hc Hnd Hndp. cbv zeta. unfold clearAll.
  destruct (clearAll_fold (getPlacedObjects a) a eq_refl)
    as (H1 & H2 & H3 & H4 & H5 & H6 & H7 & H8 & _).
  cbv zeta in *. unfold getPlacedObjects in *.
  rewrite H1, H2, H3, H4, H5, H6, H7, H8, Hc. cbn.
  rewrite !foldl_remove_filter by assumption. repeat split.
Qed.
Lemma clearAll_witness :
  let a := _duplicateObject (uuids 2) chair_picked in
  getPlacedObjects (clearAll a) = [] /\
  App.container (clearAll a) = Some [2%nat] /\
  SelectionSystem.selectedObject (App.selection (clearAll a)) = Some 2%nat.
Proof.
  cbv zeta.
  destruct (clearAll_removes_tracked_only (_duplicateObject (uuids 2) chair_picked)
              [0%nat; 1%nat; 2%nat])
    as (H1 & H2 & _ & _ & _ & H6 & _).
  - vm_compute. reflexivity.
  - apply (bool_decide_unpack _). vm_compute. exact I.
  - apply (bool_decide_unpack _). vm_compute. exact I.
  - rewrite H1, H2, H6. repeat split; vm_compute; reflexivity.
Defined.
(** ** The highlight of a selection, on materials that are not shared *)

Lemma highlight_child_step M ms n r m :
  node_ref n = Some r -> ms !! r = Some m -> M !! Node.uuid n = None ->
  highlight_child (M, ms) n =
    (<[Node.uuid n := SavedEmissive.mk (Material.emissive m) (Material.emissiveIntensity m)]> M,
     <[r := highlighted m]> ms).
Proof.
  intros Hr Hm Hu. unfold highlight_child.
  assert (E : mesh_material ms n = Some (r, m)) by now apply mesh_material_Some.
  rewrite E, Hu. unfold highlighted. destruct (Material.emissive m); [reflexivity |].
  now rewrite (insert_id ms r m Hm).
Qed.

Lemma highlight_child_skip M ms n :
  node_ref n = None -> highlight_child (M, ms) n = (M, ms).
Proof.
  intros Hr. unfold highlight_child.
  assert (E : mesh_material ms n = None) by (apply mesh_material_None; now left).
  now rewrite E.
Qed.

Lemma restore_child_step M ms n r m :
  node_ref n = Some r -> ms !! r = Some (highlighted m) ->
  M !! Node.uuid n = Some (SavedEmissive.mk (Material.emissive m) (Material.emissiveIntensity m)) ->
  restore_child M ms n = <[r := settled m]> ms.
Proof.
  intros Hr Hm Hu. unfold restore_child.
  assert (E : mesh_material ms n = Some (r, highlighted m)) by now apply mesh_material_Some.
  rewrite E, Hu. unfold highlighted, settled in *.
  destruct m as [c me ro op tr [e |] ei cl]; cbn in *; [reflexivity |].
  now rewrite (insert_id ms r _ Hm).
Qed.

Lemma restore_child_skip M ms n :
  node_ref n = None -> restore_child M ms n = ms.
Proof.
  intros Hr. unfold restore_child.
  assert (E : mesh_material ms n = None) by (apply mesh_material_None; now left).
  now rewrite E.
Qed.

Lemma node_ref_in_refs (ns : list Node.t) (n : Node.t) (r : nat) :
  n ∈ ns -> node_ref n = Some r -> r ∈ omap node_ref ns.
Proof. intros Hin Hr. apply list_elem_of_omap. now exists n. Qed.

(** The highlight pass over nodes with materials and identifiers of their
    own: every mesh material is saved as it was and shows the highlight. *)
Lemma highlight_fold : forall (ns : list Node.t) M ms,
  NoDup (omap node_ref ns) -> NoDup (Node.uuid <$> ns) ->
  (forall n, n ∈ ns -> M !! Node.uuid n = None) ->
  (forall n r, n ∈ ns -> node_ref n = Some r -> is_Some (ms !! r)) ->
  exists M' ms',
    foldl highlight_child (M, ms) ns = (M', ms') /\
    (forall n r m, n ∈ ns -> node_ref n = Some r -> ms !! r = Some m ->
       M' !! Node.uuid n =
         Some (SavedEmissive.mk (Material.emissive m) (Material.emissiveIntensity m)) /\
       ms' !! r = Some (highlighted m)) /\
    (forall k, k ∉ omap node_ref ns -> ms' !! k = ms !! k) /\
    (forall u, u ∉ Node.uuid <$> ns -> M' !! u = M !! u).
Proof.
  induction ns as [| n ns IH]; intros M ms Hrefs Huuids Hfresh Halloc.
  - exists M, ms. cbn. split; [reflexivity |].
    split; [intros n r m Hin; now apply elem_of_nil in Hin |]. split; auto.
  - rewrite fmap_cons in Huuids. apply NoDup_cons in Huuids as [Hu Huuids].
    rewrite omap_cons in Hrefs. cbn [foldl].
    destruct (node_ref n) as [r |] eqn:Hr.
    + apply NoDup_cons in Hrefs as [Hrn Hrefs].
      destruct (Halloc n r) as [m Hm]; [left | exact Hr |].
      rewrite (highlight_child_step M ms n r m Hr Hm) by (apply Hfresh; left).
      destruct (IH (<[Node.uuid n := SavedEmissive.mk (Material.emissive m)
                                         (Material.emissiveIntensity m)]> M)
                   (<[r := highlighted m]> ms) Hrefs Huuids)
        as (M' & ms' & Hfold & Hall & Hms & HM).
      { intros n' Hin. rewrite lookup_insert_ne; [apply Hfresh; now right |].
        intros Heq. apply Hu. rewrite Heq. now apply list_elem_of_fmap_2. }
      { intros n' r' Hin Hr'. rewrite lookup_insert_is_Some'. right.
        apply (Halloc n' r'); [now right | exact Hr']. }
      exists M', ms'. split; [exact Hfold |]. split; [| split].
      * intros n0 r0 m0 [-> | Hin]%elem_of_cons Hr0 Hm0.
        -- assert (r0 = r) by congruence. subst r0.
           assert (m0 = m) by congruence. subst m0.
           rewrite (HM _ Hu), (Hms _ Hrn), !lookup_insert_eq. now split.
        -- assert (Hne : r0 <> r).
           { intros ->. apply Hrn. now apply (node_ref_in_refs ns n0). }
           apply (Hall n0 r0 m0 Hin Hr0). now rewrite lookup_insert_ne.
      * intros k Hk. rewrite omap_cons, Hr in Hk. apply not_elem_of_cons in Hk as [Hne Hk].
        rewrite (Hms k Hk). now rewrite lookup_insert_ne.
      * intros u Hu'. rewrite fmap_cons in Hu'. apply not_elem_of_cons in Hu' as [Hne Hu'].
        rewrite (HM u Hu'). now rewrite lookup_insert_ne.
    + rewrite (highlight_child_skip M ms n Hr).
      destruct (IH M ms Hrefs Huuids) as (M' & ms' & Hfold & Hall & Hms & HM).
      { intros n' Hin. apply Hfresh. now right. }
      { intros n' r' Hin. apply Halloc. now right. }
      exists M', ms'. split; [exact Hfold |]. split; [| split].
      * intros n0 r0 m0 [-> | Hin]%elem_of_cons Hr0 Hm0; [congruence |].
        now apply (Hall n0 r0 m0).
      * intros k Hk. rewrite omap_cons, Hr in Hk. now apply Hms.
      * intros u Hu'. rewrite fmap_cons in Hu'. apply not_elem_of_cons in Hu' as [_ Hu'].
        now apply HM.
Qed.

(** The restore pass that follows it. *)
Lemma restore_fold M : forall (ns : list Node.t) ms,
  NoDup (omap node_ref ns) ->
  (forall n r, n ∈ ns -> node_ref n = Some r ->
     exists m, ms !! r = Some (highlighted m) /\
       M !! Node.uuid n =
         Some (SavedEmissive.mk (Material.emissive m) (Material.emissiveIntensity m))) ->
  (forall n r m, n ∈ ns -> node_ref n = Some r -> ms !! r = Some (highlighted m) ->
     M !! Node.uuid n =
       Some (SavedEmissive.mk (Material.emissive m) (Material.emissiveIntensity m)) ->
     foldl (restore_child M) ms ns !! r = Some (settled m)) /\
  (forall k, k ∉ omap node_ref ns -> foldl (restore_child M) ms ns !! k = ms !! k).
Proof.
  induction ns as [| n ns IH]; intros ms Hrefs Hall.
  - cbn. split; [| auto]. intros n r m Hin. now apply elem_of_nil in Hin.
  - rewrite omap_cons in Hrefs. cbn [foldl].
    destruct (node_ref n) as [r |] eqn:Hr.
    + apply NoDup_cons in Hrefs as [Hrn Hrefs].
      destruct (Hall n r) as (m & Hm & HM); [left | exact Hr |].
      rewrite (restore_child_step M ms n r m Hr Hm HM).
      destruct (IH (<[r := settled m]> ms) Hrefs) as [Hdone Hrest].
      { intros n' r' Hin Hr'.
        assert (Hne : r' <> r).
        { intros ->. apply Hrn. now apply (node_ref_in_refs ns n'). }
        rewrite lookup_insert_ne by congruence. apply Hall; [now right | exact Hr']. }
      split.
      * intros n0 r0 m0 [-> | Hin]%elem_of_cons Hr0 Hm0 HM0.
        -- assert (r0 = r) by congruence. subst r0.
           rewrite (Hrest r Hrn), lookup_insert_eq. f_equal.
           rewrite HM in HM0. injection HM0 as He Hi.
           rewrite Hm in Hm0. injection Hm0 as Hh.
           unfold highlighted, settled in *.
           destruct m as [c me ro op tr em ei cl], m0 as [c0 me0 ro0 op0 tr0 em0 ei0 cl0];
             cbn in *; subst; destruct em0; cbn in *;
             [injection Hh as -> -> -> -> -> ->; reflexivity | now injection Hh as -> -> -> -> -> ->].
        -- assert (Hne : r0 <> r).
           { intros ->. apply Hrn. now apply (node_ref_in_refs ns n0). }
           apply (Hdone n0 r0 m0 Hin Hr0); [| exact HM0].
           now rewrite lookup_insert_ne.
      * intros k Hk. rewrite omap_cons, Hr in Hk. apply not_elem_of_cons in Hk as [Hne Hk].
        rewrite (Hrest k Hk). now rewrite lookup_insert_ne.
    + rewrite (restore_child_skip M ms n Hr).
      destruct (IH ms Hrefs) as [Hdone Hrest].
      { intros n' r' Hin. apply Hall. now right. }
      split.
      * intros n0 r0 m0 [-> | Hin]%elem_of_cons Hr0; [congruence |].
        now apply (Hdone n0 r0 m0).
      * intros k Hk. rewrite omap_cons, Hr in Hk. now apply Hrest.
Qed.

(** Highlight, then restore: every material of the item is back, its
    emissive intensity settled; the rest of the store was never touched. *)
Lemma highlight_then_restore (ns : list Node.t) (ms : gmap nat Material.t) :
  NoDup (omap node_ref ns) -> NoDup (Node.uuid <$> ns) ->
  (forall n r, n ∈ ns -> node_ref n = Some r -> is_Some (ms !! r)) ->
  exists M ms1,
    foldl highlight_child (∅, ms) ns = (M, ms1) /\
    (forall k m, ms !! k = Some m ->
       foldl (restore_child M) ms1 ns !! k =
         Some (if bool_decide (k ∈ omap node_ref ns) then settled m else m)) /\
    (forall k, k ∉ omap node_ref ns -> foldl (restore_child M) ms1 ns !! k = ms !! k).
Proof.
  intros Hrefs Huuids Halloc.
  destruct (highlight_fold ns ∅ ms Hrefs Huuids) as (M & ms1 & Hfold & Hall & Hms & _);
    [intros; apply lookup_empty | exact Halloc |].
  exists M, ms1. split; [exact Hfold |].
  destruct (restore_fold M ns ms1 Hrefs) as [Hdone Hrest].
  { intros n r Hin Hr. destruct (Halloc n r Hin Hr) as [m Hm].
    exists m. destruct (Hall n r m Hin Hr Hm). now split. }
  split.
  - intros k m Hk. case_bool_decide as Hin.
    + apply list_elem_of_omap in Hin as (n & Hin & Hr).
      destruct (Hall n k m Hin Hr Hk) as [HM Hh].
      now apply (Hdone n k m).
    + now rewrite (Hrest k Hin), (Hms k Hin).
  - intros k Hin. now rewrite (Hrest k Hin), (Hms k Hin).
Qed.
Lemma select_fresh r o a :
  SelectionSystem.selectedObject (App.selection a) = None ->
  App.objects a !! r = Some o ->
  forall M ms1,
    foldl highlight_child
      (SelectionSystem.originalMaterials (App.selection a), App.materials a)
      (Object3D.nodes o) = (M, ms1) ->
    App.materials (select r a) = ms1 /\
    SelectionSystem.originalMaterials (App.selection (select r a)) = M /\
    SelectionSystem.selectedObject (App.selection (select r a)) = Some r /\
    App.objects (select r a) = alter (set_flag true) r (App.objects a).
Proof.
  intros Hs Ho M ms1 Hfold. unfold select. rewrite Hs. cbv zeta.
  set (a2 := _createHighlight r _).
  assert (Hlook : App.objects a2 !! r = Some (set_flag true o)).
  { unfold a2, _createHighlight, _removeHighlight, with_selection, update_object.
    cbn. rewrite lookup_alter_eq, Ho. reflexivity. }
  assert (Hhl : _applyHighlightMaterial r a2 =
                with_selection (Sel.set_originalMaterials M) (App.set_materials ms1 a2)).
  { unfold _applyHighlightMaterial. rewrite Hlook.
    change (Object3D.nodes (set_flag true o)) with (Object3D.nodes o).
    change (SelectionSystem.originalMaterials (App.selection a2))
      with (SelectionSystem.originalMaterials (App.selection a)).
    change (App.materials a2) with (App.materials a). now rewrite Hfold. }
  rewrite Hhl. unfold AppState_set_selectedObject. cbv zeta.
  rewrite (updateSelection_same (Some r)) by reflexivity.
  repeat split.
Qed.

Lemma deselect_materials r o b :
  SelectionSystem.selectedObject (App.selection b) = Some r ->
  App.objects b !! r = Some o ->
  App.materials (deselect b) =
    foldl (restore_child (SelectionSystem.originalMaterials (App.selection b)))
      (App.materials b) (Object3D.nodes o) /\
  SelectionSystem.originalMaterials (App.selection (deselect b)) = ∅ /\
  SelectionSystem.selectedObject (App.selection (deselect b)) = None /\
  App.objects (deselect b) = alter (set_flag false) r (App.objects b).
Proof.
  intros Hs Ho. unfold deselect. rewrite Hs.
  unfold AppState_set_selectedObject. cbv zeta.
  rewrite (updateSelection_same None) by reflexivity.
  unfold with_selection, unhighlight, update_object, _restoreOriginalMaterials,
    _removeHighlight, with_selection.
  cbn [App.objects App.set_selection App.selection]. rewrite Ho. repeat split.
Qed.

Lemma settled_same (m : Material.t) (q : Q) :
  Material.emissiveIntensity m = Some q -> truthy_num q = true -> settled m = m.
Proof.
  intros Hq Ht. unfold settled. destruct m as [c me ro op tr [e |] ei cl]; [| reflexivity].
  cbn in *. subst ei. cbn. now rewrite Ht.
Qed.

(** X24: a highlight that comes and goes, on an item whose meshes do not
    share materials. From a state with nothing selected, selecting an item
    whose mesh nodes have materials and identifiers of their own and then
    deselecting it brings every material back as it was, emissive colour
    included, with the emissive intensity passed through [|| 0]: a
    material whose intensity is a non-zero number is exactly as before.
    The materials of other items are not touched, no saved highlight is
    left behind, and the item is there with its flag cleared. *)
Theorem deselect_restores_unshared_emissive (r : nat) (o : Object3D.t) (a : App.t) :
  SelectionSystem.selectedObject (App.selection a) = None ->
  SelectionSystem.originalMaterials (App.selection a) = ∅ ->
  App.objects a !! r = Some o ->
  NoDup (omap node_ref (Object3D.nodes o)) ->
  NoDup (Node.uuid <$> Object3D.nodes o) ->
  (forall n q, n ∈ Object3D.nodes o -> node_ref n = Some q ->
               is_Some (App.materials a !! q)) ->
  let a' := deselect (select r a) in
  (forall k m, App.materials a !! k = Some m ->
     App.materials a' !! k =
       Some (if bool_decide (k ∈ omap node_ref (Object3D.nodes o))
             then settled m else m)) /\
  (forall k m q, App.materials a !! k = Some m ->
     Material.emissiveIntensity m = Some q -> truthy_num q = true ->
     App.materials a' !! k = Some m) /\
  (forall k, App.materials a !! k = None -> App.materials a' !! k = None) /\
  SelectionSystem.originalMaterials (App.selection a') = ∅ /\
  SelectionSystem.selectedObject (App.selection a') = None /\
  App.objects a' !! r = Some (set_flag false o).
Proof.
  intros Hs HM Ho Hrefs Huuids Halloc. cbv zeta.
  destruct (highlight_then_restore (Object3D.nodes o) (App.materials a) Hrefs Huuids Halloc)
    as (M & ms1 & Hfold & Hback & Hrest).
  rewrite <- HM in Hfold.
  destruct (select_fresh r o a Hs Ho M ms1 Hfold) as (Hms & HMs & Hsel & Hobj).
  assert (Ho' : App.objects (select r a) !! r = Some (set_flag true o)).
  { rewrite Hobj, lookup_alter_eq, Ho. reflexivity. }
  destruct (deselect_materials r (set_flag true o) (select r a) Hsel Ho')
    as (Hms' & HM' & Hsel' & Hobj').
  change (Object3D.nodes (set_flag true o)) with (Object3D.nodes o) in Hms'.
  rewrite Hms, HMs in Hms'.
  assert (Hall : forall k m, App.materials a !! k = Some m ->
            App.materials (deselect (select r a)) !! k =
              Some (if bool_decide (k ∈ omap node_ref (Object3D.nodes o))
                    then settled m else m)).
  { intros k m Hk. rewrite Hms'. now apply Hback. }
  split; [exact Hall |]. split.
  { intros k m q Hk Hq Ht. rewrite (Hall k m Hk).
    case_bool_decide; [| reflexivity]. now rewrite (settled_same m q). }
  split.
  { intros k Hk. rewrite Hms', Hrest; [exact Hk |].
    intros Hin. apply list_elem_of_omap in Hin as (n & Hin & Hr).
    destruct (Halloc n k Hin Hr) as [m Hm]. congruence. }
  split; [exact HM' |]. split; [exact Hsel' |].
  rewrite Hobj', lookup_alter_eq, Ho'. reflexivity.
Qed.

Lemma deselect_restores_witness :
  App.materials (deselect (select 0 chair_from_model)) !! 0%nat =
  App.materials chair_from_model !! 0%nat.
Proof.
  destruct (App.objects chair_from_model !! 0%nat) as [o |] eqn:Ho;
    [| vm_compute in Ho; discriminate].
  destruct (deselect_restores_unshared_emissive 0 o chair_from_model) as (_ & Hsame & _).
  - vm_compute. reflexivity.
  - vm_compute. reflexivity.
  - exact Ho.
  - vm_compute in Ho. injection Ho as <-. apply (bool_decide_unpack _). vm_compute. exact I.
  - vm_compute in Ho. injection Ho as <-. apply (bool_decide_unpack _). vm_compute. exact I.
  - vm_compute in Ho. injection Ho as <-. intros n q Hin Hq.
    unfold Object3D.nodes in Hin. cbn [Object3D.self Object3D.descendants] in Hin.
    repeat match goal with
           | H : _ ∈ _ :: _ |- _ => apply elem_of_cons in H as [-> | H]
           | H : _ ∈ [] |- _ => apply elem_of_nil in H; contradiction
           end;
      vm_compute in Hq; try discriminate; injection Hq as <-; vm_compute; eauto.
  - destruct (App.materials chair_from_model !! 0%nat) as [m |] eqn:Hm;
      [| vm_compute in Hm; discriminate].
    apply (Hsame 0%nat m 1 Hm); [| reflexivity].
    vm_compute in Hm. injection Hm as <-. reflexivity.
Defined.
(** ** A saved layout, loaded *)

(** X25: save, then load. After a save that succeeded in a scene with its
    furniture container, a load succeeds and replaces the scene: the
    container and the list of placed objects hold the same pairwise
    distinct references, one for each object that was placed at the time of
    the save and in the same order. The object under the [i]-th reference
    is a new one (the reference was free before the load), and it
    serializes to the name, catalog linkage, position, rotation and scale
    of the [i]-th saved object; to the very same stored item, material
    deltas included, when its asset loads as the model the object was saved
    from. *)
Theorem saved_layout_reloads load uuid stamp now a a1 :
  is_Some (App.container a) ->
  placed_objects a <> [] ->
  saveLayout now a = (true, a1) ->
  exists a2 rs,
    loadLayout load uuid stamp a1 = (true, a2) /\
    App.container a2 = Some rs /\
    AppState.placedObjects (App.appState a2) = rs /\
    length rs = length (placed_objects a) /\
    NoDup rs /\
    forall i obj, placed_objects a !! i = Some obj ->
      exists r' obj',
        rs !! i = Some r' /\
        App.objects a !! r' = None /\
        App.objects a2 !! r' = Some obj' /\
        same_linkage_and_transform (_serializeObject (App.materials a) obj)
          (_serializeObject (App.materials a2) obj') /\
        (same_model (App.materials a) obj
           (deserialize_model load (uuid i) (_serializeObject (App.materials a) obj)) ->
         _serializeObject (App.materials a2) obj' =
         _serializeObject (App.materials a) obj).
Proof.
  intros Hc Hne Hsave.
  destruct (save_then_load load uuid stamp now a a1 Hne Hsave) as [Hload Hc1].
  assert (Hobjs : App.objects a1 = App.objects a).
  { revert Hsave. unfold saveLayout.
    destruct (AppState.placedObjects (App.appState a)); [discriminate |].
    destruct (Storage_setItem _ _ _); [| discriminate]. now intros [= <-]. }
  assert (Hca : is_Some (App.container a1)) by now rewrite Hc1.
  destruct (clearCurrentObjects_spec a1 Hca)
    as (Hc0 & Hp0 & _ & _ & _ & _ & _ & _ & Hd0).
  cbv zeta in *. set (b := _clearCurrentObjects a1) in *.
  assert (Hcb : is_Some (App.container b)) by (rewrite Hc0; eauto).
  destruct (deserialize_all_spec load uuid stamp (App.materials a) (placed_objects a)
              0 b Hcb) as (rs0 & a2 & Hall & _ & _ & _ & Hlen & Hitems).
  destruct (deserialize_all_lists load uuid stamp
              (serialize_all (App.materials a) (placed_objects a)) 0 b [] Hc0)
    as (rs & a2' & Hall' & Hc' & Hp' & _).
  destruct (deserialize_all_items load uuid stamp
              (serialize_all (App.materials a) (placed_objects a)) 0 b Hcb)
    as (rs2 & a2'' & Hall2 & _ & Hnd & _).
  assert (Heq : rs0 = Some <$> rs /\ a2' = a2) by (split; congruence).
  destruct Heq as [-> ->].
  assert (Heq2 : rs2 = rs).
  { rewrite Hall in Hall2. injection Hall2 as Hrs _.
    symmetry. eapply (inj (fmap Some)). exact Hrs. }
  subst rs2.
  exists a2, rs. split; [now rewrite Hload, Hall |].
  split; [exact Hc' |]. split; [now rewrite Hp', Hp0 |].
  split; [now rewrite length_fmap in Hlen |]. split; [exact Hnd |].
  intros i obj Hobj.
  destruct (Hitems i obj Hobj) as (r' & obj' & Hr & Hnew & Hat & Hlink & Hsame).
  exists r', obj'.
  split.
  { rewrite list_lookup_fmap in Hr. destruct (rs !! i); [| discriminate].
    cbn in Hr. congruence. }
  split.
  { rewrite <- Hobjs. apply (lookup_None_dom _ (App.objects b)); [exact Hd0 | exact Hnew]. }
  auto.
Qed.

Lemma saved_layout_reloads_witness :
  exists a2,
    loadLayout chair_assets uuids stamp_of (snd (saveLayout 1700000002 painted_chair))
      = (true, a2).
Proof.
  destruct (saved_layout_reloads chair_assets uuids stamp_of 1700000002 painted_chair
              (snd (saveLayout 1700000002 painted_chair)))
    as (a2 & rs & Hload & _).
  - vm_compute. eauto.
  - vm_compute. discriminate.
  - vm_compute. reflexivity.
  - exists a2. exact Hload.
Defined.
(** ** The list of placed objects *)

Lemma remove_ref_app_last (r : nat) (l : list nat) :
  r ∉ l -> remove_ref r (l ++ [r]) = l.
Proof.
  induction l as [| x l IH]; intros Hnot.
  - cbn [app]. rewrite remove_ref_cons. now destruct (decide (r = r)).
  - apply not_elem_of_cons in Hnot as [Hne Hnot]. cbn [app].
    rewrite remove_ref_cons. destruct (decide (x = r)); [congruence |].
    now rewrite IH.
Qed.

(** X26: adding and removing a placed object. [removePlacedObject] of an
    object that is not in the list changes nothing, and undoes an
    [addPlacedObject] of that object. Of an object that is in the list it
    takes out the first occurrence and nothing else: the entries before
    it, which do not hold the object, and the entries after it stay in
    their order, and no other part of the application changes. *)
Theorem removePlacedObject_undoes_add (r : nat) (a : App.t) :
  let s := App.appState a in
  (r ∉ AppState.placedObjects s ->
   AppState_removePlacedObject r a = a /\
   AppState_removePlacedObject r (AppState_addPlacedObject r a) = a) /\
  (r ∈ AppState.placedObjects s ->
   exists l1 l2,
     AppState.placedObjects s = l1 ++ r :: l2 /\
     (r ∉ l1) /\
     AppState_removePlacedObject r a =
       App.set_appState
         (AppState.mk (AppState.selectedObject s) (AppState.activeFurnitureType s)
            (l1 ++ l2) (AppState.isLoading s)) a).
Proof.
  cbv zeta. split.
  - intros Hnot. unfold AppState_removePlacedObject, AppState_addPlacedObject.
    cbn [App.appState App.set_appState AppState.placedObjects AppState.selectedObject
         AppState.activeFurnitureType AppState.isLoading].
    rewrite remove_ref_absent, remove_ref_app_last by exact Hnot.
    destruct a as [? ? ? [? ? ? ?] ? ? ? ? ?]. split; reflexivity.
  - intros Hin. unfold AppState_removePlacedObject, remove_ref.
    destruct (list_find_elem_of (fun k => k = r) _ r Hin eq_refl) as [[i y] Hfind].
    rewrite Hfind. apply list_find_Some in Hfind as (Hi & -> & Hmin).
    exists (take i (AppState.placedObjects (App.appState a))),
           (drop (S i) (AppState.placedObjects (App.appState a))).
    split; [symmetry; now apply take_drop_middle |].
    split; [| reflexivity].
    intros Hel. apply list_elem_of_lookup in Hel as [j Hj].
    pose proof (lookup_lt_Some _ _ _ Hj) as Hlt. rewrite length_take in Hlt.
    rewrite lookup_take_lt in Hj by lia.
    apply (Hmin j r Hj); [lia | reflexivity].
Qed.
(** ** The colour the panel shows *)

Lemma getCurrentColor_fold (ms : gmap nat Material.t) (ns : list Node.t) : forall init,
  foldl (fun color child =>
           match mesh_material ms child with
           | Some (_, m) =>
               match Material.color m with
               | Some c => c
               | None => color
               end
           | None => color
           end) init ns =
  default init (last (omap (node_color ms) ns)).
Proof.
  induction ns as [| n ns IH]; intros init; [reflexivity |].
  cbn [foldl]. rewrite IH, omap_cons. unfold node_color at 2.
  destruct (mesh_material ms n) as [[q m] |]; cbn; [| reflexivity].
  destruct (Material.color m) as [c |]; [| reflexivity].
  rewrite last_cons. now destruct (last (omap (node_color ms) ns)).
Qed.

(** X27: the colour in the picker is that of the last coloured mesh. For a
    selected item, [_getCurrentColor] returns the colour of the last mesh,
    in traversal order, whose material has a colour, and the grey
    ['#888888'] when no mesh has one: the [return] in its callback does not
    stop the traversal at the first mesh. *)
Theorem getCurrentColor_is_last_mesh_color (a : App.t) (r : nat) (o : Object3D.t) :
  panel_object a = Some (r, o) ->
  _getCurrentColor a =
    default (Hex 0x888888) (last (omap (node_color (App.materials a)) (Object3D.nodes o))).
Proof.
  intros Hpo. unfold _getCurrentColor. rewrite Hpo. apply getCurrentColor_fold.
Qed.

Lemma getCurrentColor_witness :
  _getCurrentColor chair_picked = Hex 0x4a4a4a /\
  head (omap (node_color (App.materials chair_picked))
          (default [] (Object3D.nodes <$> App.objects chair_picked !! 0%nat)))
    = Some (HSL (84 / 360) 0.6 0.5).
Proof.
  destruct (App.objects chair_picked !! 0%nat) as [o |] eqn:Ho;
    [| vm_compute in Ho; discriminate].
  split.
  - rewrite (getCurrentColor_is_last_mesh_color chair_picked 0 o)
      by (apply panel_object_Some; [vm_compute; reflexivity | exact Ho]).
    vm_compute in Ho. injection Ho as <-. vm_compute. reflexivity.
  - vm_compute in Ho. injection Ho as <-. vm_compute. reflexivity.
Defined.
